(** * The "never miss a beat" checkpoint engines of the dfuse client examples

    Two example programs implement the same checkpointed, reconnect-safe
    stream consumer:

    - [examples/advanced/never-miss-a-beat.ts]: positions are block numbers
      (module [BlockHeight]);
    - [examples/advanced/common/graphql-never-miss-a-beat.js]: positions are
      opaque cursors (module [Graphql]).

    Each [Engine] method is embedded as a computation in a small state and
    exception monad.  A JavaScript exception leaves every mutation made
    before it in place, so a computation always returns the new state,
    together with either a value or the exception thrown.  The state holds
    the fields of the [Engine] object and what the engine can change outside
    itself (the marker of the stream, the cursor file), and a [history]: the
    mutations, marks, file writes and console lines in program order. *)

From Stdlib Require Import List String Arith NArith ZArith Bool Lia Sorted DecimalString.
Import ListNotations.
Local Open Scope string_scope.
Local Open Scope list_scope.

(** ** Exceptions and the monad *)

Inductive exn : Type :=
| Error (message : string)
| ReferenceError (identifier : string).

Inductive outcome (A : Type) : Type :=
| Returned (a : A)
| Thrown (e : exn).
Arguments Returned {A} a.
Arguments Thrown {A} e.

Definition M (W A : Type) : Type := W -> W * outcome A.

Definition ret {W A} (a : A) : M W A := fun w => (w, Returned a).

Definition throw {W A} (e : exn) : M W A := fun w => (w, Thrown e).

Definition bind {W A B} (c : M W A) (k : A -> M W B) : M W B :=
  fun w =>
    match c w with
    | (w', Returned a) => k a w'
    | (w', Thrown e) => (w', Thrown e)
    end.

Definition gets {W A} (f : W -> A) : M W A := fun w => (w, Returned (f w)).

Definition modify {W} (f : W -> W) : M W unit := fun w => (f w, Returned tt).

Declare Scope engine_scope.
Delimit Scope engine_scope with engine.
Notation "x <- c ;; k" := (bind c (fun x => k))
  (at level 61, c at next level, right associativity) : engine_scope.
Notation "c ;; k" := (bind c (fun _ => k))
  (at level 61, right associativity) : engine_scope.
Local Open Scope engine_scope.

(** [Array.prototype.forEach] with a callback run for its effect. *)
Fixpoint forEach {W A} (l : list A) (f : A -> M W unit) : M W unit :=
  match l with
  | [] => ret tt
  | x :: l' => f x ;; forEach l' f
  end.

(** The state a computation leaves, whether it returned or threw. *)
Definition exec {W A} (c : M W A) (w : W) : W := fst (c w).

(** ** The history of an engine

    [Pos] is the position type (block number or cursor), [Payload] what is
    buffered and sunk, [Line] a console line.  [Reset_pending] is the
    assignment [this.pendingActions = []] of [commit], [Flush_pending] the
    same assignment made on a reconnection. *)

Inductive event (Pos Payload Line : Type) : Type :=
| Log (line : Line)
| Push_pending (a : Payload)
| Push_committed (a : Payload)
| Reset_pending
| Flush_pending
| Set_lastCommitted (p : Pos)
| Mark (p : Pos)
| Persist (p : Pos).
Arguments Log {Pos Payload Line} line.
Arguments Push_pending {Pos Payload Line} a.
Arguments Push_committed {Pos Payload Line} a.
Arguments Reset_pending {Pos Payload Line}.
Arguments Flush_pending {Pos Payload Line}.
Arguments Set_lastCommitted {Pos Payload Line} p.
Arguments Mark {Pos Payload Line} p.
Arguments Persist {Pos Payload Line} p.

Section History.
Context {Pos Payload Line : Type}.
Let hevent : Type := event Pos Payload Line.

Definition is_log (e : hevent) : bool :=
  match e with Log _ => true | _ => false end.

(** A history without its console lines. *)
Definition effects (h : list hevent) : list hevent :=
  filter (fun e => negb (is_log e)) h.

(** What an observer of the history knows of the buffers: the Pending Buffer,
    and, since the last reconnection flush, the payloads received and the
    payloads sunk. *)
Record view : Type := mkView {
  v_pending : list Payload;
  v_received : list Payload;
  v_sunk : list Payload
}.

Definition view0 : view := mkView [] [] [].

Definition observe (v : view) (e : hevent) : view :=
  match e with
  | Push_pending a => mkView (v_pending v ++ [a]) (v_received v ++ [a]) (v_sunk v)
  | Push_committed a => mkView (v_pending v) (v_received v) (v_sunk v ++ [a])
  | Reset_pending => mkView [] (v_received v) (v_sunk v)
  | Flush_pending => view0
  | _ => v
  end.

Definition replay (v : view) (h : list hevent) : view := fold_left observe h v.

(** Every payload ever appended to the sink, in order. *)
Definition sunk_of (h : list hevent) : list Payload :=
  flat_map (fun e => match e with Push_committed a => [a] | _ => [] end) h.

Definition is_checkpoint (e : hevent) : bool :=
  match e with Mark _ | Persist _ => true | _ => false end.

(** The commit of the specification, as the events it would leave:
    (a) drain the Pending Buffer into the sink and clear it, (b) persist,
    (c) mark, (d) update the last committed position. *)
Definition commit_as_specified (pending : list Payload) (p : Pos) : list hevent :=
  (match pending with
   | [] => []
   | _ => map Push_committed pending ++ [Reset_pending]
   end) ++ [Persist p; Mark p; Set_lastCommitted p].

(** The buffers are balanced when what was received since the last flush is
    what was sunk since then followed by what is pending. *)
Definition balanced (v : view) : Prop :=
  v_received v = v_sunk v ++ v_pending v.

(** At a checkpoint (a mark or a persist) the Pending Buffer is drained:
    it is empty, and what was received since the last flush has been sunk,
    in arrival order. *)
Definition drained (v : view) : Prop :=
  v_pending v = [] /\ v_received v = v_sunk v.

(** Every checkpoint of a history finds the Pending Buffer drained. *)
Fixpoint checkpoints_drained (v : view) (h : list hevent) : Prop :=
  match h with
  | [] => True
  | e :: h' =>
      (if is_checkpoint e then drained v else True) /\
      checkpoints_drained (observe v e) h'
  end.

(** A stretch of history takes a balanced view with Pending Buffer [ps] to a
    balanced view with Pending Buffer [ps'], each of its checkpoints finding
    the buffer drained. *)
Definition transforms (delta : list hevent) (ps ps' : list Payload) : Prop :=
  forall v, balanced v -> v_pending v = ps ->
    checkpoints_drained v delta /\
    balanced (replay v delta) /\
    v_pending (replay v delta) = ps'.

End History.

(** ** The block-height engine ([never-miss-a-beat.ts]) *)

Module BlockHeight.

Record KarmaTransfer : Type := mkKarmaTransfer {
  from : string;
  to : string;
  quantity : string;
  memo : string
}.

(** [Action<T>] of the client library, with the fields the example reads. *)
Record Action : Type := mkAction {
  account : string;
  name : string;
  data : KarmaTransfer
}.

(** [message.data] of an [ActionTraceInboundMessage]; [act] is
    [message.data.trace.act].  A block number is a natural number. *)
Record ActionTraceData : Type := mkActionTraceData {
  block_id : string;
  block_num : N;
  act : Action
}.

Record ProgressData : Type := mkProgressData {
  progress_block_id : string;
  progress_block_num : N
}.

Inductive InboundMessage : Type :=
| listening
| action_trace (d : ActionTraceData)
| progress (d : ProgressData)
| other (type : string).

(** The part of a [Stream] the engine acts on: the marker that
    [stream.mark({ atBlockNum })] sets. *)
Record Stream : Type := mkStream {
  marker : option N
}.

Inductive line : Type :=
| Blank
| Text (s : string)
| Pending_transfer (a : Action) (blockId : string) (blockNum : N)
| Committing_up_to (blockId : string) (blockNum : N)
| Marking_up_to (blockId : string) (blockNum : N).

Definition ev : Type := event N Action line.

Record Engine : Type := mkEngine {
  stream : option Stream;
  pendingActions : list Action;
  lastCommittedBlockNum : N;
  committedActions : list Action;
  history : list ev
}.

Definition record (e : ev) : M Engine unit :=
  modify (fun w => mkEngine (stream w) (pendingActions w) (lastCommittedBlockNum w)
                            (committedActions w) (history w ++ [e])).

Definition console_log (l : line) : M Engine unit := record (Log l).

Definition set_stream (s : Stream) : M Engine unit :=
  modify (fun w => mkEngine (Some s) (pendingActions w) (lastCommittedBlockNum w)
                            (committedActions w) (history w)).

Definition push_pending (a : Action) : M Engine unit :=
  modify (fun w => mkEngine (stream w) (pendingActions w ++ [a]) (lastCommittedBlockNum w)
                            (committedActions w) (history w)) ;;
  record (Push_pending a).

Definition push_committed (a : Action) : M Engine unit :=
  modify (fun w => mkEngine (stream w) (pendingActions w) (lastCommittedBlockNum w)
                            (committedActions w ++ [a]) (history w)) ;;
  record (Push_committed a).

Definition clear_pending (e : ev) : M Engine unit :=
  modify (fun w => mkEngine (stream w) [] (lastCommittedBlockNum w)
                            (committedActions w) (history w)) ;;
  record e.

Definition set_lastCommittedBlockNum (n : N) : M Engine unit :=
  modify (fun w => mkEngine (stream w) (pendingActions w) n
                            (committedActions w) (history w)) ;;
  record (Set_lastCommitted n).

(** [new Engine(client)]: the field initialisers. *)
Definition new_Engine : Engine := mkEngine None [] 0%N [] [].

Definition ensureStream : M Engine Stream :=
  s <- gets stream ;;
  match s with
  | Some st => ret st
  | None => throw (Error "Stream should be set at this runtime execution point")
  end.

(** The error with which the [mark] of the client library refuses a marker;
    the library is not part of the example, and the exception stands for its
    error whatever its text. *)
Definition mark_refused : exn := Error "DfuseClientError".

(** [stream.mark({ atBlockNum: blockNum })], of the client library: it sets
    the marker, and it refuses the block number 0, throwing and leaving the
    marker as it was. *)
Definition mark (blockNum : N) : M Engine unit :=
  if (blockNum =? 0)%N
  then throw mark_refused
  else
    set_stream (mkStream (Some blockNum)) ;;
    record (Mark blockNum).

Definition commit (blockId : string) (blockNum : N) : M Engine unit :=
  console_log (Committing_up_to blockId blockNum) ;;
  pending <- gets pendingActions ;;
  (if (0 <? List.length pending)%nat
   then forEach pending push_committed
   else ret tt) ;;
  console_log (Text "Bumping last committed block and clearing pending actions") ;;
  clear_pending Reset_pending ;;
  set_lastCommittedBlockNum blockNum ;;
  console_log (Marking_up_to blockId blockNum) ;;
  _ <- ensureStream ;;
  mark blockNum ;;
  console_log (Text "").

Definition onListening : M Engine unit :=
  console_log (Text "Stream is now listening for action(s)").

Definition onProgress (d : ProgressData) : M Engine unit :=
  console_log Blank ;;
  console_log (Text "Committing changes due to seeing a message from a progress message") ;;
  commit (progress_block_id d) (progress_block_num d).

Definition onAction (d : ActionTraceData) : M Engine unit :=
  last <- gets lastCommittedBlockNum ;;
  (if (last <? block_num d)%N
   then
     console_log Blank ;;
     console_log (Text "Comitting changes due to seeing a message from a block ahead of our last committed block") ;;
     commit (block_id d) (block_num d)
   else ret tt) ;;
  console_log (Pending_transfer (act d) (block_id d) (block_num d)) ;;
  push_pending (act d).

Definition flushPending : M Engine unit :=
  console_log (Text "Flushing pending action(s) due to refresh") ;;
  clear_pending Flush_pending.

(** [stream.onPostRestart], as [start] installs it. *)
Definition onPostRestart : M Engine unit :=
  console_log Blank ;;
  console_log (Text "<============= Stream has reconnected to the socket correctly (at latest `mark()`) =============>") ;;
  console_log Blank ;;
  flushPending.

(** The [dynamicMessageDispatcher] built in [start]: a message goes to the
    handler registered for its type; [other] stands for the remaining message
    types of the stream, which have no handler. *)
Definition dispatcher (m : InboundMessage) : M Engine unit :=
  match m with
  | listening => onListening
  | action_trace d => onAction d
  | progress d => onProgress d
  | other _ => ret tt
  end.

(** [start], given the stream that [client.streamActionTraces] resolves to. *)
Definition start (st : Stream) : M Engine unit :=
  console_log (Text "Engine starting") ;;
  set_stream st ;;
  console_log (Text "Stream connected, ready to receive messages").

(** What can be invoked on an engine: a handler, by a message of the stream;
    the reconnect hook; and the methods [commit] and [flushPending]. *)
Inductive invocation : Type :=
| Message (m : InboundMessage)
| PostRestart
| Commit (blockId : string) (blockNum : N)
| FlushPending.

Definition invoke (i : invocation) : M Engine unit :=
  match i with
  | Message m => dispatcher m
  | PostRestart => onPostRestart
  | Commit blockId blockNum => commit blockId blockNum
  | FlushPending => flushPending
  end.

(** A sequence of invocations; an exception thrown by one of them goes to
    the stream, and the engine object stays as the handler left it. *)
Definition run (calls : list invocation) (w : Engine) : Engine :=
  fold_left (fun w i => exec (invoke i) w) calls w.

Definition marked (w : Engine) : option N :=
  match stream w with
  | Some st => marker st
  | None => None
  end.

(** Modelled from the spec: the transport, which is not part of the example.
    It yields the messages of its source in order and, on a reconnection,
    calls the reconnect hook and then redelivers from the last marked
    position, inclusively: from the first message at or after the marked
    block, or from the start of the subscription when nothing was marked. *)
Fixpoint redeliver_from (b : N) (src : list ActionTraceData) : list ActionTraceData :=
  match src with
  | [] => []
  | d :: rest => if (block_num d <? b)%N then redeliver_from b rest else src
  end.

Definition resume (mk : option N) (src : list ActionTraceData) : list ActionTraceData :=
  match mk with
  | Some b => redeliver_from b src
  | None => src
  end.

Record System : Type := mkSystem {
  engine : Engine;
  source : list ActionTraceData;
  remaining : list ActionTraceData
}.

Inductive step : Type :=
| Deliver
| Reconnect.

Definition deliver (sys : System) : System :=
  match remaining sys with
  | [] => sys
  | d :: rest =>
      mkSystem (exec (dispatcher (action_trace d)) (engine sys)) (source sys) rest
  end.

Definition reconnect (sys : System) : System :=
  let w := exec onPostRestart (engine sys) in
  mkSystem w (source sys) (resume (marked w) (source sys)).

Definition system_step (sys : System) (s : step) : System :=
  match s with
  | Deliver => deliver sys
  | Reconnect => reconnect sys
  end.

(** The source delivered to its end. *)
Definition drain (sys : System) : Engine :=
  fold_left (fun w d => exec (dispatcher (action_trace d)) w) (remaining sys) (engine sys).

(** A started engine consuming [src] under a schedule of deliveries and
    reconnections, then to the end of the source. *)
Definition consume (schedule : list step) (src : list ActionTraceData) : Engine :=
  drain (fold_left system_step schedule
           (mkSystem (exec (start (mkStream None)) new_Engine) src src)).

(** The source is ordered by block number. *)
Definition ordered (src : list ActionTraceData) : Prop :=
  StronglySorted (fun d d' => (block_num d <= block_num d')%N) src.

(** Membership in the Pending Buffer traced to the messages it came from. *)
Definition pending_from (calls : list invocation) (w : Engine) : Prop :=
  exists ds,
    pendingActions w = map act ds /\
    Forall (fun d => In (Message (action_trace d)) calls /\
                     (block_num d <= lastCommittedBlockNum w)%N) ds.

(** The events [commit] leaves when the stream is set and takes the mark. *)
Definition commit_events (blockId : string) (blockNum : N) (pending : list Action) : list ev :=
  [Log (Committing_up_to blockId blockNum)] ++
  map Push_committed pending ++
  [Log (Text "Bumping last committed block and clearing pending actions");
   Reset_pending;
   Set_lastCommitted blockNum;
   Log (Marking_up_to blockId blockNum);
   Mark blockNum;
   Log (Text "")].

(** The events [commit] leaves when it marks nothing: [ensureStream] throws
    with the stream not set, or [mark] refuses the block number, after the
    buffer is drained and the block number bumped. *)
Definition commit_events_unset (blockId : string) (blockNum : N) (pending : list Action) : list ev :=
  [Log (Committing_up_to blockId blockNum)] ++
  map Push_committed pending ++
  [Log (Text "Bumping last committed block and clearing pending actions");
   Reset_pending;
   Set_lastCommitted blockNum;
   Log (Marking_up_to blockId blockNum)].

Definition stream_not_set : exn :=
  Error "Stream should be set at this runtime execution point".

Definition ahead_lines : list ev :=
  [Log Blank;
   Log (Text "Comitting changes due to seeing a message from a block ahead of our last committed block")].

Definition progress_lines : list ev :=
  [Log Blank;
   Log (Text "Committing changes due to seeing a message from a progress message")].

Definition pending_events (d : ActionTraceData) : list ev :=
  [Log (Pending_transfer (act d) (block_id d) (block_num d)); Push_pending (act d)].

Definition restart_events : list ev :=
  [Log Blank;
   Log (Text "<============= Stream has reconnected to the socket correctly (at latest `mark()`) =============>");
   Log Blank;
   Log (Text "Flushing pending action(s) due to refresh");
   Flush_pending].

(** The history of an engine agrees with its Pending Buffer, and each of its
    checkpoints found the buffer drained. *)
Definition coherent (w : Engine) : Prop :=
  checkpoints_drained view0 (history w) /\
  balanced (replay view0 (history w)) /\
  v_pending (replay view0 (history w)) = pendingActions w.

(** What holds of a started engine fed by the transport: the marker is the
    last committed block number once something is marked; every payload of
    a block before it is in the sink; every message of the source is still
    to be delivered or has its payload in the sink or in the Pending Buffer,
    and is still to be delivered or at or before the last committed block
    number; the sink holds payloads of blocks of the source before the last
    committed block number only, the Pending Buffer payloads of blocks at or
    before it; and the last committed block number is 0 or a block of the
    source. *)
Definition no_gap (sys : System) : Prop :=
  exists mk ps n cs h,
    engine sys = mkEngine (Some (mkStream mk)) ps n cs h /\
    (mk = Some n \/ (mk = None /\ n = 0%N)) /\
    ordered (source sys) /\
    ordered (remaining sys) /\
    (forall d, In d (remaining sys) -> In d (source sys)) /\
    (forall d, In d (source sys) -> (block_num d < n)%N -> In (act d) cs) /\
    (forall d, In d (source sys) ->
       In d (remaining sys) \/ In (act d) cs \/ In (act d) ps) /\
    (forall d, In d (source sys) ->
       In d (remaining sys) \/ (block_num d <= n)%N) /\
    (forall a, In a cs ->
       exists d, In d (source sys) /\ act d = a /\ (block_num d < n)%N) /\
    (forall a, In a ps ->
       exists d, In d (source sys) /\ act d = a /\ (block_num d <= n)%N) /\
    (n = 0%N \/ exists d, In d (source sys) /\ block_num d = n).

(** [stop], the stream closing without an error: the committed actions are
    printed, one line each. *)
Definition commit_transfer_line (action : Action) : string :=
  ("- Commit transfer [" ++ from (data action) ++ " -> " ++ to (data action) ++ " " ++
   quantity (data action) ++ "]")%string.

Definition stop : M Engine unit :=
  _ <- ensureStream ;;
  console_log (Text "Committed actions") ;;
  committed <- gets committedActions ;;
  forEach committed (fun action => console_log (Text (commit_transfer_line action))).

(** The actions of the action traces among some messages, in order. *)
Definition arrivals (ms : list InboundMessage) : list Action :=
  flat_map (fun m => match m with action_trace d => [act d] | _ => [] end) ms.

(** The messages of a source that come before the first one at or after
    block [b]: what a redelivery from [b] leaves out. *)
Fixpoint earlier (b : N) (src : list ActionTraceData) : list ActionTraceData :=
  match src with
  | [] => []
  | d :: rest => if (block_num d <? b)%N then d :: earlier b rest else []
  end.

(** What holds of a started engine fed by the transport, as lists: the sink
    is the payloads of the messages a redelivery from the last committed
    block number leaves out, and the Pending Buffer the payloads of the
    messages redelivered so far, none of them after that block. *)
Definition in_order (sys : System) : Prop :=
  exists mk ps n cs h delivered,
    engine sys = mkEngine (Some (mkStream mk)) ps n cs h /\
    (mk = Some n \/ (mk = None /\ n = 0%N)) /\
    redeliver_from n (source sys) = delivered ++ remaining sys /\
    cs = map act (earlier n (source sys)) /\
    ps = map act delivered /\
    (forall d, In d delivered -> (block_num d <= n)%N).

(** The handlers a statement about positions ranges over: a data event, a
    progress event and a call of [commit], each made at a block number. *)
Inductive handler : Type :=
| OnData (d : ActionTraceData)
| OnProgress (d : ProgressData)
| CommitAt (blockId : string) (blockNum : N).

Definition handle (h : handler) : invocation :=
  match h with
  | OnData d => Message (action_trace d)
  | OnProgress d => Message (progress d)
  | CommitAt blockId blockNum => Commit blockId blockNum
  end.

Definition position (h : handler) : N :=
  match h with
  | OnData d => block_num d
  | OnProgress d => progress_block_num d
  | CommitAt _ blockNum => blockNum
  end.

(** The data events among some handlers, in order. *)
Definition received (hs : list handler) : list ActionTraceData :=
  flat_map (fun h => match h with OnData d => [d] | _ => [] end) hs.

(** The handlers are made at block numbers that never decrease, as a chain
    delivers them. *)
Definition positions_ordered (hs : list handler) : Prop :=
  StronglySorted (fun h h' => (position h <= position h')%N) hs.

(** What holds of an engine started with an unmarked stream after the
    handlers [seen], made at block numbers that never decrease: the data
    events received are those sunk followed by those held in the Pending
    Buffer; the stream is marked at [lastCommittedBlockNum], or not at all
    while that is 0; no sunk payload is of a later block, and the payloads
    held are of that block. *)
Definition placed (seen : list handler) (w : Engine) : Prop :=
  exists mk ps n cs h sunk held,
    w = mkEngine (Some (mkStream mk)) ps n cs h /\
    ((mk = Some n /\ n <> 0%N) \/ (mk = None /\ n = 0%N)) /\
    received seen = sunk ++ held /\
    cs = map act sunk /\
    ps = map act held /\
    Forall (fun d => (block_num d <= n)%N) sunk /\
    Forall (fun d => block_num d = n) held.

End BlockHeight.

(** ** The cursor engine ([common/graphql-never-miss-a-beat.js]) *)

Module Graphql.

Definition LAST_CURSOR_FILENAME : string := "last_cursor.txt".

(** [action.json] of a matching action, with the fields the example reads. *)
Record Transfer : Type := mkTransfer {
  from : string;
  to : string;
  quantity : string
}.

Record MatchingAction : Type := mkMatchingAction {
  json : Transfer
}.

Record Block : Type := mkBlock {
  id : string;
  num : N
}.

Record Trace : Type := mkTrace {
  matchingActions : list MatchingAction
}.

(** [message.data.searchTransactionsForward]; a live marker has no [trace]. *)
Record SearchTransactionsForward : Type := mkResult {
  undo : bool;
  cursor : string;
  block : Block;
  trace : option Trace
}.

Inductive StreamMessage : Type :=
| data (d : SearchTransactionsForward)
| error (errors : list string) (terminal : bool)
| complete
| other (type : string).

(** The part of a [Stream] the engine acts on: the marker that
    [stream.mark({ cursor })] sets. *)
Record Stream : Type := mkStream {
  marker : option string
}.

Inductive line : Type :=
| Blank
| Text (s : string)
| Read_last_persisted_cursor (c : string)
| Live_marker_received (blockId : string) (blockNum : N)
| Pending_transfer (a : Transfer) (blockId : string) (blockNum : N)
| Committing_up_to_cursor (c : string)
| Received_error (errors : list string).

Definition ev : Type := event string Transfer line.

(** The engine object, the content of the cursor file ([None]: no file) and
    the history. *)
Record Engine : Type := mkEngine {
  stream : option Stream;
  pendingActions : list Transfer;
  committedActions : list Transfer;
  last_cursor_file : option string;
  history : list ev
}.

Definition record (e : ev) : M Engine unit :=
  modify (fun w => mkEngine (stream w) (pendingActions w) (committedActions w)
                            (last_cursor_file w) (history w ++ [e])).

Definition console_log (l : line) : M Engine unit := record (Log l).

Definition set_stream (s : Stream) : M Engine unit :=
  modify (fun w => mkEngine (Some s) (pendingActions w) (committedActions w)
                            (last_cursor_file w) (history w)).

Definition push_pending (a : Transfer) : M Engine unit :=
  modify (fun w => mkEngine (stream w) (pendingActions w ++ [a]) (committedActions w)
                            (last_cursor_file w) (history w)) ;;
  record (Push_pending a).

Definition push_committed (a : Transfer) : M Engine unit :=
  modify (fun w => mkEngine (stream w) (pendingActions w) (committedActions w ++ [a])
                            (last_cursor_file w) (history w)) ;;
  record (Push_committed a).

Definition clear_pending (e : ev) : M Engine unit :=
  modify (fun w => mkEngine (stream w) [] (committedActions w)
                            (last_cursor_file w) (history w)) ;;
  record e.

(** [writeFileSync(path.resolve(__dirname, LAST_CURSOR_FILENAME), cursor)],
    taken to succeed. *)
Definition writeFileSync (content : string) : M Engine unit :=
  modify (fun w => mkEngine (stream w) (pendingActions w) (committedActions w)
                            (Some content) (history w)) ;;
  record (Persist content).

(** [new Engine(client)] beside a cursor file of content [file]. *)
Definition new_Engine (file : option string) : Engine := mkEngine None [] [] file [].

Definition ensureStream : M Engine Stream :=
  s <- gets stream ;;
  match s with
  | Some st => ret st
  | None => throw (Error "Stream should be set at this runtime execution point")
  end.

(** The error with which the [mark] of the client library refuses a marker;
    the library is not part of the example, and the exception stands for its
    error whatever its text. *)
Definition mark_refused : exn := Error "DfuseClientError".

(** [stream.mark({ cursor })], of the client library: it sets the marker, and
    it refuses the empty cursor, throwing and leaving the marker as it was. *)
Definition mark (c : string) : M Engine unit :=
  if String.eqb c ""
  then throw mark_refused
  else
    set_stream (mkStream (Some c)) ;;
    record (Mark c).

Definition commit (c : string) : M Engine unit :=
  pending <- gets pendingActions ;;
  (if (0 <? List.length pending)%nat
   then
     console_log (Committing_up_to_cursor c) ;;
     forEach pending push_committed ;;
     clear_pending Reset_pending
   else ret tt) ;;
  _ <- ensureStream ;;
  mark c ;;
  writeFileSync c.

Definition onProgress (blockId : string) (blockNum : N) (c : string) : M Engine unit :=
  console_log (Live_marker_received blockId blockNum) ;;
  commit c.

Definition onResult (d : SearchTransactionsForward) : M Engine unit :=
  match trace d with
  | None => onProgress (id (block d)) (num (block d)) (cursor d)
  | Some t =>
      forEach (matchingActions t) (fun action =>
        console_log (Pending_transfer (json action) (id (block d)) (num (block d))) ;;
        push_pending (json action)) ;;
      console_log (Text "Comitting changes after transaction") ;;
      commit (cursor d)
  end.

(** The identifiers an expression in the body of [onError] can refer to:
    its parameters, the bindings of the module, and the globals of the
    runtime, [fetch] and [WebSocket] being set at the top of the file. *)
Definition onError_parameters : list string := ["errors"; "terminal"].

Definition module_bindings : list string :=
  ["runMain"; "createDfuseClient"; "writeFileSync"; "readFileSync"; "existsSync";
   "path"; "LAST_CURSOR_FILENAME"; "main"; "Engine"; "printBlock"].

Definition runtime_globals : list string :=
  ["global"; "globalThis"; "process"; "console"; "require"; "module"; "exports";
   "__dirname"; "__filename"; "fetch"; "WebSocket"; "Buffer"; "URL";
   "URLSearchParams"; "TextEncoder"; "TextDecoder"; "setTimeout"; "clearTimeout";
   "setInterval"; "clearInterval"; "setImmediate"; "clearImmediate";
   "queueMicrotask"; "undefined"; "NaN"; "Infinity"; "Object"; "Function";
   "Array"; "Number"; "Boolean"; "String"; "Symbol"; "BigInt"; "Date"; "Promise";
   "RegExp"; "Error"; "EvalError"; "RangeError"; "ReferenceError"; "SyntaxError";
   "TypeError"; "URIError"; "JSON"; "Math"; "Reflect"; "Proxy"; "Map"; "Set";
   "WeakMap"; "WeakSet"; "ArrayBuffer"; "SharedArrayBuffer"; "DataView"; "Atomics";
   "Int8Array"; "Uint8Array"; "Uint8ClampedArray"; "Int16Array"; "Uint16Array";
   "Int32Array"; "Uint32Array"; "Float32Array"; "Float64Array"; "BigInt64Array";
   "BigUint64Array"; "WebAssembly"; "Intl"; "eval"; "isFinite"; "isNaN";
   "parseFloat"; "parseInt"; "decodeURI"; "decodeURIComponent"; "encodeURI";
   "encodeURIComponent"; "escape"; "unescape"].

Definition onError_scope : list string :=
  onError_parameters ++ module_bindings ++ runtime_globals.

(** Evaluating an identifier: a name that no scope binds throws. *)
Definition resolve (x : string) : M Engine unit :=
  if existsb (String.eqb x) onError_scope
  then ret tt
  else throw (ReferenceError x).

(** [console.log("Received an 'error' message", JSON.stringify(errors, nil, "  "))]:
    the callee and the arguments are evaluated, left to right, before the
    call prints. *)
Definition onError (errors : list string) (terminal : bool) : M Engine unit :=
  resolve "console" ;;
  resolve "JSON" ;;
  resolve "errors" ;;
  resolve "nil" ;;
  console_log (Received_error errors) ;;
  resolve "terminal" ;;
  if terminal
  then
    resolve "console" ;;
    console_log (Text "Received a terminal 'error' message, the stream will automatically reconnects in 250ms")
  else ret tt.

Definition onComplete : M Engine unit :=
  console_log (Text "Received a 'complete' message, no more results for this stream").

(** The callback given to [client.graphql]. *)
Definition on_message (m : StreamMessage) : M Engine unit :=
  match m with
  | data d => onResult d
  | error errors terminal => onError errors terminal
  | complete => onComplete
  | other _ => ret tt
  end.

(** [stream.onPostRestart], as [run] installs it. *)
Definition onPostRestart : M Engine unit :=
  console_log Blank ;;
  console_log (Text "<============= Stream has reconnected to the socket correctly (at latest `mark()`) =============>") ;;
  console_log Blank ;;
  console_log (Text "Flushing pending action(s) due to refresh") ;;
  clear_pending Flush_pending.

(** [run] up to [stream.join()], given the stream that [client.graphql]
    resolves to. *)
Definition run_start (st : Stream) : M Engine unit :=
  console_log (Text "Engine starting") ;;
  file <- gets last_cursor_file ;;
  match file with
  | Some lastPersistedCursor => console_log (Read_last_persisted_cursor lastPersistedCursor)
  | None => ret tt
  end ;;
  set_stream st ;;
  console_log (Text "Stream connected, ready to receive messages").

(** What can be invoked on an engine: a handler, by a message of the stream;
    the reconnect hook; and the method [commit]. *)
Inductive invocation : Type :=
| Message (m : StreamMessage)
| PostRestart
| Commit (c : string).

Definition invoke (i : invocation) : M Engine unit :=
  match i with
  | Message m => on_message m
  | PostRestart => onPostRestart
  | Commit c => commit c
  end.

(** A sequence of invocations; an exception thrown by one of them goes to
    the stream, and the engine object stays as the handler left it. *)
Definition run (calls : list invocation) (w : Engine) : Engine :=
  fold_left (fun w i => exec (invoke i) w) calls w.

Definition marked (w : Engine) : option string :=
  match stream w with
  | Some st => marker st
  | None => None
  end.

Definition payloads (d : SearchTransactionsForward) : list Transfer :=
  match trace d with
  | Some t => map json (matchingActions t)
  | None => []
  end.

(** Modelled from the spec: the transport, which is not part of the example.
    It yields the messages of its source in order and, on a reconnection,
    calls the reconnect hook and then redelivers from the last marked
    position, inclusively: from the first message that carries the marked
    cursor, or from the start of the subscription when nothing was marked. *)
Fixpoint redeliver_from (c : string) (src : list SearchTransactionsForward)
  : list SearchTransactionsForward :=
  match src with
  | [] => []
  | d :: rest => if String.eqb (cursor d) c then src else redeliver_from c rest
  end.

Definition resume (mk : option string) (src : list SearchTransactionsForward)
  : list SearchTransactionsForward :=
  match mk with
  | Some c => redeliver_from c src
  | None => src
  end.

Record System : Type := mkSystem {
  engine : Engine;
  source : list SearchTransactionsForward;
  remaining : list SearchTransactionsForward
}.

Inductive step : Type :=
| Deliver
| Reconnect.

Definition deliver (sys : System) : System :=
  match remaining sys with
  | [] => sys
  | d :: rest =>
      mkSystem (exec (on_message (data d)) (engine sys)) (source sys) rest
  end.

Definition reconnect (sys : System) : System :=
  let w := exec onPostRestart (engine sys) in
  mkSystem w (source sys) (resume (marked w) (source sys)).

Definition system_step (sys : System) (s : step) : System :=
  match s with
  | Deliver => deliver sys
  | Reconnect => reconnect sys
  end.

(** The source delivered to its end. *)
Definition drain (sys : System) : Engine :=
  fold_left (fun w d => exec (on_message (data d)) w) (remaining sys) (engine sys).

(** A started engine, beside no cursor file, consuming [src] under a
    schedule of deliveries and reconnections, then to the end of the
    source. *)
Definition consume (schedule : list step) (src : list SearchTransactionsForward) : Engine :=
  drain (fold_left system_step schedule
           (mkSystem (exec (run_start (mkStream None)) (new_Engine None)) src src)).

(** The events [commit] leaves when the stream is set and takes the mark. *)
Definition commit_events (c : string) (pending : list Transfer) : list ev :=
  (match pending with
   | [] => []
   | _ => [Log (Committing_up_to_cursor c)] ++ map Push_committed pending ++ [Reset_pending]
   end) ++ [Mark c; Persist c].

(** The events [commit] leaves when it marks nothing: [ensureStream] throws
    with the stream not set, or [mark] refuses the cursor, after the buffer
    is drained. *)
Definition commit_events_unset (c : string) (pending : list Transfer) : list ev :=
  match pending with
  | [] => []
  | _ => [Log (Committing_up_to_cursor c)] ++ map Push_committed pending ++ [Reset_pending]
  end.

Definition stream_not_set : exn :=
  Error "Stream should be set at this runtime execution point".

(** The events of the [forEach] of [onResult]. *)
Definition pending_events (d : SearchTransactionsForward) (actions : list MatchingAction) : list ev :=
  flat_map (fun action =>
              [Log (Pending_transfer (json action) (id (block d)) (num (block d)));
               Push_pending (json action)]) actions.

Definition restart_events : list ev :=
  [Log Blank;
   Log (Text "<============= Stream has reconnected to the socket correctly (at latest `mark()`) =============>");
   Log Blank;
   Log (Text "Flushing pending action(s) due to refresh");
   Flush_pending].

(** The history of an engine agrees with its Pending Buffer, and each of its
    checkpoints found the buffer drained. *)
Definition coherent (w : Engine) : Prop :=
  checkpoints_drained view0 (history w) /\
  balanced (replay view0 (history w)) /\
  v_pending (replay view0 (history w)) = pendingActions w.

(** The messages of a source that come before the first one carrying the
    cursor [c]: what a redelivery from [c] leaves out. *)
Fixpoint before (c : string) (src : list SearchTransactionsForward)
  : list SearchTransactionsForward :=
  match src with
  | [] => []
  | d :: rest => if String.eqb (cursor d) c then [] else d :: before c rest
  end.

(** What holds of a started engine fed by the transport, between two
    invocations: the Pending Buffer is empty; the payloads of the messages
    delivered since the last resumption, and of the messages that a
    redelivery from the marker would leave out, are in the sink; and the
    sink holds payloads of the source only. *)
Definition no_gap (sys : System) : Prop :=
  exists mk cs f h,
    engine sys = mkEngine (Some (mkStream mk)) [] cs f h /\
    (exists pre,
       source sys = pre ++ remaining sys /\
       forall d, In d pre -> forall a, In a (payloads d) -> In a cs) /\
    (forall c, mk = Some c ->
       forall d, In d (before c (source sys)) -> forall a, In a (payloads d) -> In a cs) /\
    (forall a, In a cs -> exists d, In d (source sys) /\ In a (payloads d)).

(** [lastPersistedCursor] of [run]: the content of the cursor file, or the
    empty string when there is no file. *)
Definition lastPersistedCursor (w : Engine) : string :=
  match last_cursor_file w with
  | Some c => c
  | None => ""
  end.

(** The payloads of the data messages among some invocations, in order. *)
Definition arrivals (calls : list invocation) : list Transfer :=
  flat_map (fun i => match i with Message (data d) => payloads d | _ => [] end) calls.

(** The cursor an invocation is made at: that of a data message, live
    markers among them, and that of a call of [commit]. *)
Definition cursor_of (i : invocation) : option string :=
  match i with
  | Message (data d) => Some (cursor d)
  | Commit c => Some c
  | _ => None
  end.

(** The cursor a stream marked at [mk] is marked at after an invocation that
    commits: the cursor of the invocation, unless it is the empty string. *)
Definition next_cursor (mk : option string) (i : invocation) : option string :=
  match cursor_of i with
  | Some c => if String.eqb c "" then mk else Some c
  | None => mk
  end.

(** The last cursor, other than the empty string, among those that some
    invocations were made at. *)
Definition last_cursor (calls : list invocation) : option string :=
  fold_left next_cursor calls None.

End Graphql.

(** ** Printing a block ([printBlock], the same function in both files) *)

(** An index of [String.prototype.slice]: a negative index counts from the
    end, and the result is clamped to the string. *)
Definition slice_index (len : nat) (i : Z) : nat :=
  if (i <? 0)%Z
  then Z.to_nat (Z.max (Z.of_nat len + i) 0)
  else Nat.min (Z.to_nat i) len.

(** [s.slice(start, stop)]; [None] for an omitted [stop]. *)
Definition slice (s : string) (start : Z) (stop : option Z) : string :=
  let len := String.length s in
  let first := slice_index len start in
  let last := match stop with
              | Some e => slice_index len e
              | None => len
              end in
  substring first (last - first) s.

(** [Number.MAX_SAFE_INTEGER] *)
Definition MAX_SAFE_INTEGER : N := 2 ^ 53 - 1.

(** A block number in a template literal.  A safe integer, one that is at
    most [MAX_SAFE_INTEGER], prints as its decimal digits; larger numbers,
    which JavaScript holds rounded and prints in exponent form from 1e21 on,
    are outside what is stated about [show_number]. *)
Definition show_number (n : N) : string := NilZero.string_of_uint (N.to_uint n).

Definition printBlock (blockId : string) (blockNum : N) : string :=
  (slice blockId 0 (Some 8%Z) ++ "..." ++ slice blockId (-8) None ++
   " (" ++ show_number blockNum ++ ")")%string.

(** ** The latest transactions ([basic/graphql-search-your-latest-transactions.ts]) *)

(** [try { c } catch (error) { handler }] *)
Definition try_catch {W A} (c : M W A) (handler : exn -> M W A) : M W A :=
  fun w =>
    match c w with
    | (w', Thrown e) => handler e w'
    | r => r
    end.

Module SearchLatest.

(** [DFUSE_API_NETWORK] comes from the configuration and is a parameter. *)
Definition buildEosqLink (DFUSE_API_NETWORK transactionId : string) : string :=
  let suffix :=
    if existsb (String.eqb DFUSE_API_NETWORK) ["jungle"; "kylin"; "worbli"]
    then ("." ++ DFUSE_API_NETWORK)%string
    else "" in
  ("https://" ++ suffix ++ "eosq.app/tx/" ++ transactionId)%string.

(** A result, with what [main] reads of it: [result.trace.id] and
    [result.block.num]. *)
Record Result : Type := mkResult {
  trace_id : string;
  block_num : N
}.

Record Backward : Type := mkBackward {
  results : option (list Result)
}.

Record Data : Type := mkData {
  searchTransactionsBackward : option Backward
}.

Record Response : Type := mkResponse {
  data : option Data
}.

(** How [await client.graphql(...)] ends. *)
Inductive Reply : Type :=
| Resolves (response : Response)
| Rejects (error : string).

(** What [main] does outside itself, in order. *)
Inductive output : Type :=
| Print (text : string)
| Print_error (text : string) (error : exn)
| Release.

Definition print (text : string) : M (list output) unit :=
  modify (fun out => out ++ [Print text]).

Definition cannot_read (property : string) : exn :=
  Error ("TypeError: Cannot read properties of undefined (reading '" ++ property ++ "')")%string.

(** [response.data.searchTransactionsBackward.results || []] *)
Definition read_results (response : Response) : M (list output) (list Result) :=
  match data response with
  | None => throw (cannot_read "searchTransactionsBackward")
  | Some d =>
      match searchTransactionsBackward d with
      | None => throw (cannot_read "results")
      | Some b =>
          ret (match results b with
               | Some found => found
               | None => []
               end)
      end
  end.

Definition result_line (network : string) (result : Result) : string :=
  ("- " ++ buildEosqLink network (trace_id result) ++ " (Block #" ++
   show_number (block_num result) ++ ")")%string.

(** The [try] block; its value tells whether it ended in [return]. *)
Definition try_block (network : string) (reply : Reply) : M (list output) bool :=
  response <- match reply with
              | Resolves r => ret r
              | Rejects e => throw (Error e)
              end ;;
  print "" ;;
  print "Your latest 10 transactions" ;;
  found <- read_results response ;;
  if (List.length found <=? 0)%nat
  then
    print "Oups nothing found" ;;
    ret true
  else
    forEach found (fun result => print (result_line network result)) ;;
    print "" ;;
    ret false.

(** How a call into the client library ends that [main] makes outside its
    [try] block: [createDfuseClient(...)], which checks its options, and
    [client.release()]. *)
Inductive Ending : Type :=
| Returns
| Throws (error : exn).

Definition ending (e : Ending) : M (list output) unit :=
  match e with
  | Returns => ret tt
  | Throws error => throw error
  end.

(** [main], given how [createDfuseClient], the request and [client.release]
    end. *)
Definition main (network : string) (created : Ending) (reply : Reply) (released : Ending)
  : M (list output) unit :=
  ending created ;;
  returned <- try_catch (try_block network reply)
                (fun error =>
                   modify (fun out => out ++ [Print_error "An error occurred" error]) ;;
                   ret false) ;;
  if returned : bool
  then ret tt
  else
    modify (fun out => out ++ [Release]) ;;
    ending released.

(** The results [main] gets to, when it gets to them. *)
Definition found_by (reply : Reply) : option (list Result) :=
  match reply with
  | Resolves (mkResponse (Some (mkData (Some (mkBackward (Some found)))))) => Some found
  | Resolves (mkResponse (Some (mkData (Some (mkBackward None))))) => Some []
  | _ => None
  end.

End SearchLatest.

(** * Properties *)

(** ** The monad and the history *)

Lemma fold_left_exec_app {W I : Type} (f : I -> M W unit) (l1 l2 : list I) (w : W) :
  fold_left (fun w i => exec (f i) w) (l1 ++ l2) w =
  fold_left (fun w i => exec (f i) w) l2 (fold_left (fun w i => exec (f i) w) l1 w).
Proof. apply fold_left_app. Qed.

Section HistoryFacts.
Context {Pos Payload Line : Type}.
Implicit Types (h : list (event Pos Payload Line)) (v : @view Payload).

Lemma replay_app v h1 h2 : replay v (h1 ++ h2) = replay (replay v h1) h2.
Proof. apply fold_left_app. Qed.

Lemma effects_app h1 h2 : effects (h1 ++ h2) = effects h1 ++ effects h2.
Proof. apply filter_app. Qed.

Lemma sunk_of_app h1 h2 : sunk_of (h1 ++ h2) = sunk_of h1 ++ sunk_of h2.
Proof. apply flat_map_app. Qed.

Lemma replay_pushes_committed v (ps : list Payload) :
  replay v (map (@Push_committed Pos Payload Line) ps) =
  mkView (v_pending v) (v_received v) (v_sunk v ++ ps).
Proof.
  unfold replay. revert v. induction ps as [|a ps IH]; intros v; simpl.
  - rewrite app_nil_r. now destruct v.
  - rewrite IH. simpl. now rewrite <- app_assoc.
Qed.

Lemma effects_pushes_committed (ps : list Payload) :
  effects (map (@Push_committed Pos Payload Line) ps) = map Push_committed ps.
Proof. induction ps as [|a ps IH]; simpl; [reflexivity | now rewrite <- IH at 2]. Qed.

Lemma sunk_of_pushes_committed (ps : list Payload) :
  sunk_of (map (@Push_committed Pos Payload Line) ps) = ps.
Proof. induction ps as [|a ps IH]; simpl; [reflexivity | now rewrite IH]. Qed.

Lemma checkpoints_drained_app v h1 h2 :
  checkpoints_drained v (h1 ++ h2) <->
  checkpoints_drained v h1 /\ checkpoints_drained (replay v h1) h2.
Proof.
  revert v. induction h1 as [|e h1 IH]; intros v; cbn [app checkpoints_drained].
  - cbn. tauto.
  - rewrite IH. cbn [replay fold_left]. unfold replay. tauto.
Qed.

Lemma checkpoints_drained_at v h pre e post :
  checkpoints_drained v h ->
  h = pre ++ e :: post ->
  is_checkpoint e = true ->
  drained (replay v pre).
Proof.
  intros Hall -> Hcp. apply checkpoints_drained_app in Hall.
  destruct Hall as [_ [Hhere _]]. now rewrite Hcp in Hhere.
Qed.

Lemma checkpoints_drained_pushes_committed v (ps : list Payload) :
  checkpoints_drained v (map (@Push_committed Pos Payload Line) ps).
Proof.
  revert v. induction ps as [|a ps IH]; intros v; cbn; [exact I|].
  split; [exact I | apply IH].
Qed.

Lemma transforms_nil (ps : list Payload) :
  transforms (@nil (event Pos Payload Line)) ps ps.
Proof. intros v Hb Hp. cbn. auto. Qed.

Lemma transforms_app (d1 d2 : list (event Pos Payload Line)) (ps ps' ps'' : list Payload) :
  transforms d1 ps ps' -> transforms d2 ps' ps'' -> transforms (d1 ++ d2) ps ps''.
Proof.
  intros H1 H2 v Hb Hp.
  destruct (H1 v Hb Hp) as [Hc1 [Hb1 Hp1]].
  destruct (H2 _ Hb1 Hp1) as [Hc2 [Hb2 Hp2]].
  rewrite replay_app. split; [|auto].
  apply checkpoints_drained_app. auto.
Qed.

Lemma transforms_log (l : Line) (ps : list Payload) :
  transforms [@Log Pos Payload Line l] ps ps.
Proof. intros v Hb Hp. cbn. auto. Qed.

Lemma transforms_set_lastCommitted (p : Pos) (ps : list Payload) :
  transforms [@Set_lastCommitted Pos Payload Line p] ps ps.
Proof. intros v Hb Hp. cbn. auto. Qed.

Lemma transforms_push_pending (a : Payload) (ps : list Payload) :
  transforms [@Push_pending Pos Payload Line a] ps (ps ++ [a]).
Proof.
  intros v Hb Hp. cbn. unfold balanced in *. cbn.
  rewrite Hb, Hp. rewrite app_assoc. auto.
Qed.

Lemma transforms_flush (ps : list Payload) :
  transforms [@Flush_pending Pos Payload Line] ps [].
Proof. intros v Hb Hp. cbn. unfold balanced. cbn. auto. Qed.

(** Draining the buffer into the sink and clearing it. *)
Lemma transforms_drain (ps : list Payload) :
  transforms (map (@Push_committed Pos Payload Line) ps ++ [Reset_pending]) ps [].
Proof.
  intros v Hb Hp. rewrite replay_app, replay_pushes_committed.
  split; [|split].
  - apply checkpoints_drained_app. split.
    + apply checkpoints_drained_pushes_committed.
    + cbn. auto.
  - unfold balanced in *. cbn. rewrite app_nil_r. now rewrite Hb, Hp.
  - reflexivity.
Qed.

(** A checkpoint is in order once the buffer is empty. *)
Lemma transforms_checkpoint (e : event Pos Payload Line) :
  is_checkpoint e = true -> transforms [e] [] [].
Proof.
  intros He v Hb Hp. cbn [checkpoints_drained]. rewrite He.
  assert (Hv : observe v e = v) by (destruct e; try discriminate He; reflexivity).
  cbn [replay fold_left]. rewrite Hv.
  split; [|auto]. split; [|exact I].
  unfold drained, balanced in *. rewrite Hb, Hp, app_nil_r. auto.
Qed.

Lemma replay_logs v (mid : list (event Pos Payload Line)) :
  Forall (fun e => is_log e = true) mid ->
  replay v mid = v /\ checkpoints_drained v mid.
Proof.
  intros Hmid. revert v. induction Hmid as [|e mid He _ IH]; intros v.
  - cbn. auto.
  - destruct e; try discriminate He.
    cbn [replay fold_left observe checkpoints_drained is_checkpoint].
    destruct (IH v) as [Hr Hc]. unfold replay in Hr. auto.
Qed.

(** Draining with console lines between the last push and the clearing. *)
Lemma transforms_drain_via (mid : list (event Pos Payload Line)) (ps : list Payload) :
  Forall (fun e => is_log e = true) mid ->
  transforms (map (@Push_committed Pos Payload Line) ps ++ mid ++ [Reset_pending]) ps [].
Proof.
  intros Hmid v Hb Hp.
  rewrite !replay_app, replay_pushes_committed.
  destruct (replay_logs (mkView (v_pending v) (v_received v) (v_sunk v ++ ps)) mid Hmid)
    as [Hr Hc].
  rewrite Hr. split; [|split].
  - apply checkpoints_drained_app. split.
    + apply checkpoints_drained_pushes_committed.
    + rewrite replay_pushes_committed.
      apply checkpoints_drained_app. split; [exact Hc|]. cbn. auto.
  - unfold balanced in *. cbn. rewrite app_nil_r. now rewrite Hb, Hp.
  - reflexivity.
Qed.

End HistoryFacts.

(** ** Equations of the block-height engine *)

Module BlockHeightFacts.
Import BlockHeight.

Ltac engine_steps :=
  cbv beta iota zeta delta
    [commit onProgress onAction flushPending onPostRestart onListening dispatcher
     start invoke mark ensureStream console_log record set_stream push_pending
     push_committed clear_pending set_lastCommittedBlockNum marked
     bind ret throw gets modify exec fst
     stream pendingActions lastCommittedBlockNum committedActions history marker].

Ltac handler_steps :=
  cbv beta iota zeta delta
    [onProgress onAction flushPending onPostRestart onListening dispatcher
     start invoke console_log record set_stream push_pending clear_pending marked
     bind ret throw gets modify exec fst
     stream pendingActions lastCommittedBlockNum committedActions history marker].

Ltac tidy_lists := rewrite <- ?app_assoc; cbn [app map]; rewrite ?app_nil_r.

Lemma bh_forEach_push_committed (ps : list Action) st qs n cs h :
  forEach ps push_committed (mkEngine st qs n cs h) =
  (mkEngine st qs n (cs ++ ps) (h ++ map Push_committed ps), Returned tt).
Proof.
  revert cs h. induction ps as [|a ps IH]; intros cs h; cbn [forEach].
  - engine_steps. now tidy_lists.
  - engine_steps. rewrite IH. now tidy_lists.
Qed.

Lemma bh_commit_set blockId blockNum st ps n cs h :
  blockNum <> 0%N ->
  commit blockId blockNum (mkEngine (Some st) ps n cs h) =
  (mkEngine (Some (mkStream (Some blockNum))) [] blockNum (cs ++ ps)
            (h ++ commit_events blockId blockNum ps),
   Returned tt).
Proof.
  intros Hnz. apply N.eqb_neq in Hnz.
  unfold commit_events. destruct ps as [|a ps].
  - engine_steps. cbn [List.length Nat.ltb Nat.leb]. rewrite Hnz. now tidy_lists.
  - engine_steps. cbn [List.length Nat.ltb Nat.leb].
    rewrite bh_forEach_push_committed, Hnz. now tidy_lists.
Qed.

Lemma bh_commit_refused blockId st ps n cs h :
  commit blockId 0 (mkEngine (Some st) ps n cs h) =
  (mkEngine (Some st) [] 0%N (cs ++ ps) (h ++ commit_events_unset blockId 0 ps),
   Thrown mark_refused).
Proof.
  unfold commit_events_unset. destruct ps as [|a ps].
  - engine_steps. cbn [List.length Nat.ltb Nat.leb N.eqb]. now tidy_lists.
  - engine_steps. cbn [List.length Nat.ltb Nat.leb].
    rewrite bh_forEach_push_committed. cbn [N.eqb]. now tidy_lists.
Qed.

Lemma bh_commit_unset blockId blockNum ps n cs h :
  commit blockId blockNum (mkEngine None ps n cs h) =
  (mkEngine None [] blockNum (cs ++ ps)
            (h ++ commit_events_unset blockId blockNum ps),
   Thrown stream_not_set).
Proof.
  unfold commit_events_unset. destruct ps as [|a ps].
  - engine_steps. cbn [List.length Nat.ltb Nat.leb]. now tidy_lists.
  - engine_steps. cbn [List.length Nat.ltb Nat.leb].
    rewrite bh_forEach_push_committed. now tidy_lists.
Qed.

Lemma bh_onProgress_set d st ps n cs h :
  progress_block_num d <> 0%N ->
  onProgress d (mkEngine (Some st) ps n cs h) =
  (mkEngine (Some (mkStream (Some (progress_block_num d)))) [] (progress_block_num d)
            (cs ++ ps)
            (h ++ progress_lines ++
               commit_events (progress_block_id d) (progress_block_num d) ps),
   Returned tt).
Proof.
  intros Hnz. handler_steps. rewrite bh_commit_set by assumption. now tidy_lists.
Qed.

Lemma bh_onProgress_refused d st ps n cs h :
  progress_block_num d = 0%N ->
  onProgress d (mkEngine (Some st) ps n cs h) =
  (mkEngine (Some st) [] 0%N (cs ++ ps)
            (h ++ progress_lines ++ commit_events_unset (progress_block_id d) 0 ps),
   Thrown mark_refused).
Proof.
  intros Hz. handler_steps. rewrite Hz, bh_commit_refused. now tidy_lists.
Qed.

Lemma bh_onProgress_unset d ps n cs h :
  onProgress d (mkEngine None ps n cs h) =
  (mkEngine None [] (progress_block_num d) (cs ++ ps)
            (h ++ progress_lines ++
               commit_events_unset (progress_block_id d) (progress_block_num d) ps),
   Thrown stream_not_set).
Proof.
  handler_steps. rewrite bh_commit_unset. now tidy_lists.
Qed.

Lemma bh_onAction_ahead_set d st ps n cs h :
  (n <? block_num d)%N = true ->
  onAction d (mkEngine (Some st) ps n cs h) =
  (mkEngine (Some (mkStream (Some (block_num d)))) [act d] (block_num d) (cs ++ ps)
            (h ++ ahead_lines ++ commit_events (block_id d) (block_num d) ps ++
               pending_events d),
   Returned tt).
Proof.
  intros Hlt. handler_steps. rewrite Hlt. handler_steps.
  rewrite bh_commit_set by (apply N.ltb_lt in Hlt; lia). handler_steps. now tidy_lists.
Qed.

Lemma bh_onAction_ahead_unset d ps n cs h :
  (n <? block_num d)%N = true ->
  onAction d (mkEngine None ps n cs h) =
  (mkEngine None [] (block_num d) (cs ++ ps)
            (h ++ ahead_lines ++ commit_events_unset (block_id d) (block_num d) ps),
   Thrown stream_not_set).
Proof.
  intros Hlt. handler_steps. rewrite Hlt. handler_steps.
  rewrite bh_commit_unset. now tidy_lists.
Qed.

Lemma bh_onAction_not_ahead d so ps n cs h :
  (n <? block_num d)%N = false ->
  onAction d (mkEngine so ps n cs h) =
  (mkEngine so (ps ++ [act d]) n cs (h ++ pending_events d), Returned tt).
Proof.
  intros Hge. handler_steps. rewrite Hge. handler_steps. now tidy_lists.
Qed.

Lemma bh_onPostRestart so ps n cs h :
  onPostRestart (mkEngine so ps n cs h) =
  (mkEngine so [] n cs (h ++ restart_events), Returned tt).
Proof. engine_steps. now tidy_lists. Qed.

Lemma bh_flushPending so ps n cs h :
  flushPending (mkEngine so ps n cs h) =
  (mkEngine so [] n cs
            (h ++ [Log (Text "Flushing pending action(s) due to refresh"); Flush_pending]),
   Returned tt).
Proof. engine_steps. now tidy_lists. Qed.

Lemma bh_onListening so ps n cs h :
  onListening (mkEngine so ps n cs h) =
  (mkEngine so ps n cs (h ++ [Log (Text "Stream is now listening for action(s)")]),
   Returned tt).
Proof. reflexivity. Qed.

End BlockHeightFacts.

(** ** Equations of the cursor engine *)

Module GraphqlFacts.
Import Graphql.

Ltac engine_steps :=
  cbv beta iota zeta delta
    [commit onProgress onResult onComplete on_message onPostRestart run_start invoke
     mark ensureStream console_log record set_stream push_pending push_committed
     clear_pending writeFileSync marked
     bind ret throw gets modify exec fst
     stream pendingActions committedActions last_cursor_file history marker].

Ltac handler_steps :=
  cbv beta iota zeta delta
    [onProgress onResult onComplete on_message onPostRestart run_start invoke
     console_log record set_stream push_pending clear_pending marked
     bind ret throw gets modify exec fst
     stream pendingActions committedActions last_cursor_file history marker].

Ltac tidy_lists := rewrite <- ?app_assoc; cbn [app map]; rewrite ?app_nil_r.

Lemma gq_forEach_push_committed (ps : list Transfer) st qs cs f h :
  forEach ps push_committed (mkEngine st qs cs f h) =
  (mkEngine st qs (cs ++ ps) f (h ++ map Push_committed ps), Returned tt).
Proof.
  revert cs h. induction ps as [|a ps IH]; intros cs h; cbn [forEach].
  - engine_steps. now tidy_lists.
  - engine_steps. rewrite IH. now tidy_lists.
Qed.

Lemma gq_forEach_push_pending (d : SearchTransactionsForward) (actions : list MatchingAction)
    st ps cs f h :
  forEach actions
    (fun action =>
       console_log (Pending_transfer (json action) (id (block d)) (num (block d))) ;;
       push_pending (json action))%engine
    (mkEngine st ps cs f h) =
  (mkEngine st (ps ++ map json actions) cs f (h ++ pending_events d actions), Returned tt).
Proof.
  revert ps h. induction actions as [|a actions IH]; intros ps h; cbn [forEach].
  - engine_steps. cbn [pending_events flat_map]. now tidy_lists.
  - engine_steps. rewrite IH. cbn [pending_events flat_map]. now tidy_lists.
Qed.

Lemma gq_commit_set c st ps cs f h :
  c <> "" ->
  commit c (mkEngine (Some st) ps cs f h) =
  (mkEngine (Some (mkStream (Some c))) [] (cs ++ ps) (Some c) (h ++ commit_events c ps),
   Returned tt).
Proof.
  intros Hnz. apply String.eqb_neq in Hnz.
  unfold commit_events. destruct ps as [|a ps].
  - engine_steps. cbn [List.length Nat.ltb Nat.leb]. rewrite Hnz. now tidy_lists.
  - engine_steps. cbn [List.length Nat.ltb Nat.leb].
    rewrite gq_forEach_push_committed, Hnz. now tidy_lists.
Qed.

Lemma gq_commit_refused st ps cs f h :
  commit "" (mkEngine (Some st) ps cs f h) =
  (mkEngine (Some st) [] (cs ++ ps) f (h ++ commit_events_unset "" ps),
   Thrown mark_refused).
Proof.
  unfold commit_events_unset. destruct ps as [|a ps].
  - engine_steps. cbn [List.length Nat.ltb Nat.leb String.eqb]. now tidy_lists.
  - engine_steps. cbn [List.length Nat.ltb Nat.leb].
    rewrite gq_forEach_push_committed. cbn [String.eqb]. now tidy_lists.
Qed.

Lemma gq_commit_unset c ps cs f h :
  commit c (mkEngine None ps cs f h) =
  (mkEngine None [] (cs ++ ps) f (h ++ commit_events_unset c ps), Thrown stream_not_set).
Proof.
  unfold commit_events_unset. destruct ps as [|a ps].
  - engine_steps. cbn [List.length Nat.ltb Nat.leb]. now tidy_lists.
  - engine_steps. cbn [List.length Nat.ltb Nat.leb].
    rewrite gq_forEach_push_committed. now tidy_lists.
Qed.

Lemma gq_onProgress_set blockId blockNum c st ps cs f h :
  c <> "" ->
  onProgress blockId blockNum c (mkEngine (Some st) ps cs f h) =
  (mkEngine (Some (mkStream (Some c))) [] (cs ++ ps) (Some c)
            (h ++ [Log (Live_marker_received blockId blockNum)] ++ commit_events c ps),
   Returned tt).
Proof. intros Hnz. handler_steps. rewrite gq_commit_set by assumption. now tidy_lists. Qed.

Lemma gq_onProgress_refused blockId blockNum st ps cs f h :
  onProgress blockId blockNum "" (mkEngine (Some st) ps cs f h) =
  (mkEngine (Some st) [] (cs ++ ps) f
            (h ++ [Log (Live_marker_received blockId blockNum)] ++ commit_events_unset "" ps),
   Thrown mark_refused).
Proof. handler_steps. rewrite gq_commit_refused. now tidy_lists. Qed.

Lemma gq_onProgress_unset blockId blockNum c ps cs f h :
  onProgress blockId blockNum c (mkEngine None ps cs f h) =
  (mkEngine None [] (cs ++ ps) f
            (h ++ [Log (Live_marker_received blockId blockNum)] ++ commit_events_unset c ps),
   Thrown stream_not_set).
Proof. handler_steps. rewrite gq_commit_unset. now tidy_lists. Qed.

Lemma gq_onResult_trace_set d t st ps cs f h :
  trace d = Some t ->
  cursor d <> "" ->
  onResult d (mkEngine (Some st) ps cs f h) =
  (mkEngine (Some (mkStream (Some (cursor d)))) [] (cs ++ ps ++ payloads d) (Some (cursor d))
            (h ++ pending_events d (matchingActions t) ++
               [Log (Text "Comitting changes after transaction")] ++
               commit_events (cursor d) (ps ++ payloads d)),
   Returned tt).
Proof.
  intros Ht Hnz. unfold onResult, payloads. rewrite Ht.
  unfold bind at 1. rewrite gq_forEach_push_pending.
  handler_steps. rewrite gq_commit_set by assumption. now tidy_lists.
Qed.

Lemma gq_onResult_trace_refused d t st ps cs f h :
  trace d = Some t ->
  cursor d = "" ->
  onResult d (mkEngine (Some st) ps cs f h) =
  (mkEngine (Some st) [] (cs ++ ps ++ payloads d) f
            (h ++ pending_events d (matchingActions t) ++
               [Log (Text "Comitting changes after transaction")] ++
               commit_events_unset "" (ps ++ payloads d)),
   Thrown mark_refused).
Proof.
  intros Ht Hz. unfold onResult, payloads. rewrite Ht, Hz.
  unfold bind at 1. rewrite gq_forEach_push_pending.
  handler_steps. rewrite gq_commit_refused. now tidy_lists.
Qed.

Lemma gq_onResult_trace_unset d t ps cs f h :
  trace d = Some t ->
  onResult d (mkEngine None ps cs f h) =
  (mkEngine None [] (cs ++ ps ++ payloads d) f
            (h ++ pending_events d (matchingActions t) ++
               [Log (Text "Comitting changes after transaction")] ++
               commit_events_unset (cursor d) (ps ++ payloads d)),
   Thrown stream_not_set).
Proof.
  intros Ht. unfold onResult, payloads. rewrite Ht.
  unfold bind at 1. rewrite gq_forEach_push_pending.
  handler_steps. rewrite gq_commit_unset. now tidy_lists.
Qed.

Lemma gq_onResult_marker d so ps cs f h :
  trace d = None ->
  onResult d (mkEngine so ps cs f h) =
  onProgress (id (block d)) (num (block d)) (cursor d) (mkEngine so ps cs f h).
Proof. intros Ht. unfold onResult. now rewrite Ht. Qed.

Lemma gq_onPostRestart so ps cs f h :
  onPostRestart (mkEngine so ps cs f h) =
  (mkEngine so [] cs f (h ++ restart_events), Returned tt).
Proof. engine_steps. now tidy_lists. Qed.

Lemma gq_onError errors terminal w :
  onError errors terminal w = (w, Thrown (ReferenceError "nil")).
Proof. reflexivity. Qed.

End GraphqlFacts.

(** ** The Pending Buffer of the block-height engine *)

Section PendingInvariant.
Import BlockHeight BlockHeightFacts.

Lemma pending_from_nil calls so n cs h :
  pending_from calls (mkEngine so [] n cs h).
Proof. exists []. split; [reflexivity | constructor]. Qed.

Lemma pending_from_seen calls i w :
  pending_from calls w -> pending_from (calls ++ [i]) w.
Proof.
  intros [ds [Hmap Hall]]. exists ds. split; [assumption|].
  eapply Forall_impl; [|exact Hall].
  intros d [Hin Hle]. split; [apply in_or_app; now left | assumption].
Qed.

Lemma pending_from_invoke calls i w :
  pending_from calls w -> pending_from (calls ++ [i]) (exec (invoke i) w).
Proof.
  intros Hinv. destruct w as [so ps n cs h].
  destruct i as [[ | d | d | type] | | blockId blockNum | ];
    unfold exec, invoke, dispatcher.
  - rewrite bh_onListening. now apply pending_from_seen.
  - destruct (n <? block_num d)%N eqn:Hcmp.
    + destruct so as [st|].
      * rewrite bh_onAction_ahead_set by assumption. cbn [fst].
        exists [d]. split; [reflexivity|].
        constructor; [|constructor]. split.
        -- apply in_or_app. right. now left.
        -- cbn. lia.
      * rewrite bh_onAction_ahead_unset by assumption. apply pending_from_nil.
    + rewrite bh_onAction_not_ahead by assumption. cbn [fst].
      destruct (pending_from_seen _ (Message (action_trace d)) _ Hinv) as [ds [Hmap Hall]].
      cbn in Hmap, Hall.
      exists (ds ++ [d]). split.
      * rewrite map_app. cbn. now rewrite Hmap.
      * apply Forall_app. split; [exact Hall|].
        constructor; [|constructor]. split.
        -- apply in_or_app. right. now left.
        -- cbn. apply N.ltb_ge in Hcmp. exact Hcmp.
  - destruct so as [st|].
    + destruct (N.eq_dec (progress_block_num d) 0) as [Hz | Hnz].
      * rewrite bh_onProgress_refused by assumption. apply pending_from_nil.
      * rewrite bh_onProgress_set by assumption. apply pending_from_nil.
    + rewrite bh_onProgress_unset. apply pending_from_nil.
  - cbn. now apply pending_from_seen.
  - rewrite bh_onPostRestart. apply pending_from_nil.
  - destruct so as [st|].
    + destruct (N.eq_dec blockNum 0) as [-> | Hnz].
      * rewrite bh_commit_refused. apply pending_from_nil.
      * rewrite bh_commit_set by assumption. apply pending_from_nil.
    + rewrite bh_commit_unset. apply pending_from_nil.
  - rewrite bh_flushPending. apply pending_from_nil.
Qed.

Lemma pending_from_run calls : forall seen w,
  pending_from seen w -> pending_from (seen ++ calls) (run calls w).
Proof.
  induction calls as [|i calls IH]; intros seen w Hinv.
  - now rewrite app_nil_r.
  - cbn [run fold_left].
    replace (seen ++ i :: calls) with ((seen ++ [i]) ++ calls)
      by now rewrite <- app_assoc.
    apply IH. now apply pending_from_invoke.
Qed.

Lemma marker_tracks_invoke (i : invocation) (w : Engine) :
  stream w <> None ->
  marked w = Some (lastCommittedBlockNum w) \/ lastCommittedBlockNum w = 0%N ->
  let w' := exec (invoke i) w in
  stream w' <> None /\
  (marked w' = Some (lastCommittedBlockNum w') \/ lastCommittedBlockNum w' = 0%N).
Proof.
  destruct w as [[st|] ps n cs h]; [intros _ | intros H; now destruct H].
  intros Hmk. cbv zeta.
  destruct i as [[ | d | d | type] | | blockId blockNum | ];
    unfold exec, invoke, dispatcher.
  - rewrite bh_onListening. cbn [fst]. split; [discriminate | exact Hmk].
  - destruct (n <? block_num d)%N eqn:Hcmp.
    + rewrite bh_onAction_ahead_set by assumption. cbn. split; [discriminate | now left].
    + rewrite bh_onAction_not_ahead by assumption. cbn [fst].
      split; [discriminate | exact Hmk].
  - destruct (N.eq_dec (progress_block_num d) 0) as [Hz | Hnz].
    + rewrite bh_onProgress_refused by assumption. cbn. split; [discriminate | now right].
    + rewrite bh_onProgress_set by assumption. cbn. split; [discriminate | now left].
  - cbn [ret fst]. split; [discriminate | exact Hmk].
  - rewrite bh_onPostRestart. cbn [fst]. split; [discriminate | exact Hmk].
  - destruct (N.eq_dec blockNum 0) as [-> | Hnz].
    + rewrite bh_commit_refused. cbn. split; [discriminate | now right].
    + rewrite bh_commit_set by assumption. cbn. split; [discriminate | now left].
  - rewrite bh_flushPending. cbn [fst]. split; [discriminate | exact Hmk].
Qed.

Lemma marker_tracks_run (calls : list invocation) : forall w,
  stream w <> None ->
  marked w = Some (lastCommittedBlockNum w) \/ lastCommittedBlockNum w = 0%N ->
  marked (run calls w) = Some (lastCommittedBlockNum (run calls w)) \/
    lastCommittedBlockNum (run calls w) = 0%N.
Proof.
  induction calls as [|i calls IH]; intros w Hs Hmk; [exact Hmk|].
  cbn [run fold_left].
  destruct (marker_tracks_invoke i w Hs Hmk) as [Hs' Hmk'].
  now apply IH.
Qed.

(** C10: after any sequence of invocations on a new engine, started or not,
    every action left in [pendingActions] came from a delivered message whose
    block number is at most [lastCommittedBlockNum]; and on a started engine
    [lastCommittedBlockNum] is 0 or the block the stream is marked at, so
    that no pending action is after the marker. *)
Theorem pending_at_or_before_last_committed (calls : list invocation) (st : Stream) :
  pending_from calls (run calls new_Engine) /\
  pending_from calls (run calls (exec (start st) new_Engine)) /\
  let w := run calls (exec (start st) new_Engine) in
  (marked w = Some (lastCommittedBlockNum w) \/ lastCommittedBlockNum w = 0%N) /\
  forall m, marked w = Some m -> (lastCommittedBlockNum w <= m)%N.
Proof.
  split; [|split].
  - apply (pending_from_run calls []). apply pending_from_nil.
  - apply (pending_from_run calls []). apply pending_from_nil.
  - cbv zeta.
    assert (Hmk : marked (run calls (exec (start st) new_Engine)) =
                    Some (lastCommittedBlockNum (run calls (exec (start st) new_Engine))) \/
                  lastCommittedBlockNum (run calls (exec (start st) new_Engine)) = 0%N).
    { apply marker_tracks_run; [discriminate | now right]. }
    split; [exact Hmk|].
    intros m Hm. destruct Hmk as [Hmk | Hz]; [|lia].
    rewrite Hm in Hmk. injection Hmk as ->. lia.
Qed.

End PendingInvariant.

(** ** What a commit does, and in which order *)

Section CommitOrder.

Lemma bh_effects_commit_events blockId blockNum (ps : list BlockHeight.Action) :
  effects (BlockHeight.commit_events blockId blockNum ps) =
  map Push_committed ps ++ [Reset_pending; Set_lastCommitted blockNum; Mark blockNum].
Proof.
  unfold BlockHeight.commit_events.
  rewrite !effects_app, effects_pushes_committed. reflexivity.
Qed.

Lemma gq_effects_commit_events c (ps : list Graphql.Transfer) :
  effects (Graphql.commit_events c ps) =
  match ps with
  | [] => []
  | _ => map Push_committed ps ++ [Reset_pending]
  end ++ [Mark c; Persist c].
Proof.
  unfold Graphql.commit_events. destruct ps as [|a ps]; [reflexivity|].
  rewrite !effects_app, effects_pushes_committed. reflexivity.
Qed.

Lemma bh_effects_commit_events_unset blockId blockNum (ps : list BlockHeight.Action) :
  effects (BlockHeight.commit_events_unset blockId blockNum ps) =
  map Push_committed ps ++ [Reset_pending; Set_lastCommitted blockNum].
Proof.
  unfold BlockHeight.commit_events_unset.
  rewrite !effects_app, effects_pushes_committed. reflexivity.
Qed.

Lemma gq_effects_commit_events_unset c (ps : list Graphql.Transfer) :
  effects (Graphql.commit_events_unset c ps) =
  match ps with
  | [] => []
  | _ => map Push_committed ps ++ [Reset_pending]
  end.
Proof.
  unfold Graphql.commit_events_unset. destruct ps as [|a ps]; [reflexivity|].
  rewrite !effects_app, effects_pushes_committed. reflexivity.
Qed.

(** C3, as the code has it: with the stream set, [commit] of the cursor
    engine drains a non-empty Pending Buffer into the sink in arrival order
    and clears it, then marks the stream, then writes the cursor file, and
    has no last committed position to update; [commit] of the block-height
    engine drains the buffer into the sink in arrival order, clears it,
    sets [lastCommittedBlockNum], then marks the stream, and writes no
    store.  The mark refuses the empty cursor and the block number 0: the
    commit then throws after the drain, with the marker and the cursor file
    as they were. *)
Theorem commit_drains_then_marks
    (c : string) (gst : Graphql.Stream) (gps gcs : list Graphql.Transfer)
    (f : option string) (gh : list Graphql.ev)
    (blockId : string) (blockNum : N) (bst : BlockHeight.Stream)
    (bps bcs : list BlockHeight.Action) (n : N) (bh : list BlockHeight.ev) :
  (exists delta,
     Graphql.commit c (Graphql.mkEngine (Some gst) gps gcs f gh) =
       (if String.eqb c ""
        then (Graphql.mkEngine (Some gst) [] (gcs ++ gps) f (gh ++ delta),
              Thrown Graphql.mark_refused)
        else (Graphql.mkEngine (Some (Graphql.mkStream (Some c))) [] (gcs ++ gps) (Some c)
                               (gh ++ delta), Returned tt)) /\
     effects delta =
       match gps with
       | [] => []
       | _ => map Push_committed gps ++ [Reset_pending]
       end ++ (if String.eqb c "" then [] else [Mark c; Persist c])) /\
  (exists delta,
     BlockHeight.commit blockId blockNum (BlockHeight.mkEngine (Some bst) bps n bcs bh) =
       (if (blockNum =? 0)%N
        then (BlockHeight.mkEngine (Some bst) [] blockNum (bcs ++ bps) (bh ++ delta),
              Thrown BlockHeight.mark_refused)
        else (BlockHeight.mkEngine (Some (BlockHeight.mkStream (Some blockNum))) [] blockNum
                                   (bcs ++ bps) (bh ++ delta), Returned tt)) /\
     effects delta =
       map Push_committed bps ++ [Reset_pending; Set_lastCommitted blockNum] ++
       (if (blockNum =? 0)%N then [] else [Mark blockNum])).
Proof.
  split.
  - destruct (String.eqb_spec c "") as [-> | Hnz].
    + exists (Graphql.commit_events_unset "" gps). split.
      * apply GraphqlFacts.gq_commit_refused.
      * rewrite gq_effects_commit_events_unset. now rewrite app_nil_r.
    + exists (Graphql.commit_events c gps). split.
      * now apply GraphqlFacts.gq_commit_set.
      * apply gq_effects_commit_events.
  - destruct (N.eqb_spec blockNum 0) as [-> | Hnz].
    + exists (BlockHeight.commit_events_unset blockId 0 bps). split.
      * apply BlockHeightFacts.bh_commit_refused.
      * rewrite bh_effects_commit_events_unset. reflexivity.
    + exists (BlockHeight.commit_events blockId blockNum bps). split.
      * now apply BlockHeightFacts.bh_commit_set.
      * apply bh_effects_commit_events.
Qed.

(** C3, as stated, fails: a commit of the cursor engine with one pending
    payload marks the stream before it persists the cursor, and updates no
    last committed position, so its events are not those of the specified
    order (a), (b), (c), (d). *)
Lemma commit_marks_before_it_persists :
  let T := Graphql.mkTransfer "alice" "bob" "1 KARMA" in
  let w := Graphql.mkEngine (Some (Graphql.mkStream None)) [T] [] None [] in
  let w' := exec (Graphql.commit "c6") w in
  effects (Graphql.history w') =
    [Push_committed T; Reset_pending; Mark "c6"; Persist "c6"] /\
  effects (Graphql.history w') <> commit_as_specified [T] "c6".
Proof.
  cbv zeta. split; [reflexivity|].
  cbv. intros H. discriminate H.
Qed.

End CommitOrder.

(** ** Reconnection *)

Section Reconnect.

(** C4: the reconnect hook of either engine leaves the Pending Buffer empty
    and commits nothing: the sink, the stream and its marker, the last
    committed block number and the cursor file are as before, and the only
    event besides console lines is the flush of the buffer. *)
Theorem reconnect_flushes_without_commit
    (bw : BlockHeight.Engine) (gw : Graphql.Engine) :
  (let bw' := exec BlockHeight.onPostRestart bw in
   BlockHeight.pendingActions bw' = [] /\
   BlockHeight.committedActions bw' = BlockHeight.committedActions bw /\
   BlockHeight.stream bw' = BlockHeight.stream bw /\
   BlockHeight.lastCommittedBlockNum bw' = BlockHeight.lastCommittedBlockNum bw /\
   exists delta,
     BlockHeight.history bw' = BlockHeight.history bw ++ delta /\
     effects delta = [Flush_pending]) /\
  (let bw' := exec BlockHeight.flushPending bw in
   BlockHeight.pendingActions bw' = [] /\
   BlockHeight.committedActions bw' = BlockHeight.committedActions bw /\
   BlockHeight.stream bw' = BlockHeight.stream bw /\
   BlockHeight.lastCommittedBlockNum bw' = BlockHeight.lastCommittedBlockNum bw /\
   exists delta,
     BlockHeight.history bw' = BlockHeight.history bw ++ delta /\
     effects delta = [Flush_pending]) /\
  (let gw' := exec Graphql.onPostRestart gw in
   Graphql.pendingActions gw' = [] /\
   Graphql.committedActions gw' = Graphql.committedActions gw /\
   Graphql.stream gw' = Graphql.stream gw /\
   Graphql.last_cursor_file gw' = Graphql.last_cursor_file gw /\
   exists delta,
     Graphql.history gw' = Graphql.history gw ++ delta /\
     effects delta = [Flush_pending]).
Proof.
  destruct bw as [so ps n cs h], gw as [gso gps gcs f gh]. cbv zeta. unfold exec.
  rewrite BlockHeightFacts.bh_onPostRestart, BlockHeightFacts.bh_flushPending,
    GraphqlFacts.gq_onPostRestart.
  cbn [fst BlockHeight.pendingActions BlockHeight.committedActions BlockHeight.stream
       BlockHeight.lastCommittedBlockNum BlockHeight.history
       Graphql.pendingActions Graphql.committedActions Graphql.stream
       Graphql.last_cursor_file Graphql.history].
  repeat split; eexists; split; reflexivity.
Qed.

End Reconnect.

(** ** Progress events *)

Section Progress.

(** C5, as the code has it: a progress event commits whatever the Pending
    Buffer holds, also when it is empty.  With its stream set, the cursor
    engine marks the stream at the cursor of the live marker and writes it
    to the cursor file; the block-height engine marks the stream at the block
    number and keeps it in [lastCommittedBlockNum], and persists nothing.
    The mark refuses the empty cursor and the block number 0: the handler
    then throws after the drain and neither marks nor persists. *)
Theorem progress_commits_unconditionally
    (u : bool) (c : string) (b : Graphql.Block) (gst : Graphql.Stream)
    (gps gcs : list Graphql.Transfer) (f : option string) (gh : list Graphql.ev)
    (d : BlockHeight.ProgressData) (bst : BlockHeight.Stream)
    (bps bcs : list BlockHeight.Action) (n : N) (bh : list BlockHeight.ev) :
  (let r := Graphql.on_message (Graphql.data (Graphql.mkResult u c b None))
              (Graphql.mkEngine (Some gst) gps gcs f gh) in
   Graphql.pendingActions (fst r) = [] /\
   Graphql.committedActions (fst r) = gcs ++ gps /\
   exists delta,
     Graphql.history (fst r) = gh ++ delta /\
     if String.eqb c ""
     then snd r = Thrown Graphql.mark_refused /\
          Graphql.stream (fst r) = Some gst /\
          Graphql.last_cursor_file (fst r) = f /\
          Forall (fun e => is_checkpoint e = false) delta
     else snd r = Returned tt /\
          Graphql.marked (fst r) = Some c /\
          Graphql.last_cursor_file (fst r) = Some c /\
          In (Mark c) delta /\ In (Persist c) delta) /\
  (let r := BlockHeight.dispatcher (BlockHeight.progress d)
              (BlockHeight.mkEngine (Some bst) bps n bcs bh) in
   BlockHeight.lastCommittedBlockNum (fst r) = BlockHeight.progress_block_num d /\
   BlockHeight.pendingActions (fst r) = [] /\
   BlockHeight.committedActions (fst r) = bcs ++ bps /\
   exists delta,
     BlockHeight.history (fst r) = bh ++ delta /\
     (forall p, ~ In (Persist p) delta) /\
     if (BlockHeight.progress_block_num d =? 0)%N
     then snd r = Thrown BlockHeight.mark_refused /\
          BlockHeight.stream (fst r) = Some bst /\
          Forall (fun e => is_checkpoint e = false) delta
     else snd r = Returned tt /\
          BlockHeight.marked (fst r) = Some (BlockHeight.progress_block_num d) /\
          In (Mark (BlockHeight.progress_block_num d)) delta).
Proof.
  assert (Hbpushes : forall ps : list BlockHeight.Action,
            Forall (fun e : BlockHeight.ev => is_checkpoint e = false /\
                                               forall p, e <> Persist p)
                   (map Push_committed ps)).
  { intros ps. apply Forall_forall. intros e He. apply in_map_iff in He.
    destruct He as [a [<- _]]. split; [reflexivity | discriminate]. }
  cbv zeta. unfold Graphql.on_message, BlockHeight.dispatcher. split.
  - rewrite GraphqlFacts.gq_onResult_marker by reflexivity.
    cbn [Graphql.id Graphql.num Graphql.cursor Graphql.block].
    destruct (String.eqb_spec c "") as [-> | Hnz].
    + rewrite GraphqlFacts.gq_onProgress_refused. cbn [fst snd].
      repeat split. eexists. split; [reflexivity|]. repeat split.
      constructor; [reflexivity|].
      unfold Graphql.commit_events_unset. destruct gps as [|a gps]; [constructor|].
      apply Forall_app. split; [repeat constructor|].
      apply Forall_app. split; [|repeat constructor].
      apply Forall_forall. intros e He. apply in_map_iff in He.
      destruct He as [x [<- _]]. reflexivity.
    + rewrite GraphqlFacts.gq_onProgress_set by assumption. cbn [fst snd].
      repeat split. eexists. split; [reflexivity|]. repeat split.
      * unfold Graphql.commit_events. apply in_or_app. right. apply in_or_app. right.
        cbn. auto.
      * unfold Graphql.commit_events. apply in_or_app. right. apply in_or_app. right.
        cbn. auto.
  - destruct (N.eqb_spec (BlockHeight.progress_block_num d) 0) as [Hz | Hnz].
    + rewrite BlockHeightFacts.bh_onProgress_refused by assumption. cbn [fst snd].
      repeat split; try (symmetry; exact Hz).
      eexists. split; [reflexivity|].
      assert (Hall : Forall (fun e : BlockHeight.ev => is_checkpoint e = false /\
                                                        forall p, e <> Persist p)
                       (BlockHeight.progress_lines ++
                        BlockHeight.commit_events_unset (BlockHeight.progress_block_id d) 0 bps)).
      { apply Forall_app. split; [repeat constructor; discriminate|].
        unfold BlockHeight.commit_events_unset.
        apply Forall_app. split; [repeat constructor; discriminate|].
        apply Forall_app. split; [apply Hbpushes | repeat constructor; discriminate]. }
      split; [|split; [reflexivity | split; [reflexivity|]]].
      * intros p Hin. rewrite Forall_forall in Hall. now apply (proj2 (Hall _ Hin) p).
      * eapply Forall_impl; [|exact Hall]. intros e He. apply He.
    + rewrite BlockHeightFacts.bh_onProgress_set by assumption. cbn [fst snd].
      repeat split.
      eexists. split; [reflexivity|]. split; [|split; [reflexivity | split; [reflexivity|]]].
      * intros p Hin.
        unfold BlockHeight.commit_events, BlockHeight.progress_lines in Hin.
        repeat (apply in_app_or in Hin; destruct Hin as [Hin|Hin]).
        -- cbn in Hin. repeat (destruct Hin as [Hin|Hin]; [discriminate Hin|]). exact Hin.
        -- cbn in Hin. repeat (destruct Hin as [Hin|Hin]; [discriminate Hin|]). exact Hin.
        -- apply in_map_iff in Hin. destruct Hin as [a [Heq _]]. discriminate Heq.
        -- cbn in Hin. repeat (destruct Hin as [Hin|Hin]; [discriminate Hin|]). exact Hin.
      * apply in_or_app. right. unfold BlockHeight.commit_events.
        apply in_or_app. right. apply in_or_app. right. cbn. auto 10.
Qed.

(** C5, as stated, fails on the block-height engine: a progress event at
    block 10 on a started engine with an empty Pending Buffer marks the
    stream at 10 and persists no position. *)
Lemma block_height_progress_persists_nothing :
  let w := exec (BlockHeight.start (BlockHeight.mkStream None)) BlockHeight.new_Engine in
  let w' := exec (BlockHeight.dispatcher
                    (BlockHeight.progress (BlockHeight.mkProgressData "0000000a" 10)))
                 w in
  BlockHeight.pendingActions w = [] /\
  effects (BlockHeight.history w') =
    [Reset_pending; Set_lastCommitted 10%N; Mark 10%N] /\
  ~ In (Persist 10%N) (BlockHeight.history w').
Proof.
  cbv zeta. split; [reflexivity|]. split; [reflexivity|].
  cbv. intros H. repeat (destruct H as [H|H]; [discriminate H|]). exact H.
Qed.

End Progress.

(** ** Data events *)

Section DataEvents.

Lemma gq_effects_pending_events d (actions : list Graphql.MatchingAction) :
  effects (Graphql.pending_events d actions) =
  map Push_pending (map Graphql.json actions).
Proof.
  unfold effects, Graphql.pending_events.
  induction actions as [|a l IH]; [reflexivity|].
  cbn [flat_map map app filter is_log negb]. now rewrite IH.
Qed.

(** C6, as the code has it, on an engine with its stream set: the cursor
    engine first appends the payloads of the event to the Pending Buffer and
    then commits, draining them with the rest of the buffer, marking the
    stream at the cursor of the event and writing it to the cursor file;
    when that cursor is the empty string the mark refuses it, and the
    handler throws after the drain with the marker and the cursor file as
    they were.  The block-height engine commits first, when the block of the
    event is ahead of [lastCommittedBlockNum], draining what was pending
    before, and appends the payload of the event afterwards, where it stays
    pending. *)
Theorem data_event_buffers_and_commits
    (u : bool) (c : string) (b : Graphql.Block) (t : Graphql.Trace)
    (gst : Graphql.Stream) (gps gcs : list Graphql.Transfer)
    (f : option string) (gh : list Graphql.ev)
    (d : BlockHeight.ActionTraceData) (bst : BlockHeight.Stream)
    (bps bcs : list BlockHeight.Action) (n : N) (bh : list BlockHeight.ev) :
  (let js := map Graphql.json (Graphql.matchingActions t) in
   exists delta,
     Graphql.onResult (Graphql.mkResult u c b (Some t))
                      (Graphql.mkEngine (Some gst) gps gcs f gh) =
       (if String.eqb c ""
        then (Graphql.mkEngine (Some gst) [] (gcs ++ gps ++ js) f (gh ++ delta),
              Thrown Graphql.mark_refused)
        else (Graphql.mkEngine (Some (Graphql.mkStream (Some c))) [] (gcs ++ gps ++ js)
                               (Some c) (gh ++ delta), Returned tt)) /\
     effects delta =
       map Push_pending js ++
       (if String.eqb c ""
        then effects (Graphql.commit_events_unset c (gps ++ js))
        else effects (Graphql.commit_events c (gps ++ js)))) /\
  (exists delta,
     BlockHeight.onAction d (BlockHeight.mkEngine (Some bst) bps n bcs bh) =
       ((if (n <? BlockHeight.block_num d)%N
         then BlockHeight.mkEngine
                (Some (BlockHeight.mkStream (Some (BlockHeight.block_num d))))
                [BlockHeight.act d] (BlockHeight.block_num d) (bcs ++ bps) (bh ++ delta)
         else BlockHeight.mkEngine (Some bst) (bps ++ [BlockHeight.act d]) n bcs (bh ++ delta)),
        Returned tt) /\
     effects delta =
       (if (n <? BlockHeight.block_num d)%N
        then effects (BlockHeight.commit_events (BlockHeight.block_id d)
                        (BlockHeight.block_num d) bps)
        else []) ++ [Push_pending (BlockHeight.act d)]).
Proof.
  cbv zeta. split.
  - destruct (String.eqb_spec c "") as [-> | Hnz].
    + eexists. split.
      * rewrite (GraphqlFacts.gq_onResult_trace_refused _ t) by reflexivity.
        unfold Graphql.payloads. cbn [Graphql.trace Graphql.cursor]. reflexivity.
      * unfold effects. rewrite !filter_app. cbn [filter is_log negb app].
        f_equal. apply gq_effects_pending_events.
    + eexists. split.
      * rewrite (GraphqlFacts.gq_onResult_trace_set _ t) by (try reflexivity; exact Hnz).
        unfold Graphql.payloads. cbn [Graphql.trace Graphql.cursor]. reflexivity.
      * unfold effects. rewrite !filter_app. cbn [filter is_log negb app].
        f_equal. apply gq_effects_pending_events.
  - destruct (n <? BlockHeight.block_num d)%N eqn:Hcmp.
    + eexists. split.
      * rewrite BlockHeightFacts.bh_onAction_ahead_set by assumption. reflexivity.
      * unfold effects. rewrite !filter_app. reflexivity.
    + eexists. split.
      * rewrite BlockHeightFacts.bh_onAction_not_ahead by assumption. reflexivity.
      * reflexivity.
Qed.

(** C6, as stated, fails on the block-height engine: the first action of
    block 5 makes a started engine commit and mark block 5 before the
    action is appended to the Pending Buffer; the commit drains nothing,
    and the action is left pending. *)
Lemma block_height_commit_precedes_append :
  let T := BlockHeight.mkAction "therealkarma" "transfer"
             (BlockHeight.mkKarmaTransfer "alice" "bob" "1 KARMA" "") in
  let w := exec (BlockHeight.start (BlockHeight.mkStream None)) BlockHeight.new_Engine in
  let w' := exec (BlockHeight.onAction (BlockHeight.mkActionTraceData "00000005" 5 T)) w in
  effects (BlockHeight.history w') =
    [Reset_pending; Set_lastCommitted 5%N; Mark 5%N; Push_pending T] /\
  BlockHeight.committedActions w' = [] /\
  BlockHeight.pendingActions w' = [T].
Proof. cbv zeta. repeat split. Qed.

(** C7: a cursor engine started beside no cursor file receives a data event
    with payload [T1] at block 5 and then one with payload [T2] at block 6,
    whose cursor is a position, and so not the empty string; the sink then
    holds exactly [T1; T2], the Pending Buffer is empty, and the cursor file
    and the marker of the stream hold the cursor of the second event. *)
Theorem two_data_events_scenario
    (T1 T2 : Graphql.Transfer) (c5 c6 id5 id6 : string) (u5 u6 : bool) :
  c6 <> "" ->
  let d5 := Graphql.mkResult u5 c5 (Graphql.mkBlock id5 5)
              (Some (Graphql.mkTrace [Graphql.mkMatchingAction T1])) in
  let d6 := Graphql.mkResult u6 c6 (Graphql.mkBlock id6 6)
              (Some (Graphql.mkTrace [Graphql.mkMatchingAction T2])) in
  let w0 := exec (Graphql.run_start (Graphql.mkStream None)) (Graphql.new_Engine None) in
  let w := Graphql.run [Graphql.Message (Graphql.data d5);
                        Graphql.Message (Graphql.data d6)] w0 in
  Graphql.last_cursor_file w0 = None /\
  Graphql.committedActions w = [T1; T2] /\
  Graphql.pendingActions w = [] /\
  Graphql.last_cursor_file w = Some c6 /\
  Graphql.marked w = Some c6.
Proof.
  intros H6. cbv zeta.
  destruct c6 as [|a6 r6]; [now elim H6|].
  destruct c5 as [|a5 r5]; repeat split.
Qed.

Lemma two_data_events_scenario_witness :
  let T1 := Graphql.mkTransfer "alice" "therealkarma" "1.0000 KARMA" in
  let T2 := Graphql.mkTransfer "bob" "therealkarma" "2.0000 KARMA" in
  let d5 := Graphql.mkResult false "c5" (Graphql.mkBlock "00000005" 5)
              (Some (Graphql.mkTrace [Graphql.mkMatchingAction T1])) in
  let d6 := Graphql.mkResult false "c6" (Graphql.mkBlock "00000006" 6)
              (Some (Graphql.mkTrace [Graphql.mkMatchingAction T2])) in
  let w0 := exec (Graphql.run_start (Graphql.mkStream None)) (Graphql.new_Engine None) in
  let w := Graphql.run [Graphql.Message (Graphql.data d5);
                        Graphql.Message (Graphql.data d6)] w0 in
  Graphql.last_cursor_file w0 = None /\
  Graphql.committedActions w = [T1; T2] /\
  Graphql.pendingActions w = [] /\
  Graphql.last_cursor_file w = Some "c6" /\
  Graphql.marked w = Some "c6".
Proof.
  intros T1 T2 d5 d6 w0 w.
  apply (two_data_events_scenario T1 T2 "c5" "c6" "00000005" "00000006" false false);
    discriminate.
Defined.

End DataEvents.

(** ** Error events of the cursor engine *)

Section ErrorEvents.
Import Graphql.

Lemma nil_is_unbound : existsb (String.eqb "nil") onError_scope = false.
Proof. reflexivity. Qed.

Lemma resolve_unbound (x : string) (w : Engine) :
  existsb (String.eqb x) onError_scope = false ->
  resolve x w = (w, Thrown (ReferenceError x)).
Proof. intros H. unfold resolve. now rewrite H. Qed.

Lemma resolve_bound (x : string) (w : Engine) :
  existsb (String.eqb x) onError_scope = true ->
  resolve x w = (w, Returned tt).
Proof. intros H. unfold resolve. now rewrite H. Qed.

(** C9: whatever its arguments, [onError] throws a [ReferenceError] for the
    identifier [nil] before anything is printed: the engine, its history
    included, is left as it was, and so it is when the error message comes
    through the callback given to the client. *)
Theorem onError_raises_ReferenceError
    (errors : list string) (terminal : bool) (w : Engine) :
  onError errors terminal w = (w, Thrown (ReferenceError "nil")) /\
  on_message (error errors terminal) w = (w, Thrown (ReferenceError "nil")) /\
  history (exec (onError errors terminal) w) = history w.
Proof.
  assert (H : onError errors terminal w = (w, Thrown (ReferenceError "nil"))).
  { unfold onError. unfold bind.
    rewrite (resolve_bound "console") by reflexivity.
    rewrite (resolve_bound "JSON") by reflexivity.
    rewrite (resolve_bound "errors") by reflexivity.
    now rewrite (resolve_unbound "nil") by exact nil_is_unbound. }
  split; [exact H|]. split; [exact H|].
  unfold exec. now rewrite H.
Qed.

(** C8, as the code has it: an error event, terminal or not, marks nothing,
    persists nothing and changes neither the Pending Buffer nor the sink;
    the engine keeps no stopped state, so the message that follows is
    handled as it would have been without the error. *)
Theorem error_event_changes_nothing
    (errors : list string) (terminal : bool) (w : Engine) (m : StreamMessage) :
  let w' := exec (on_message (error errors terminal)) w in
  stream w' = stream w /\
  pendingActions w' = pendingActions w /\
  committedActions w' = committedActions w /\
  last_cursor_file w' = last_cursor_file w /\
  effects (history w') = effects (history w) /\
  let after := exec (on_message m) w' in
  let without := exec (on_message m) w in
  stream after = stream without /\
  pendingActions after = pendingActions without /\
  committedActions after = committedActions without /\
  last_cursor_file after = last_cursor_file without /\
  effects (history after) = effects (history without).
Proof.
  cbv zeta.
  assert (Hsame : exec (on_message (error errors terminal)) w = w).
  { unfold exec. cbn [on_message]. now rewrite GraphqlFacts.gq_onError. }
  rewrite Hsame. repeat split.
Qed.

(** C8, as stated, fails: after a terminal error event the engine still
    accepts the next data event, sinks its payload, marks the stream and
    writes the cursor file. *)
Lemma engine_accepts_events_after_terminal_error :
  let T := mkTransfer "alice" "bob" "1 KARMA" in
  let d := mkResult false "c6" (mkBlock "00000006" 6) (Some (mkTrace [mkMatchingAction T])) in
  let w0 := exec (run_start (mkStream None)) (new_Engine None) in
  let w1 := exec (on_message (error ["connection lost"] true)) w0 in
  let w2 := exec (on_message (data d)) w1 in
  w1 = w0 /\
  committedActions w2 = [T] /\
  marked w2 = Some "c6" /\
  last_cursor_file w2 = Some "c6" /\
  w2 <> w1.
Proof.
  cbv zeta. repeat split. intros H. discriminate H.
Qed.

End ErrorEvents.

(** ** Checkpoints and the Pending Buffer *)

Section Checkpoints.

Lemma bh_transforms_commit blockId blockNum (ps : list BlockHeight.Action) :
  transforms (BlockHeight.commit_events blockId blockNum ps) ps [].
Proof.
  unfold BlockHeight.commit_events.
  replace (map Push_committed ps ++
           [Log (BlockHeight.Text "Bumping last committed block and clearing pending actions");
            Reset_pending; Set_lastCommitted blockNum;
            Log (BlockHeight.Marking_up_to blockId blockNum); Mark blockNum;
            Log (BlockHeight.Text "")])
    with ((map Push_committed ps ++
           [Log (BlockHeight.Text "Bumping last committed block and clearing pending actions")] ++
           [@Reset_pending N BlockHeight.Action BlockHeight.line]) ++
          [Set_lastCommitted blockNum] ++
          [Log (BlockHeight.Marking_up_to blockId blockNum)] ++
          [Mark blockNum] ++ [Log (BlockHeight.Text "")])
    by (now rewrite <- !app_assoc).
  apply transforms_app with (ps' := ps); [apply transforms_log|].
  apply transforms_app with (ps' := []).
  { apply transforms_drain_via. repeat constructor. }
  apply transforms_app with (ps' := []); [apply transforms_set_lastCommitted|].
  apply transforms_app with (ps' := []); [apply transforms_log|].
  apply transforms_app with (ps' := []); [now apply transforms_checkpoint|].
  apply transforms_log.
Qed.

Lemma bh_transforms_commit_unset blockId blockNum (ps : list BlockHeight.Action) :
  transforms (BlockHeight.commit_events_unset blockId blockNum ps) ps [].
Proof.
  unfold BlockHeight.commit_events_unset.
  replace (map Push_committed ps ++
           [Log (BlockHeight.Text "Bumping last committed block and clearing pending actions");
            Reset_pending; Set_lastCommitted blockNum;
            Log (BlockHeight.Marking_up_to blockId blockNum)])
    with ((map Push_committed ps ++
           [Log (BlockHeight.Text "Bumping last committed block and clearing pending actions")] ++
           [@Reset_pending N BlockHeight.Action BlockHeight.line]) ++
          [Set_lastCommitted blockNum] ++
          [Log (BlockHeight.Marking_up_to blockId blockNum)])
    by (now rewrite <- !app_assoc).
  apply transforms_app with (ps' := ps); [apply transforms_log|].
  apply transforms_app with (ps' := []).
  { apply transforms_drain_via. repeat constructor. }
  apply transforms_app with (ps' := []); [apply transforms_set_lastCommitted|].
  apply transforms_log.
Qed.

Lemma bh_transforms_lines (mid : list BlockHeight.ev) (ps : list BlockHeight.Action) :
  Forall (fun e => is_log e = true) mid -> transforms mid ps ps.
Proof.
  intros Hmid v Hb Hp. destruct (replay_logs v mid Hmid) as [Hr Hc].
  rewrite Hr. auto.
Qed.

Lemma bh_transforms_pending (d : BlockHeight.ActionTraceData) (ps : list BlockHeight.Action) :
  transforms (BlockHeight.pending_events d) ps (ps ++ [BlockHeight.act d]).
Proof.
  unfold BlockHeight.pending_events.
  apply (transforms_app [_] [_] ps ps); [apply transforms_log | apply transforms_push_pending].
Qed.

Lemma bh_transforms_restart (ps : list BlockHeight.Action) :
  transforms BlockHeight.restart_events ps [].
Proof.
  unfold BlockHeight.restart_events.
  apply (transforms_app [_; _; _; _] [_] ps ps).
  - apply bh_transforms_lines. repeat constructor.
  - apply transforms_flush.
Qed.

Lemma bh_coherent_extend so ps n cs h so' ps' n' cs' delta :
  BlockHeight.coherent (BlockHeight.mkEngine so ps n cs h) ->
  transforms delta ps ps' ->
  BlockHeight.coherent (BlockHeight.mkEngine so' ps' n' cs' (h ++ delta)).
Proof.
  unfold BlockHeight.coherent. cbn [BlockHeight.history BlockHeight.pendingActions].
  intros [Hc [Hb Hp]] Ht. destruct (Ht _ Hb Hp) as [Hc' [Hb' Hp']].
  unfold BlockHeight.ev in *. rewrite replay_app. split; [|auto].
  apply checkpoints_drained_app. auto.
Qed.

Lemma bh_coherent_invoke (i : BlockHeight.invocation) (w : BlockHeight.Engine) :
  BlockHeight.coherent w -> BlockHeight.coherent (exec (BlockHeight.invoke i) w).
Proof.
  intros Hw. destruct w as [so ps n cs h].
  destruct i as [[ | d | d | type] | | blockId blockNum | ];
    unfold exec, BlockHeight.invoke, BlockHeight.dispatcher.
  - rewrite BlockHeightFacts.bh_onListening. cbn [fst].
    eapply bh_coherent_extend; [exact Hw|]. apply transforms_log.
  - destruct (n <? BlockHeight.block_num d)%N eqn:Hcmp.
    + destruct so as [st|].
      * rewrite BlockHeightFacts.bh_onAction_ahead_set by assumption. cbn [fst].
        eapply bh_coherent_extend; [exact Hw|].
        apply transforms_app with (ps' := ps).
        { apply bh_transforms_lines. repeat constructor. }
        apply transforms_app with (ps' := []); [apply bh_transforms_commit|].
        apply (bh_transforms_pending d []).
      * rewrite BlockHeightFacts.bh_onAction_ahead_unset by assumption. cbn [fst].
        eapply bh_coherent_extend; [exact Hw|].
        apply transforms_app with (ps' := ps).
        { apply bh_transforms_lines. repeat constructor. }
        apply bh_transforms_commit_unset.
    + rewrite BlockHeightFacts.bh_onAction_not_ahead by assumption. cbn [fst].
      eapply bh_coherent_extend; [exact Hw|]. apply bh_transforms_pending.
  - destruct so as [st|].
    + destruct (N.eq_dec (BlockHeight.progress_block_num d) 0) as [Hz | Hnz].
      * rewrite BlockHeightFacts.bh_onProgress_refused by assumption. cbn [fst].
        eapply bh_coherent_extend; [exact Hw|].
        apply transforms_app with (ps' := ps).
        { apply bh_transforms_lines. repeat constructor. }
        apply bh_transforms_commit_unset.
      * rewrite BlockHeightFacts.bh_onProgress_set by assumption. cbn [fst].
        eapply bh_coherent_extend; [exact Hw|].
        apply transforms_app with (ps' := ps).
        { apply bh_transforms_lines. repeat constructor. }
        apply bh_transforms_commit.
    + rewrite BlockHeightFacts.bh_onProgress_unset. cbn [fst].
      eapply bh_coherent_extend; [exact Hw|].
      apply transforms_app with (ps' := ps).
      { apply bh_transforms_lines. repeat constructor. }
      apply bh_transforms_commit_unset.
  - cbn. exact Hw.
  - rewrite BlockHeightFacts.bh_onPostRestart. cbn [fst].
    eapply bh_coherent_extend; [exact Hw|]. apply bh_transforms_restart.
  - destruct so as [st|].
    + destruct (N.eq_dec blockNum 0) as [-> | Hnz].
      * rewrite BlockHeightFacts.bh_commit_refused. cbn [fst].
        eapply bh_coherent_extend; [exact Hw|]. apply bh_transforms_commit_unset.
      * rewrite BlockHeightFacts.bh_commit_set by assumption. cbn [fst].
        eapply bh_coherent_extend; [exact Hw|]. apply bh_transforms_commit.
    + rewrite BlockHeightFacts.bh_commit_unset. cbn [fst].
      eapply bh_coherent_extend; [exact Hw|]. apply bh_transforms_commit_unset.
  - rewrite BlockHeightFacts.bh_flushPending. cbn [fst].
    eapply bh_coherent_extend; [exact Hw|].
    apply (transforms_app [_] [_] ps ps); [apply transforms_log | apply transforms_flush].
Qed.

Lemma bh_coherent_run (calls : list BlockHeight.invocation) : forall w,
  BlockHeight.coherent w -> BlockHeight.coherent (BlockHeight.run calls w).
Proof.
  induction calls as [|i calls IH]; intros w Hw; [exact Hw|].
  cbn [BlockHeight.run fold_left]. apply IH. now apply bh_coherent_invoke.
Qed.

End Checkpoints.

Section GraphqlCheckpoints.

Lemma gq_transforms_lines (mid : list Graphql.ev) (ps : list Graphql.Transfer) :
  Forall (fun e => is_log e = true) mid -> transforms mid ps ps.
Proof.
  intros Hmid v Hb Hp. destruct (replay_logs v mid Hmid) as [Hr Hc].
  rewrite Hr. auto.
Qed.

Lemma gq_transforms_drain c (ps : list Graphql.Transfer) :
  transforms (Graphql.commit_events_unset c ps) ps [].
Proof.
  unfold Graphql.commit_events_unset. destruct ps as [|a ps].
  - apply transforms_nil.
  - apply transforms_app with (ps' := a :: ps); [apply transforms_log|].
    apply transforms_drain.
Qed.

Lemma gq_transforms_commit c (ps : list Graphql.Transfer) :
  transforms (Graphql.commit_events c ps) ps [].
Proof.
  change (Graphql.commit_events c ps)
    with (Graphql.commit_events_unset c ps ++ [Mark c] ++ [Persist c]).
  apply transforms_app with (ps' := []); [apply gq_transforms_drain|].
  apply transforms_app with (ps' := []); now apply transforms_checkpoint.
Qed.

Lemma gq_transforms_pending d (actions : list Graphql.MatchingAction)
    (ps : list Graphql.Transfer) :
  transforms (Graphql.pending_events d actions) ps (ps ++ map Graphql.json actions).
Proof.
  revert ps. induction actions as [|a actions IH]; intros ps.
  - cbn. rewrite app_nil_r. apply transforms_nil.
  - cbn [Graphql.pending_events flat_map map].
    replace (ps ++ Graphql.json a :: map Graphql.json actions)
      with ((ps ++ [Graphql.json a]) ++ map Graphql.json actions)
      by now rewrite <- app_assoc.
    apply transforms_app with (ps' := ps ++ [Graphql.json a]); [|apply IH].
    apply (transforms_app [_] [_] ps ps);
      [apply transforms_log | apply transforms_push_pending].
Qed.

Lemma gq_coherent_extend so ps cs f h so' ps' cs' f' delta :
  Graphql.coherent (Graphql.mkEngine so ps cs f h) ->
  transforms delta ps ps' ->
  Graphql.coherent (Graphql.mkEngine so' ps' cs' f' (h ++ delta)).
Proof.
  unfold Graphql.coherent. cbn [Graphql.history Graphql.pendingActions].
  intros [Hc [Hb Hp]] Ht. destruct (Ht _ Hb Hp) as [Hc' [Hb' Hp']].
  unfold Graphql.ev in *. rewrite replay_app. split; [|auto].
  apply checkpoints_drained_app. auto.
Qed.

Lemma gq_coherent_onProgress blockId blockNum c (w : Graphql.Engine) :
  Graphql.coherent w -> Graphql.coherent (exec (Graphql.onProgress blockId blockNum c) w).
Proof.
  intros Hw. destruct w as [[st|] ps cs f h]; unfold exec.
  - destruct (string_dec c "") as [-> | Hnz].
    + rewrite GraphqlFacts.gq_onProgress_refused. cbn [fst].
      eapply gq_coherent_extend; [exact Hw|].
      apply transforms_app with (ps' := ps); [apply transforms_log|].
      apply gq_transforms_drain.
    + rewrite GraphqlFacts.gq_onProgress_set by assumption. cbn [fst].
      eapply gq_coherent_extend; [exact Hw|].
      apply transforms_app with (ps' := ps); [apply transforms_log|].
      apply gq_transforms_commit.
  - rewrite GraphqlFacts.gq_onProgress_unset. cbn [fst].
    eapply gq_coherent_extend; [exact Hw|].
    apply transforms_app with (ps' := ps); [apply transforms_log|].
    apply gq_transforms_drain.
Qed.

Lemma gq_coherent_invoke (i : Graphql.invocation) (w : Graphql.Engine) :
  Graphql.coherent w -> Graphql.coherent (exec (Graphql.invoke i) w).
Proof.
  intros Hw. destruct i as [[d | errors terminal | | type] | | c];
    unfold Graphql.invoke, Graphql.on_message.
  - destruct (Graphql.trace d) as [t|] eqn:Ht.
    + destruct w as [[st|] ps cs f h]; unfold exec.
      * destruct (string_dec (Graphql.cursor d) "") as [Hz | Hnz].
        -- rewrite (GraphqlFacts.gq_onResult_trace_refused d t) by assumption. cbn [fst].
           eapply gq_coherent_extend; [exact Hw|].
           apply transforms_app with (ps' := ps ++ Graphql.payloads d).
           { unfold Graphql.payloads. rewrite Ht. apply gq_transforms_pending. }
           apply transforms_app with (ps' := ps ++ Graphql.payloads d);
             [apply transforms_log | apply gq_transforms_drain].
        -- rewrite (GraphqlFacts.gq_onResult_trace_set d t) by assumption. cbn [fst].
           eapply gq_coherent_extend; [exact Hw|].
           apply transforms_app with (ps' := ps ++ Graphql.payloads d).
           { unfold Graphql.payloads. rewrite Ht. apply gq_transforms_pending. }
           apply transforms_app with (ps' := ps ++ Graphql.payloads d);
             [apply transforms_log | apply gq_transforms_commit].
      * rewrite (GraphqlFacts.gq_onResult_trace_unset d t) by assumption. cbn [fst].
        eapply gq_coherent_extend; [exact Hw|].
        apply transforms_app with (ps' := ps ++ Graphql.payloads d).
        { unfold Graphql.payloads. rewrite Ht. apply gq_transforms_pending. }
        apply transforms_app with (ps' := ps ++ Graphql.payloads d);
          [apply transforms_log | apply gq_transforms_drain].
    + destruct w as [so ps cs f h]. unfold exec.
      rewrite GraphqlFacts.gq_onResult_marker by assumption.
      now apply gq_coherent_onProgress.
  - unfold exec. now rewrite GraphqlFacts.gq_onError.
  - destruct w as [so ps cs f h]. cbn.
    eapply gq_coherent_extend; [exact Hw|]. apply transforms_log.
  - exact Hw.
  - destruct w as [so ps cs f h]. unfold exec.
    rewrite GraphqlFacts.gq_onPostRestart. cbn [fst].
    eapply gq_coherent_extend; [exact Hw|].
    unfold Graphql.restart_events.
    apply (transforms_app [_; _; _; _] [_] ps ps).
    + apply gq_transforms_lines. repeat constructor.
    + apply transforms_flush.
  - destruct w as [[st|] ps cs f h]; unfold exec.
    + destruct (string_dec c "") as [-> | Hnz].
      * rewrite GraphqlFacts.gq_commit_refused. cbn [fst].
        eapply gq_coherent_extend; [exact Hw|]. apply gq_transforms_drain.
      * rewrite GraphqlFacts.gq_commit_set by assumption. cbn [fst].
        eapply gq_coherent_extend; [exact Hw|]. apply gq_transforms_commit.
    + rewrite GraphqlFacts.gq_commit_unset. cbn [fst].
      eapply gq_coherent_extend; [exact Hw|]. apply gq_transforms_drain.
Qed.

Lemma gq_coherent_run (calls : list Graphql.invocation) : forall w,
  Graphql.coherent w -> Graphql.coherent (Graphql.run calls w).
Proof.
  induction calls as [|i calls IH]; intros w Hw; [exact Hw|].
  cbn [Graphql.run fold_left]. apply IH. now apply gq_coherent_invoke.
Qed.

End GraphqlCheckpoints.


(** ** No gap: the block-height engine under reconnections *)

Section BlockHeightNoGap.
Import BlockHeight.

Lemma redeliver_from_incl b src d :
  In d (redeliver_from b src) -> In d src.
Proof.
  induction src as [|x src IH]; cbn [redeliver_from]; [tauto|].
  destruct (block_num x <? b)%N; [|tauto].
  intros Hin. right. now apply IH.
Qed.

Lemma redeliver_from_keeps b src d :
  In d src -> (b <= block_num d)%N -> In d (redeliver_from b src).
Proof.
  induction src as [|x src IH]; cbn [redeliver_from]; [tauto|].
  intros Hin Hle. destruct (block_num x <? b)%N eqn:Hcmp; [|exact Hin].
  destruct Hin as [-> | Hin]; [|now apply IH].
  apply N.ltb_lt in Hcmp. lia.
Qed.

Lemma redeliver_from_ordered b src :
  ordered src -> ordered (redeliver_from b src).
Proof.
  unfold ordered. induction src as [|x src IH]; cbn [redeliver_from]; intros Hs; [exact Hs|].
  destruct (block_num x <? b)%N; [|exact Hs].
  apply IH. now apply StronglySorted_inv in Hs.
Qed.

Lemma no_gap_started (src : list ActionTraceData) :
  ordered src ->
  no_gap (mkSystem (exec (start (mkStream None)) new_Engine) src src).
Proof.
  intros Hs. eexists None, [], 0%N, [], _. cbn [engine source remaining].
  split; [reflexivity|].
  repeat split; auto.
  - intros d _ Hlt. lia.
  - intros a [].
  - intros a [].
Qed.

Lemma no_gap_deliver (sys : System) : no_gap sys -> no_gap (deliver sys).
Proof.
  intros Hinv. unfold deliver.
  destruct (remaining sys) as [|d rest] eqn:Hrem; [exact Hinv|].
  destruct Hinv as (mk & ps & n & cs & h & Hw & Hmk & Hsrc & Hord & Hsub & Hbefore &
                    Hall & Hseen & Hsunk & Hpend & Htop).
  rewrite Hrem in *. rewrite Hw. unfold exec, dispatcher.
  apply StronglySorted_inv in Hord. destruct Hord as [Hrest Hle].
  rewrite Forall_forall in Hle.
  destruct (n <? block_num d)%N eqn:Hcmp.
  - rewrite BlockHeightFacts.bh_onAction_ahead_set by assumption. cbn [fst].
    apply N.ltb_lt in Hcmp.
    eexists (Some (block_num d)), [act d], (block_num d), (cs ++ ps), _.
    cbn [engine source remaining].
    split; [reflexivity|]. split; [now left|]. split; [assumption|].
    split; [assumption|]. split; [intros x Hx; apply Hsub; now right|].
    split; [|split; [|split; [|split; [|split]]]].
    + intros x Hx Hlt. destruct (Hall x Hx) as [[-> | Hin] | [Hin | Hin]].
      * lia.
      * specialize (Hle x Hin). lia.
      * apply in_or_app. now left.
      * apply in_or_app. now right.
    + intros x Hx. destruct (Hall x Hx) as [[-> | Hin] | [Hin | Hin]].
      * right. right. now left.
      * now left.
      * right. left. apply in_or_app. now left.
      * right. left. apply in_or_app. now right.
    + intros x Hx. destruct (Hseen x Hx) as [[-> | Hin] | Hn].
      * right. lia.
      * now left.
      * right. lia.
    + intros a Hin. apply in_app_or in Hin. destruct Hin as [Hin | Hin].
      * destruct (Hsunk a Hin) as (x & Hx & Hact & Hlt). exists x. repeat split; auto. lia.
      * destruct (Hpend a Hin) as (x & Hx & Hact & Hlt). exists x. repeat split; auto. lia.
    + intros a [<- | []]. exists d. repeat split; [apply Hsub; now left | lia].
    + right. exists d. split; [apply Hsub; now left | reflexivity].
  - rewrite BlockHeightFacts.bh_onAction_not_ahead by assumption. cbn [fst].
    apply N.ltb_ge in Hcmp.
    eexists mk, (ps ++ [act d]), n, cs, _. cbn [engine source remaining].
    split; [reflexivity|]. split; [assumption|]. split; [assumption|].
    split; [assumption|]. split; [intros x Hx; apply Hsub; now right|].
    split; [assumption|]. split; [|split; [|split; [|split]]].
    + intros x Hx. destruct (Hall x Hx) as [[-> | Hin] | [Hin | Hin]].
      * right. right. apply in_or_app. right. now left.
      * now left.
      * right. now left.
      * right. right. apply in_or_app. now left.
    + intros x Hx. destruct (Hseen x Hx) as [[-> | Hin] | Hn].
      * now right.
      * now left.
      * now right.
    + assumption.
    + intros a Hin. apply in_app_or in Hin. destruct Hin as [Hin | [<- | []]].
      * now apply Hpend.
      * exists d. repeat split; [apply Hsub; now left | assumption].
    + assumption.
Qed.

Lemma no_gap_reconnect (sys : System) : no_gap sys -> no_gap (reconnect sys).
Proof.
  intros (mk & ps & n & cs & h & Hw & Hmk & Hsrc & Hord & Hsub & Hbefore &
          Hall & Hseen & Hsunk & Hpend & Htop).
  unfold reconnect. rewrite Hw. unfold exec.
  rewrite BlockHeightFacts.bh_onPostRestart. cbn [fst marked stream marker].
  eexists mk, [], n, cs, _. cbn [engine source remaining].
  split; [reflexivity|]. split; [assumption|]. split; [assumption|].
  destruct Hmk as [-> | [-> ->]]; cbn [resume].
  - split; [now apply redeliver_from_ordered|].
    split; [intros d; apply redeliver_from_incl|].
    split; [assumption|]. split; [|split; [|split; [|split]]].
    + intros d Hd. destruct (N.lt_ge_cases (block_num d) n) as [Hlt | Hge].
      * right. left. now apply Hbefore.
      * left. now apply redeliver_from_keeps.
    + intros d Hd. destruct (N.lt_ge_cases (block_num d) n) as [Hlt | Hge].
      * right. lia.
      * left. now apply redeliver_from_keeps.
    + assumption.
    + intros a [].
    + assumption.
  - split; [assumption|]. split; [auto|]. split; [assumption|].
    split; [auto|]. split; [auto|]. split; [assumption|].
    split; [intros a [] | assumption].
Qed.

Lemma no_gap_schedule (schedule : list step) : forall sys,
  no_gap sys -> no_gap (fold_left system_step schedule sys).
Proof.
  induction schedule as [|s schedule IH]; intros sys Hinv; [exact Hinv|].
  cbn [fold_left]. apply IH. destruct s; [now apply no_gap_deliver | now apply no_gap_reconnect].
Qed.

Lemma drain_deliver (sys : System) : drain (deliver sys) = drain sys.
Proof.
  destruct sys as [w src [|d rest]]; reflexivity.
Qed.

Lemma no_gap_drain : forall (rest : list ActionTraceData) (sys : System),
  remaining sys = rest ->
  no_gap sys ->
  no_gap (mkSystem (drain sys) (source sys) []).
Proof.
  induction rest as [|d rest IH]; intros sys Hrem Hinv.
  - unfold drain. rewrite Hrem. cbn [fold_left].
    destruct sys as [w src rem]. cbn in *. now subst rem.
  - rewrite <- drain_deliver.
    replace (source sys) with (source (deliver sys))
      by (unfold deliver; now rewrite Hrem).
    apply IH.
    + unfold deliver. now rewrite Hrem.
    + now apply no_gap_deliver.
Qed.

Lemma no_gap_consume (schedule : list step) (src : list ActionTraceData) :
  ordered src ->
  no_gap (mkSystem (consume schedule src) src []).
Proof.
  intros Hs. unfold consume.
  pose proof (no_gap_schedule schedule _ (no_gap_started src Hs)) as Hinv.
  set (sys := fold_left system_step schedule _) in *.
  assert (Hsrc : source sys = src).
  { subst sys. clear Hinv. generalize (exec (start (mkStream None)) new_Engine).
    generalize src at 2 as rem. induction schedule as [|s schedule IH]; intros rem w.
    - reflexivity.
    - cbn [fold_left]. destruct s; cbn [system_step].
      + unfold deliver. cbn [remaining]. destruct rem; apply IH.
      + unfold reconnect. apply IH. }
  rewrite <- Hsrc at 1. now apply (no_gap_drain (remaining sys)).
Qed.

End BlockHeightNoGap.

(** ** No gap: the cursor engine under reconnections *)

Section GraphqlNoGap.
Import Graphql.

Lemma before_redeliver_from c src : src = before c src ++ redeliver_from c src.
Proof.
  induction src as [|d src IH]; cbn [before redeliver_from]; [reflexivity|].
  destruct (String.eqb (cursor d) c); [reflexivity|].
  cbn [app]. now rewrite <- IH.
Qed.

Lemma before_within pre d rest x :
  In x (before (cursor d) (pre ++ d :: rest)) -> In x pre.
Proof.
  induction pre as [|p pre IH]; cbn [app before].
  - now rewrite String.eqb_refl.
  - destruct (String.eqb (cursor p) (cursor d)); [intros []|].
    intros [-> | Hin]; [now left | right; now apply IH].
Qed.

Lemma gq_data_event d mk cs f h :
  exists mk' f' h',
    exec (on_message (data d)) (mkEngine (Some (mkStream mk)) [] cs f h) =
    mkEngine (Some (mkStream mk')) [] (cs ++ payloads d) f' h' /\
    (mk' = Some (cursor d) \/ mk' = mk).
Proof.
  unfold exec, on_message. destruct (trace d) as [t|] eqn:Ht.
  - destruct (string_dec (cursor d) "") as [Hz | Hnz].
    + rewrite (GraphqlFacts.gq_onResult_trace_refused d t) by assumption.
      cbn [fst app]. eexists mk, _, _. split; [reflexivity | now right].
    + rewrite (GraphqlFacts.gq_onResult_trace_set d t) by assumption.
      cbn [fst app]. eexists _, _, _. split; [reflexivity | now left].
  - rewrite GraphqlFacts.gq_onResult_marker by assumption.
    unfold payloads. rewrite Ht.
    destruct (string_dec (cursor d) "") as [Hz | Hnz].
    + rewrite Hz, GraphqlFacts.gq_onProgress_refused. cbn [fst].
      eexists mk, _, _. split; [reflexivity | now right].
    + rewrite GraphqlFacts.gq_onProgress_set by assumption. cbn [fst].
      eexists _, _, _. split; [reflexivity | now left].
Qed.

Lemma gq_no_gap_started (src : list SearchTransactionsForward) :
  no_gap (mkSystem (exec (run_start (mkStream None)) (new_Engine None)) src src).
Proof.
  eexists None, [], None, _. cbn [engine source remaining].
  split; [reflexivity|]. split; [|split].
  - exists []. split; [reflexivity | intros d []].
  - intros c Hc. discriminate Hc.
  - intros a [].
Qed.

Lemma gq_no_gap_deliver (sys : System) : no_gap sys -> no_gap (deliver sys).
Proof.
  intros Hinv. unfold deliver.
  destruct (remaining sys) as [|d rest] eqn:Hrem; [exact Hinv|].
  destruct Hinv as (mk & cs & f & h & Hw & (pre & Hsrc & Hpre) & Hmk & Honly).
  rewrite Hrem in Hsrc. rewrite Hw.
  destruct (gq_data_event d mk cs f h) as (mk' & f' & h' & -> & Hmk').
  eexists mk', (cs ++ payloads d), f', h'.
  cbn [engine source remaining].
  split; [reflexivity|]. split; [|split].
  - exists (pre ++ [d]). split; [now rewrite <- app_assoc|].
    intros x Hx a Ha. apply in_or_app. apply in_app_or in Hx.
    destruct Hx as [Hx | [<- | []]]; [left; now apply (Hpre x) | now right].
  - intros c Hc x Hx a Ha. apply in_or_app. left.
    destruct Hmk' as [-> | ->].
    + injection Hc as <-.
      rewrite Hsrc in Hx. apply before_within in Hx.
      now apply (Hpre x).
    + now apply (Hmk c Hc x).
  - intros a Ha. apply in_app_or in Ha. destruct Ha as [Ha | Ha].
    + now apply Honly.
    + exists d. split; [|assumption]. rewrite Hsrc. apply in_or_app. right. now left.
Qed.

Lemma gq_no_gap_reconnect (sys : System) : no_gap sys -> no_gap (reconnect sys).
Proof.
  intros (mk & cs & f & h & Hw & (pre & Hsrc & Hpre) & Hmk & Honly).
  unfold reconnect. rewrite Hw. unfold exec.
  rewrite GraphqlFacts.gq_onPostRestart. cbn [fst marked stream marker].
  eexists mk, cs, f, _. cbn [engine source remaining].
  split; [reflexivity|]. split; [|split; assumption].
  destruct mk as [c|]; cbn [resume].
  - exists (before c (source sys)). split; [apply before_redeliver_from|].
    now apply Hmk.
  - exists []. split; [reflexivity | intros d []].
Qed.

Lemma gq_no_gap_schedule (schedule : list step) : forall sys,
  no_gap sys -> no_gap (fold_left system_step schedule sys).
Proof.
  induction schedule as [|s schedule IH]; intros sys Hinv; [exact Hinv|].
  cbn [fold_left]. apply IH.
  destruct s; [now apply gq_no_gap_deliver | now apply gq_no_gap_reconnect].
Qed.

Lemma gq_drain_deliver (sys : System) : drain (deliver sys) = drain sys.
Proof.
  destruct sys as [w src [|d rest]]; reflexivity.
Qed.

Lemma gq_no_gap_drain : forall (rest : list SearchTransactionsForward) (sys : System),
  remaining sys = rest ->
  no_gap sys ->
  no_gap (mkSystem (drain sys) (source sys) []).
Proof.
  induction rest as [|d rest IH]; intros sys Hrem Hinv.
  - unfold drain. rewrite Hrem. cbn [fold_left].
    destruct sys as [w src rem]. cbn in *. now subst rem.
  - rewrite <- gq_drain_deliver.
    replace (source sys) with (source (deliver sys))
      by (unfold deliver; now rewrite Hrem).
    apply IH.
    + unfold deliver. now rewrite Hrem.
    + now apply gq_no_gap_deliver.
Qed.

Lemma gq_no_gap_consume (schedule : list step) (src : list SearchTransactionsForward) :
  no_gap (mkSystem (consume schedule src) src []).
Proof.
  unfold consume.
  pose proof (gq_no_gap_schedule schedule _ (gq_no_gap_started src)) as Hinv.
  set (sys := fold_left system_step schedule _) in *.
  assert (Hsrc : source sys = src).
  { subst sys. clear Hinv.
    generalize (exec (run_start (mkStream None)) (new_Engine None)).
    generalize src at 2 as rem. induction schedule as [|s schedule IH]; intros rem w.
    - reflexivity.
    - cbn [fold_left]. destruct s; cbn [system_step].
      + unfold deliver. cbn [remaining]. destruct rem; apply IH.
      + unfold reconnect. apply IH. }
  rewrite <- Hsrc at 1. now apply (gq_no_gap_drain (remaining sys)).
Qed.

End GraphqlNoGap.

(** ** Checkpoints and positions *)

Section NoCheckpointBeforeDrain.

Lemma bh_coherent_started (st : BlockHeight.Stream) :
  BlockHeight.coherent (exec (BlockHeight.start st) BlockHeight.new_Engine).
Proof. cbv. auto. Qed.

Lemma gq_coherent_started (st : Graphql.Stream) (file : option string) :
  Graphql.coherent (exec (Graphql.run_start st) (Graphql.new_Engine file)).
Proof. destruct file; cbv; auto. Qed.

Lemma bh_received_app (hs hs' : list BlockHeight.handler) :
  BlockHeight.received (hs ++ hs') = BlockHeight.received hs ++ BlockHeight.received hs'.
Proof. apply flat_map_app. Qed.

Lemma bh_placed_started :
  BlockHeight.placed []
    (exec (BlockHeight.start (BlockHeight.mkStream None)) BlockHeight.new_Engine).
Proof.
  eexists None, [], 0%N, [], _, [], [].
  split; [reflexivity|]. split; [right; split; reflexivity|].
  split; [reflexivity|]. split; [reflexivity|]. split; [reflexivity|].
  split; constructor.
Qed.

Lemma bh_placed_handle (h : BlockHeight.handler) (seen : list BlockHeight.handler)
    (w : BlockHeight.Engine) :
  BlockHeight.placed seen w ->
  (BlockHeight.lastCommittedBlockNum w <= BlockHeight.position h)%N ->
  BlockHeight.placed (seen ++ [h]) (exec (BlockHeight.invoke (BlockHeight.handle h)) w) /\
  BlockHeight.lastCommittedBlockNum (exec (BlockHeight.invoke (BlockHeight.handle h)) w) =
    BlockHeight.position h.
Proof.
  intros (mk & ps & n & cs & hist & sunk & held & -> & Hmk & Hrec & -> & -> & Hsunk & Hheld) Hle.
  cbn [BlockHeight.lastCommittedBlockNum] in Hle.
  assert (Hdrain : forall b, (n <= b)%N ->
            Forall (fun d => (BlockHeight.block_num d <= b)%N) (sunk ++ held)).
  { intros b Hb. apply Forall_app. split.
    - eapply Forall_impl; [|exact Hsunk]. cbn. intros d Hd. lia.
    - eapply Forall_impl; [|exact Hheld]. cbn. intros d Hd. lia. }
  unfold BlockHeight.placed, exec. rewrite bh_received_app, Hrec.
  destruct h as [d | d | blockId blockNum];
    cbn [BlockHeight.handle BlockHeight.invoke BlockHeight.dispatcher BlockHeight.position
         BlockHeight.received flat_map app] in *.
  - destruct (n <? BlockHeight.block_num d)%N eqn:Hcmp.
    + rewrite BlockHeightFacts.bh_onAction_ahead_set by assumption.
      cbn [fst BlockHeight.lastCommittedBlockNum].
      apply N.ltb_lt in Hcmp. split; [|reflexivity].
      eexists (Some (BlockHeight.block_num d)), _, _, _, _, (sunk ++ held), [d].
      split; [reflexivity|]. split; [left; split; [reflexivity | lia]|].
      split; [reflexivity|]. split; [now rewrite map_app|]. split; [reflexivity|].
      split; [apply Hdrain; lia | repeat constructor].
    + rewrite BlockHeightFacts.bh_onAction_not_ahead by assumption.
      cbn [fst BlockHeight.lastCommittedBlockNum].
      apply N.ltb_ge in Hcmp. split; [|lia].
      eexists mk, _, n, _, _, sunk, (held ++ [d]).
      split; [reflexivity|]. split; [exact Hmk|].
      split; [now rewrite <- app_assoc|]. split; [reflexivity|].
      split; [now rewrite map_app|]. split; [exact Hsunk|].
      apply Forall_app. split; [exact Hheld|]. repeat constructor. lia.
  - destruct (N.eq_dec (BlockHeight.progress_block_num d) 0) as [Hz | Hnz].
    + rewrite BlockHeightFacts.bh_onProgress_refused by assumption.
      cbn [fst BlockHeight.lastCommittedBlockNum]. split; [|now rewrite Hz].
      eexists mk, _, _, _, _, (sunk ++ held), [].
      split; [reflexivity|].
      split; [right; destruct Hmk as [[_ Hn] | [-> _]]; [lia | split; reflexivity]|].
      split; [now rewrite !app_nil_r|]. split; [now rewrite map_app|].
      split; [reflexivity|]. split; [apply Hdrain; lia | constructor].
    + rewrite BlockHeightFacts.bh_onProgress_set by assumption.
      cbn [fst BlockHeight.lastCommittedBlockNum]. split; [|reflexivity].
      eexists (Some (BlockHeight.progress_block_num d)), _, _, _, _, (sunk ++ held), [].
      split; [reflexivity|]. split; [left; split; [reflexivity | exact Hnz]|].
      split; [now rewrite !app_nil_r|]. split; [now rewrite map_app|].
      split; [reflexivity|]. split; [apply Hdrain; lia | constructor].
  - destruct (N.eq_dec blockNum 0) as [-> | Hnz].
    + rewrite BlockHeightFacts.bh_commit_refused.
      cbn [fst BlockHeight.lastCommittedBlockNum]. split; [|reflexivity].
      eexists mk, _, _, _, _, (sunk ++ held), [].
      split; [reflexivity|].
      split; [right; destruct Hmk as [[_ Hn] | [-> _]]; [lia | split; reflexivity]|].
      split; [now rewrite !app_nil_r|]. split; [now rewrite map_app|].
      split; [reflexivity|]. split; [apply Hdrain; lia | constructor].
    + rewrite BlockHeightFacts.bh_commit_set by assumption.
      cbn [fst BlockHeight.lastCommittedBlockNum]. split; [|reflexivity].
      eexists (Some blockNum), _, _, _, _, (sunk ++ held), [].
      split; [reflexivity|]. split; [left; split; [reflexivity | exact Hnz]|].
      split; [now rewrite !app_nil_r|]. split; [now rewrite map_app|].
      split; [reflexivity|]. split; [apply Hdrain; lia | constructor].
Qed.

Lemma bh_placed_run (hs : list BlockHeight.handler) : forall seen w,
  BlockHeight.placed seen w ->
  BlockHeight.positions_ordered hs ->
  Forall (fun h => (BlockHeight.lastCommittedBlockNum w <= BlockHeight.position h)%N) hs ->
  BlockHeight.placed (seen ++ hs) (BlockHeight.run (map BlockHeight.handle hs) w).
Proof.
  induction hs as [|h hs IH]; intros seen w Hw Hord Hle.
  - rewrite app_nil_r. exact Hw.
  - change (BlockHeight.run (map BlockHeight.handle (h :: hs)) w)
      with (BlockHeight.run (map BlockHeight.handle hs)
              (exec (BlockHeight.invoke (BlockHeight.handle h)) w)).
    apply StronglySorted_inv in Hord. destruct Hord as [Hord Hall].
    destruct (bh_placed_handle h seen w Hw) as [Hw' Hn]; [now inversion Hle|].
    replace (seen ++ h :: hs) with ((seen ++ [h]) ++ hs) by now rewrite <- app_assoc.
    apply IH; [exact Hw' | exact Hord |]. rewrite Hn. exact Hall.
Qed.

Lemma gq_cursor_invoke (file : option string) (i : Graphql.invocation) mk cs f h :
  (mk = None /\ f = file) \/ (exists c, mk = Some c /\ f = Some c) ->
  exists f' h',
    exec (Graphql.invoke i) (Graphql.mkEngine (Some (Graphql.mkStream mk)) [] cs f h) =
      Graphql.mkEngine (Some (Graphql.mkStream (Graphql.next_cursor mk i))) []
                       (cs ++ Graphql.arrivals [i]) f' h' /\
    ((Graphql.next_cursor mk i = None /\ f' = file) \/
     (exists c, Graphql.next_cursor mk i = Some c /\ f' = Some c)).
Proof.
  intros Hinv. unfold exec, Graphql.invoke, Graphql.on_message, Graphql.next_cursor.
  destruct i as [[d | errors terminal | | type] | | c];
    cbn [Graphql.cursor_of Graphql.arrivals flat_map]; rewrite ?app_nil_r.
  - destruct (String.eqb_spec (Graphql.cursor d) "") as [Hz | Hnz].
    + destruct (Graphql.trace d) as [t|] eqn:Ht.
      * rewrite (GraphqlFacts.gq_onResult_trace_refused d t) by assumption.
        cbn [fst app]. do 2 eexists. split; [reflexivity | exact Hinv].
      * rewrite GraphqlFacts.gq_onResult_marker by assumption.
        rewrite Hz, GraphqlFacts.gq_onProgress_refused. cbn [fst].
        unfold Graphql.payloads. rewrite Ht, app_nil_r.
        do 2 eexists. split; [reflexivity | exact Hinv].
    + destruct (Graphql.trace d) as [t|] eqn:Ht.
      * rewrite (GraphqlFacts.gq_onResult_trace_set d t) by assumption.
        cbn [fst app]. do 2 eexists. split; [reflexivity | right; eauto].
      * rewrite GraphqlFacts.gq_onResult_marker by assumption.
        rewrite GraphqlFacts.gq_onProgress_set by assumption. cbn [fst].
        unfold Graphql.payloads. rewrite Ht, app_nil_r.
        do 2 eexists. split; [reflexivity | right; eauto].
  - rewrite GraphqlFacts.gq_onError. do 2 eexists. split; [reflexivity | exact Hinv].
  - do 2 eexists. split; [reflexivity | exact Hinv].
  - do 2 eexists. split; [reflexivity | exact Hinv].
  - rewrite GraphqlFacts.gq_onPostRestart. do 2 eexists. split; [reflexivity | exact Hinv].
  - destruct (String.eqb_spec c "") as [-> | Hnz].
    + rewrite GraphqlFacts.gq_commit_refused. cbn [fst]. rewrite app_nil_r.
      do 2 eexists. split; [reflexivity | exact Hinv].
    + rewrite GraphqlFacts.gq_commit_set by assumption. cbn [fst]. rewrite app_nil_r.
      do 2 eexists. split; [reflexivity | right; eauto].
Qed.

Lemma gq_cursor_run (file : option string) (calls : list Graphql.invocation) :
  forall mk cs f h,
    (mk = None /\ f = file) \/ (exists c, mk = Some c /\ f = Some c) ->
    exists f' h',
      Graphql.run calls (Graphql.mkEngine (Some (Graphql.mkStream mk)) [] cs f h) =
        Graphql.mkEngine (Some (Graphql.mkStream (fold_left Graphql.next_cursor calls mk))) []
                         (cs ++ Graphql.arrivals calls) f' h' /\
      ((fold_left Graphql.next_cursor calls mk = None /\ f' = file) \/
       (exists c, fold_left Graphql.next_cursor calls mk = Some c /\ f' = Some c)).
Proof.
  induction calls as [|i calls IH]; intros mk cs f h Hinv.
  - cbn. rewrite app_nil_r. do 2 eexists. split; [reflexivity | exact Hinv].
  - change (Graphql.run (i :: calls) (Graphql.mkEngine (Some (Graphql.mkStream mk)) [] cs f h))
      with (Graphql.run calls
              (exec (Graphql.invoke i)
                    (Graphql.mkEngine (Some (Graphql.mkStream mk)) [] cs f h))).
    destruct (gq_cursor_invoke file i mk cs f h Hinv) as (f1 & h1 & -> & H1).
    destruct (IH _ (cs ++ Graphql.arrivals [i]) f1 h1 H1) as (f2 & h2 & -> & H2).
    cbn [fold_left]. exists f2, h2. split; [|exact H2].
    f_equal. unfold Graphql.arrivals. cbn [flat_map]. now rewrite app_nil_r, <- app_assoc.
Qed.

Lemma bh_source_schedule (schedule : list BlockHeight.step) : forall sys,
  BlockHeight.source (fold_left BlockHeight.system_step schedule sys) = BlockHeight.source sys.
Proof.
  induction schedule as [|s schedule IH]; intros sys; [reflexivity|].
  cbn [fold_left]. rewrite IH. destruct s; cbn [BlockHeight.system_step].
  - unfold BlockHeight.deliver. now destruct (BlockHeight.remaining sys).
  - reflexivity.
Qed.

Lemma gq_source_schedule (schedule : list Graphql.step) : forall sys,
  Graphql.source (fold_left Graphql.system_step schedule sys) = Graphql.source sys.
Proof.
  induction schedule as [|s schedule IH]; intros sys; [reflexivity|].
  cbn [fold_left]. rewrite IH. destruct s; cbn [Graphql.system_step].
  - unfold Graphql.deliver. now destruct (Graphql.remaining sys).
  - reflexivity.
Qed.

(** C1, as the code has it.  Whatever the invocations made on a started
    engine, each mark and each persist happens with the Pending Buffer
    drained: the buffer is empty, and the payloads received since the last
    reconnection flush are exactly those sunk since then, in arrival order.
    On a block-height engine started with an unmarked stream, after data
    events, progress events and commits made at block numbers that never
    decrease, the data events received are those whose payloads are in the
    sink followed by those whose payloads are pending, and a marked position
    is at or after the block of each payload in the sink and at or before
    the block of each payload pending: the mark is never ahead of a received
    payload that is not in the sink, and it may be ahead of the last payload
    sunk.  On a cursor engine started with an unmarked stream, after any
    invocations, no payload is pending, the sink holds the payloads received,
    the stream is marked at the last cursor, other than the empty string,
    that an invocation was made at, and the cursor file holds the marked
    cursor, or is as it was at the start when nothing is marked.  Under the
    transport, with its reconnections, every payload of the source that a
    redelivery from the marked position leaves out is in the sink. *)
Theorem checkpoints_follow_drain
    (bcalls : list BlockHeight.invocation) (bst : BlockHeight.Stream)
    (gcalls : list Graphql.invocation) (gst : Graphql.Stream) (file : option string)
    (hs : list BlockHeight.handler)
    (bschedule : list BlockHeight.step) (bsrc : list BlockHeight.ActionTraceData)
    (gschedule : list Graphql.step) (gsrc : list Graphql.SearchTransactionsForward) :
  (forall pre e post,
     BlockHeight.history
       (BlockHeight.run bcalls (exec (BlockHeight.start bst) BlockHeight.new_Engine)) =
       pre ++ e :: post ->
     is_checkpoint e = true ->
     drained (replay view0 pre)) /\
  (forall pre e post,
     Graphql.history
       (Graphql.run gcalls (exec (Graphql.run_start gst) (Graphql.new_Engine file))) =
       pre ++ e :: post ->
     is_checkpoint e = true ->
     drained (replay view0 pre)) /\
  (BlockHeight.positions_ordered hs ->
   let w := BlockHeight.run (map BlockHeight.handle hs)
              (exec (BlockHeight.start (BlockHeight.mkStream None)) BlockHeight.new_Engine) in
   exists sunk held,
     BlockHeight.received hs = sunk ++ held /\
     BlockHeight.committedActions w = map BlockHeight.act sunk /\
     BlockHeight.pendingActions w = map BlockHeight.act held /\
     forall P, BlockHeight.marked w = Some P ->
       Forall (fun d => (BlockHeight.block_num d <= P)%N) sunk /\
       Forall (fun d => (P <= BlockHeight.block_num d)%N) held) /\
  (let w := Graphql.run gcalls
              (exec (Graphql.run_start (Graphql.mkStream None)) (Graphql.new_Engine file)) in
   Graphql.pendingActions w = [] /\
   Graphql.committedActions w = Graphql.arrivals gcalls /\
   Graphql.marked w = Graphql.last_cursor gcalls /\
   (forall c, Graphql.marked w = Some c -> Graphql.last_cursor_file w = Some c) /\
   (Graphql.marked w = None -> Graphql.last_cursor_file w = file)) /\
  (BlockHeight.ordered bsrc ->
   let w := BlockHeight.engine
              (fold_left BlockHeight.system_step bschedule
                 (BlockHeight.mkSystem
                    (exec (BlockHeight.start (BlockHeight.mkStream None))
                          BlockHeight.new_Engine) bsrc bsrc)) in
   forall P, BlockHeight.marked w = Some P ->
     forall d, In d bsrc -> (BlockHeight.block_num d < P)%N ->
       In (BlockHeight.act d) (BlockHeight.committedActions w)) /\
  (let w := Graphql.engine
              (fold_left Graphql.system_step gschedule
                 (Graphql.mkSystem
                    (exec (Graphql.run_start (Graphql.mkStream None))
                          (Graphql.new_Engine None)) gsrc gsrc)) in
   forall c, Graphql.marked w = Some c ->
     forall d, In d (Graphql.before c gsrc) ->
       forall a, In a (Graphql.payloads d) -> In a (Graphql.committedActions w)).
Proof.
  split; [|split; [|split; [|split; [|split]]]].
  - intros pre e post Hh He.
    destruct (bh_coherent_run bcalls _ (bh_coherent_started bst)) as [Hc _].
    exact (checkpoints_drained_at _ _ _ _ _ Hc Hh He).
  - intros pre e post Hh He.
    destruct (gq_coherent_run gcalls _ (gq_coherent_started gst file)) as [Hc _].
    exact (checkpoints_drained_at _ _ _ _ _ Hc Hh He).
  - intros Hord. cbv zeta.
    destruct (bh_placed_run hs [] _ bh_placed_started Hord)
      as (mk & ps & n & cs & hist & sunk & held & -> & Hmk & Hrec & -> & -> & Hsunk & Hheld).
    { apply Forall_forall. intros h _. cbn. lia. }
    exists sunk, held. cbn [app] in Hrec.
    split; [exact Hrec|]. split; [reflexivity|]. split; [reflexivity|].
    intros P HP. cbn in HP.
    destruct Hmk as [[-> _] | [-> _]]; [|discriminate HP].
    injection HP as <-. split; [exact Hsunk|].
    eapply Forall_impl; [|exact Hheld]. cbn. intros d Hd. lia.
  - cbv zeta.
    assert (Hstart : exists h,
              exec (Graphql.run_start (Graphql.mkStream None)) (Graphql.new_Engine file) =
              Graphql.mkEngine (Some (Graphql.mkStream None)) [] [] file h).
    { destruct file; eexists; reflexivity. }
    destruct Hstart as [h ->].
    destruct (gq_cursor_run file gcalls None [] file h) as (f' & h' & -> & Hinv);
      [now left|].
    fold (Graphql.last_cursor gcalls) in *.
    unfold Graphql.marked. cbn [Graphql.pendingActions Graphql.committedActions
                                Graphql.stream Graphql.marker Graphql.last_cursor_file app].
    split; [reflexivity|]. split; [reflexivity|]. split; [reflexivity|].
    split.
    + intros c Hc. destruct Hinv as [[Hn _] | [c' [Hc' ->]]]; congruence.
    + intros Hn. destruct Hinv as [[_ ->] | [c' [Hc' _]]]; [reflexivity | congruence].
  - intros Hord. cbv zeta.
    pose proof (no_gap_schedule bschedule _ (no_gap_started bsrc Hord)) as Hinv.
    destruct Hinv as (mk & ps & n & cs & h & Hw & Hmk & _ & _ & _ & Hbefore & _).
    rewrite bh_source_schedule in Hbefore. cbn [BlockHeight.source] in Hbefore.
    rewrite Hw. unfold BlockHeight.marked.
    cbn [BlockHeight.stream BlockHeight.marker BlockHeight.committedActions].
    intros P HP d Hd Hlt. apply Hbefore; [exact Hd|].
    destruct Hmk as [-> | [-> _]]; [|discriminate HP]. now injection HP as <-.
  - cbv zeta.
    pose proof (gq_no_gap_schedule gschedule _ (gq_no_gap_started gsrc)) as Hinv.
    destruct Hinv as (mk & cs & f & h & Hw & _ & Hmk & _).
    rewrite gq_source_schedule in Hmk. cbn [Graphql.source] in Hmk.
    rewrite Hw. unfold Graphql.marked.
    cbn [Graphql.stream Graphql.marker Graphql.committedActions].
    intros c Hc. now apply Hmk.
Qed.

(** The history agrees with the engine: replayed, it gives the Pending
    Buffer the engine holds. *)
Lemma history_gives_pending
    (bcalls : list BlockHeight.invocation) (bst : BlockHeight.Stream)
    (gcalls : list Graphql.invocation) (gst : Graphql.Stream) (file : option string) :
  let bw := BlockHeight.run bcalls (exec (BlockHeight.start bst) BlockHeight.new_Engine) in
  let gw := Graphql.run gcalls (exec (Graphql.run_start gst) (Graphql.new_Engine file)) in
  v_pending (replay view0 (BlockHeight.history bw)) = BlockHeight.pendingActions bw /\
  v_pending (replay view0 (Graphql.history gw)) = Graphql.pendingActions gw.
Proof.
  cbv zeta. split.
  - now destruct (bh_coherent_run bcalls _ (bh_coherent_started bst)) as [_ [_ Hp]].
  - now destruct (gq_coherent_run gcalls _ (gq_coherent_started gst file)) as [_ [_ Hp]].
Qed.

(** An instance: an action of block 5 and one of block 6 on the
    block-height engine, a data event and a live marker on the cursor
    engine.  The mark at block 6 and the persist of the cursor of the live
    marker find the buffer drained; the block-height engine, marked at 6,
    has the action of block 5 in the sink and that of block 6 pending; and
    after a reconnection the action of block 5, which a redelivery from the
    mark leaves out, is in the sink. *)
Lemma checkpoints_follow_drain_witness :
  let T5 := BlockHeight.mkAction "therealkarma" "transfer"
              (BlockHeight.mkKarmaTransfer "alice" "bob" "1 KARMA" "") in
  let T6 := BlockHeight.mkAction "therealkarma" "transfer"
              (BlockHeight.mkKarmaTransfer "bob" "carol" "2 KARMA" "") in
  let d5 := BlockHeight.mkActionTraceData "00000005" 5 T5 in
  let d6 := BlockHeight.mkActionTraceData "00000006" 6 T6 in
  let bcalls :=
    [BlockHeight.Message (BlockHeight.action_trace d5);
     BlockHeight.Message (BlockHeight.action_trace d6)] in
  let hs := [BlockHeight.OnData d5; BlockHeight.OnData d6] in
  let bschedule := [BlockHeight.Deliver; BlockHeight.Deliver; BlockHeight.Reconnect] in
  let G := Graphql.mkTransfer "alice" "bob" "1 KARMA" in
  let gcalls :=
    [Graphql.Message (Graphql.data
       (Graphql.mkResult false "c5" (Graphql.mkBlock "00000005" 5)
          (Some (Graphql.mkTrace [Graphql.mkMatchingAction G]))));
     Graphql.Message (Graphql.data
       (Graphql.mkResult false "c15" (Graphql.mkBlock "0000000f" 15) None))] in
  let bw := BlockHeight.run bcalls
              (exec (BlockHeight.start (BlockHeight.mkStream None)) BlockHeight.new_Engine) in
  let gw := Graphql.run gcalls
              (exec (Graphql.run_start (Graphql.mkStream None)) (Graphql.new_Engine None)) in
  let sw := BlockHeight.engine
              (fold_left BlockHeight.system_step bschedule
                 (BlockHeight.mkSystem
                    (exec (BlockHeight.start (BlockHeight.mkStream None))
                          BlockHeight.new_Engine) [d5; d6] [d5; d6])) in
  (exists pre post,
     BlockHeight.history bw = pre ++ Mark 6%N :: post /\ drained (replay view0 pre)) /\
  (exists pre post,
     Graphql.history gw = pre ++ Persist "c15" :: post /\ drained (replay view0 pre)) /\
  BlockHeight.positions_ordered hs /\
  (exists sunk held,
     BlockHeight.received hs = sunk ++ held /\
     BlockHeight.committedActions bw = map BlockHeight.act sunk /\
     BlockHeight.pendingActions bw = map BlockHeight.act held /\
     Forall (fun d => (BlockHeight.block_num d <= 6)%N) sunk /\
     Forall (fun d => (6 <= BlockHeight.block_num d)%N) held) /\
  Graphql.marked gw = Some "c15" /\
  Graphql.last_cursor_file gw = Some "c15" /\
  BlockHeight.ordered [d5; d6] /\
  BlockHeight.marked sw = Some 6%N /\
  In T5 (BlockHeight.committedActions sw).
Proof.
  intros T5 T6 d5 d6 bcalls hs bschedule G gcalls bw gw sw.
  assert (Hpos : BlockHeight.positions_ordered hs).
  { unfold BlockHeight.positions_ordered, hs.
    repeat (constructor; [|repeat constructor; cbn; lia]). constructor. }
  assert (Hsrc : BlockHeight.ordered [d5; d6]).
  { unfold BlockHeight.ordered.
    repeat (constructor; [|repeat constructor; cbn; lia]). constructor. }
  pose proof (checkpoints_follow_drain bcalls (BlockHeight.mkStream None)
                gcalls (Graphql.mkStream None) None hs bschedule [d5; d6] [] [])
    as [Hb [Hg [Hplaced [Hcursor [Hsys _]]]]].
  split; [|split; [|split; [|split; [|split; [|split; [|split; [|split]]]]]]].
  - exists (firstn 21 (BlockHeight.history bw)), (skipn 22 (BlockHeight.history bw)).
    split; [reflexivity|].
    apply (Hb (firstn 21 (BlockHeight.history bw)) (Mark 6%N)
              (skipn 22 (BlockHeight.history bw))); reflexivity.
  - exists (firstn 12 (Graphql.history gw)), (skipn 13 (Graphql.history gw)).
    split; [reflexivity|].
    apply (Hg (firstn 12 (Graphql.history gw)) (Persist "c15")
              (skipn 13 (Graphql.history gw))); reflexivity.
  - exact Hpos.
  - destruct (Hplaced Hpos) as (sunk & held & Hrec & Hcs & Hps & Hmark).
    exists sunk, held. split; [exact Hrec|]. split; [exact Hcs|]. split; [exact Hps|].
    apply (Hmark 6%N). reflexivity.
  - reflexivity.
  - apply (proj1 (proj2 (proj2 (proj2 Hcursor))) "c15"). reflexivity.
  - exact Hsrc.
  - reflexivity.
  - apply (Hsys Hsrc 6%N eq_refl d5); [now left | reflexivity].
Defined.

(** C1, as stated, fails on the block-height engine: the action [T5] of
    block 5 is followed by an action of block 6; the engine then sinks [T5]
    and marks the stream at block 6, ahead of the position of the only, and
    so of the last, payload in the sink. *)
Lemma block_height_mark_ahead_of_last_sunk :
  let T5 := BlockHeight.mkAction "therealkarma" "transfer"
              (BlockHeight.mkKarmaTransfer "alice" "bob" "1 KARMA" "") in
  let T6 := BlockHeight.mkAction "therealkarma" "transfer"
              (BlockHeight.mkKarmaTransfer "bob" "carol" "2 KARMA" "") in
  let d5 := BlockHeight.mkActionTraceData "00000005" 5 T5 in
  let d6 := BlockHeight.mkActionTraceData "00000006" 6 T6 in
  let w := BlockHeight.run
             [BlockHeight.Message (BlockHeight.action_trace d5);
              BlockHeight.Message (BlockHeight.action_trace d6)]
             (exec (BlockHeight.start (BlockHeight.mkStream None)) BlockHeight.new_Engine) in
  BlockHeight.committedActions w = [BlockHeight.act d5] /\
  BlockHeight.marked w = Some 6%N /\
  (BlockHeight.block_num d5 < 6)%N /\
  exists pre post,
    BlockHeight.history w = pre ++ Mark 6%N :: post /\
    sunk_of pre = [BlockHeight.act d5].
Proof.
  cbv zeta. split; [reflexivity|]. split; [reflexivity|]. split; [reflexivity|].
  match goal with
  | |- exists pre post, ?h = _ /\ _ => exists (firstn 21 h), (skipn 22 h)
  end.
  split; reflexivity.
Qed.

End NoCheckpointBeforeDrain.

(** ** No gap *)

Section NoGap.

(** C2, as the code has it: a started engine consumes a finite source under
    any schedule of deliveries and reconnections, each reconnection calling
    the reconnect hook and redelivering from the marker, and then the source
    to its end.  The sink of the cursor engine then holds exactly the payloads
    of the source, and its Pending Buffer is empty.  For a source ordered by
    block number, the sink and the Pending Buffer of the block-height engine
    together hold exactly the payloads of the source; the sink holds every
    payload of a block before [lastCommittedBlockNum], and no block of the
    source is after [lastCommittedBlockNum]: the payloads of the last block
    stay pending.  Either sink holds the same payloads as under any other
    schedule, the one without reconnections among them. *)
Theorem no_payload_lost_under_reconnects
    (gschedule gschedule' : list Graphql.step)
    (gsrc : list Graphql.SearchTransactionsForward)
    (bschedule bschedule' : list BlockHeight.step)
    (bsrc : list BlockHeight.ActionTraceData) :
  (let gw := Graphql.consume gschedule gsrc in
   let gw' := Graphql.consume gschedule' gsrc in
   Graphql.pendingActions gw = [] /\
   (forall a, In a (Graphql.committedActions gw) <-> In a (flat_map Graphql.payloads gsrc)) /\
   (forall a, In a (Graphql.committedActions gw) <-> In a (Graphql.committedActions gw'))) /\
  (BlockHeight.ordered bsrc ->
   let bw := BlockHeight.consume bschedule bsrc in
   let bw' := BlockHeight.consume bschedule' bsrc in
   (forall a, In a (BlockHeight.committedActions bw) \/ In a (BlockHeight.pendingActions bw)
              <-> In a (map BlockHeight.act bsrc)) /\
   (forall d, In d bsrc ->
      (BlockHeight.block_num d < BlockHeight.lastCommittedBlockNum bw)%N ->
      In (BlockHeight.act d) (BlockHeight.committedActions bw)) /\
   (forall d, In d bsrc ->
      (BlockHeight.block_num d <= BlockHeight.lastCommittedBlockNum bw)%N) /\
   (forall a, In a (BlockHeight.committedActions bw)
              <-> In a (BlockHeight.committedActions bw'))).
Proof.
  split.
  - cbv zeta.
    assert (Hfull : forall schedule a,
              In a (Graphql.committedActions (Graphql.consume schedule gsrc)) <->
              In a (flat_map Graphql.payloads gsrc)).
    { intros schedule a.
      destruct (gq_no_gap_consume schedule gsrc)
        as (mk & cs & f & h & Hw & (pre & Hsrc & Hpre) & _ & Honly).
      cbn [Graphql.engine Graphql.source Graphql.remaining] in *.
      rewrite Hw. cbn [Graphql.committedActions]. rewrite in_flat_map. split.
      - apply Honly.
      - intros [d [Hd Ha]]. apply (Hpre d); [|assumption].
        rewrite Hsrc, app_nil_r in Hd. exact Hd. }
    split; [|split].
    + destruct (gq_no_gap_consume gschedule gsrc) as (mk & cs & f & h & Hw & _).
      cbn [Graphql.engine] in Hw. now rewrite Hw.
    + apply Hfull.
    + intros a. now rewrite !Hfull.
  - intros Hord. cbv zeta.
    destruct (no_gap_consume bschedule bsrc Hord)
      as (mk & ps & n & cs & h & Hw & _ & _ & _ & _ & Hbefore & Hall & Hseen &
          Hsunk & Hpend & Htop).
    destruct (no_gap_consume bschedule' bsrc Hord)
      as (mk' & ps' & n' & cs' & h' & Hw' & _ & _ & _ & _ & Hbefore' & _ & Hseen' &
          Hsunk' & _ & Htop').
    cbn [BlockHeight.engine BlockHeight.source BlockHeight.remaining] in *.
    rewrite Hw, Hw'.
    cbn [BlockHeight.pendingActions BlockHeight.committedActions
         BlockHeight.lastCommittedBlockNum].
    split; [|split; [|split]].
    + intros a. rewrite in_map_iff. split.
      * intros [Ha | Ha].
        -- destruct (Hsunk a Ha) as (d & Hd & Hact & _). exists d. auto.
        -- destruct (Hpend a Ha) as (d & Hd & Hact & _). exists d. auto.
      * intros [d [<- Hd]]. destruct (Hall d Hd) as [[] | Hin]. exact Hin.
    + exact Hbefore.
    + intros d Hd. destruct (Hseen d Hd) as [[] | Hle]. exact Hle.
    + assert (Hn : n = n').
      { apply N.le_antisymm.
        - destruct Htop as [-> | (d & Hd & <-)]; [lia|].
          destruct (Hseen' d Hd) as [[] | Hle]. exact Hle.
        - destruct Htop' as [-> | (d & Hd & <-)]; [lia|].
          destruct (Hseen d Hd) as [[] | Hle]. exact Hle. }
      subst n'. intros a. split; intros Ha.
      * destruct (Hsunk a Ha) as (d & Hd & <- & Hlt). now apply Hbefore'.
      * destruct (Hsunk' a Ha) as (d & Hd & <- & Hlt). now apply Hbefore.
Qed.

(** An instance: two actions of block 5 and one of block 6, with a
    reconnection after the second action and one after the third; the
    source is ordered, and the two actions of block 5 end up in the sink. *)
Lemma no_payload_lost_under_reconnects_witness :
  let T := fun from to => BlockHeight.mkAction "therealkarma" "transfer"
             (BlockHeight.mkKarmaTransfer from to "1 KARMA" "") in
  let d1 := BlockHeight.mkActionTraceData "00000005" 5 (T "alice" "bob") in
  let d2 := BlockHeight.mkActionTraceData "00000005" 5 (T "bob" "carol") in
  let d3 := BlockHeight.mkActionTraceData "00000006" 6 (T "carol" "dave") in
  let src := [d1; d2; d3] in
  let schedule := [BlockHeight.Deliver; BlockHeight.Deliver; BlockHeight.Reconnect;
                   BlockHeight.Deliver; BlockHeight.Deliver; BlockHeight.Deliver;
                   BlockHeight.Reconnect] in
  let w := BlockHeight.consume schedule src in
  BlockHeight.ordered src /\
  BlockHeight.lastCommittedBlockNum w = 6%N /\
  In (BlockHeight.act d1) (BlockHeight.committedActions w) /\
  In (BlockHeight.act d2) (BlockHeight.committedActions w).
Proof.
  intros T d1 d2 d3 src schedule w.
  assert (Hord : BlockHeight.ordered src).
  { unfold BlockHeight.ordered, src.
    repeat (constructor; [|repeat constructor; cbn; lia]). constructor. }
  destruct (proj2 (no_payload_lost_under_reconnects [] [] [] schedule [] src) Hord)
    as [_ [Hbefore _]].
  split; [exact Hord|]. split; [reflexivity|].
  split; apply Hbefore; cbn; auto; reflexivity.
Defined.

(** C2, as stated, fails on the block-height engine: with no reconnection
    at all, a source of one action of block 5 leaves the sink empty; the
    action stays in the Pending Buffer. *)
Lemma block_height_last_block_stays_pending :
  let T5 := BlockHeight.mkAction "therealkarma" "transfer"
              (BlockHeight.mkKarmaTransfer "alice" "bob" "1 KARMA" "") in
  let src := [BlockHeight.mkActionTraceData "00000005" 5 T5] in
  let w := BlockHeight.consume [] src in
  map BlockHeight.act src = [T5] /\
  BlockHeight.committedActions w = [] /\
  BlockHeight.pendingActions w = [T5].
Proof. cbv zeta. repeat split. Qed.

End NoGap.

(** ** Printing a block, and the link to a transaction *)

Section Printing.

Lemma substring_whole (s : string) (n : nat) :
  (String.length s <= n)%nat -> substring 0 n s = s.
Proof.
  revert n. induction s as [|c s IH]; intros n Hn.
  - now destruct n.
  - destruct n as [|n]; cbn in Hn; [lia|].
    cbn. rewrite IH by lia. reflexivity.
Qed.

Lemma substring_prefix (p r : string) :
  substring 0 (String.length p) (p ++ r)%string = p.
Proof.
  induction p as [|c p IH]; cbn.
  - now destruct r.
  - now rewrite IH.
Qed.

Lemma substring_skip (p r : string) (m : nat) :
  substring (String.length p) m (p ++ r)%string = substring 0 m r.
Proof. induction p as [|c p IH]; cbn; [reflexivity | exact IH]. Qed.

Lemma length_append (p r : string) :
  String.length (p ++ r)%string = (String.length p + String.length r)%nat.
Proof. induction p as [|c p IH]; cbn; [reflexivity | now rewrite IH]. Qed.

Lemma append_assoc (p q r : string) :
  ((p ++ q) ++ r = p ++ (q ++ r))%string.
Proof. induction p as [|c p IH]; cbn; [reflexivity | now rewrite IH]. Qed.

Lemma append_cancel (p a b : string) :
  (p ++ a = p ++ b)%string -> a = b.
Proof.
  induction p as [|c p IH]; cbn; intros H; [exact H|].
  injection H as H. now apply IH.
Qed.

Lemma substring_split (s : string) : forall k : nat,
  (k <= String.length s)%nat ->
  s = (substring 0 k s ++ substring k (String.length s - k) s)%string.
Proof.
  induction s as [|c s IH]; intros [|k] Hk; cbn in *; try lia.
  - reflexivity.
  - now rewrite substring_whole by lia.
  - now rewrite <- IH by lia.
Qed.

Lemma length_substring (s : string) : forall k m : nat,
  (k + m <= String.length s)%nat -> String.length (substring k m s) = m.
Proof.
  induction s as [|c s IH]; intros [|k] [|m] Hk; cbn in *; try lia; try reflexivity.
  - now rewrite IH by lia.
  - now rewrite IH by (cbn; lia).
  - now rewrite IH by lia.
Qed.

(** X9: for a block id of any length and a block number that is a safe
    integer, [printBlock] prints the first eight characters of the id, an
    ellipsis, the last eight characters of the id, and the block number
    between parentheses; of an id shorter than eight characters it prints
    all there is on either side, and the two ends overlap when the id has
    fewer than sixteen. *)
Theorem printBlock_shows_both_ends (blockId : string) (blockNum : N) :
  (blockNum <= MAX_SAFE_INTEGER)%N ->
  exists front rest lead back : string,
    blockId = (front ++ rest)%string /\
    blockId = (lead ++ back)%string /\
    String.length front = Nat.min 8 (String.length blockId) /\
    String.length back = Nat.min 8 (String.length blockId) /\
    printBlock blockId blockNum =
      (front ++ "..." ++ back ++ " (" ++ show_number blockNum ++ ")")%string.
Proof.
  intros _. set (len := String.length blockId).
  exists (substring 0 (Nat.min 8 len) blockId),
         (substring (Nat.min 8 len) (len - Nat.min 8 len) blockId),
         (substring 0 (len - 8) blockId),
         (substring (len - 8) (len - (len - 8)) blockId).
  split; [apply substring_split; lia|]. split; [apply substring_split; lia|].
  split; [apply length_substring; fold len; lia|].
  split; [rewrite length_substring by (fold len; lia); lia|].
  unfold printBlock, slice, slice_index. fold len.
  cbn [Z.ltb Z.compare Z.to_nat].
  replace (Nat.min 0 len) with 0%nat by lia.
  replace (Nat.min (Pos.to_nat 8) len) with (Nat.min 8 len) by lia.
  replace (Z.to_nat (Z.max (Z.of_nat len + -8) 0)) with (len - 8)%nat by lia.
  now rewrite Nat.sub_0_r.
Qed.

(** An instance: a block id of 64 characters, one of 12, whose ends
    overlap, and one of 4. *)
Lemma printBlock_shows_both_ends_witness :
  (10 <= MAX_SAFE_INTEGER)%N /\
  (exists front rest lead back : string,
     "0000000a1b2c3d4e5f60718293a4b5c6d7e8f90a1b2c3d4e5f60718293abcdef"%string =
       (front ++ rest)%string /\
     "0000000a1b2c3d4e5f60718293a4b5c6d7e8f90a1b2c3d4e5f60718293abcdef"%string =
       (lead ++ back)%string /\
     String.length front = 8%nat /\
     String.length back = 8%nat /\
     printBlock "0000000a1b2c3d4e5f60718293a4b5c6d7e8f90a1b2c3d4e5f60718293abcdef" 10 =
       (front ++ "..." ++ back ++ " (" ++ show_number 10 ++ ")")%string) /\
  printBlock "0000000a1b2c3d4e5f60718293a4b5c6d7e8f90a1b2c3d4e5f60718293abcdef" 10 =
    "0000000a...93abcdef (10)"%string /\
  printBlock "0123456789ab" 10 = "01234567...456789ab (10)"%string /\
  printBlock "beef" 7 = "beef...beef (7)"%string.
Proof.
  assert (Hsafe : (10 <= MAX_SAFE_INTEGER)%N) by (vm_compute; discriminate).
  split; [exact Hsafe|].
  split.
  - exact (printBlock_shows_both_ends
             "0000000a1b2c3d4e5f60718293a4b5c6d7e8f90a1b2c3d4e5f60718293abcdef" 10 Hsafe).
  - repeat split.
Defined.

(** X10: the link that [buildEosqLink] builds.  On a network other than
    jungle, kylin and worbli it is [https://eosq.app/tx/] followed by the
    transaction id.  On one of the three the host is a dot, the network name
    and [eosq.app] with nothing between them.  In both cases different ids
    give different links. *)
Theorem eosq_link_shape (network transactionId : string) :
  (~ In network ["jungle"; "kylin"; "worbli"] ->
   SearchLatest.buildEosqLink network transactionId =
   ("https://eosq.app/tx/" ++ transactionId)%string) /\
  (In network ["jungle"; "kylin"; "worbli"] ->
   SearchLatest.buildEosqLink network transactionId =
   ("https://." ++ network ++ "eosq.app/tx/" ++ transactionId)%string) /\
  (forall other : string,
     SearchLatest.buildEosqLink network transactionId =
     SearchLatest.buildEosqLink network other ->
     transactionId = other).
Proof.
  unfold SearchLatest.buildEosqLink.
  destruct (existsb (String.eqb network) ["jungle"; "kylin"; "worbli"]) eqn:Hin.
  - apply existsb_exists in Hin. destruct Hin as [x [Hx Heq]].
    apply String.eqb_eq in Heq. subst x.
    split; [intros Hout; now destruct Hout|]. split; [reflexivity|].
    intros other H. cbv zeta in H.
    apply append_cancel in H. apply append_cancel in H. now apply append_cancel in H.
  - assert (Hout : ~ In network ["jungle"; "kylin"; "worbli"]).
    { intros Hx. assert (Ht : existsb (String.eqb network) ["jungle"; "kylin"; "worbli"] = true).
      { apply existsb_exists. exists network. split; [exact Hx | apply String.eqb_refl]. }
      congruence. }
    split; [reflexivity|]. split; [intros Hx; now destruct Hout|].
    intros other H. cbv zeta in H.
    apply append_cancel in H. apply (append_cancel "") in H. now apply append_cancel in H.
Qed.

(** An instance: a link on mainnet and one on jungle. *)
Lemma eosq_link_shape_witness :
  SearchLatest.buildEosqLink "mainnet" "abc123" = "https://eosq.app/tx/abc123" /\
  SearchLatest.buildEosqLink "jungle" "abc123" = "https://.jungleeosq.app/tx/abc123".
Proof.
  split.
  - apply (proj1 (eosq_link_shape "mainnet" "abc123")).
    intros H. cbn in H. repeat (destruct H as [H|H]; [discriminate H|]). exact H.
  - apply (proj1 (proj2 (eosq_link_shape "jungle" "abc123"))). cbn. auto.
Defined.

End Printing.

(** ** The latest transactions *)

Section LatestTransactions.
Import SearchLatest.

Lemma forEach_print (network : string) (found : list Result) (out : list output) :
  forEach found (fun result => print (result_line network result)) out =
  (out ++ map (fun result => Print (result_line network result)) found, Returned tt).
Proof.
  revert out. induction found as [|r found IH]; intros out; cbn [forEach map].
  - unfold ret. now rewrite app_nil_r.
  - unfold bind at 1. unfold print at 1, modify. rewrite IH.
    now rewrite <- app_assoc.
Qed.

(** X11: what [main] prints, whether it releases the client and whether it
    throws, for results whose block numbers are safe integers.  When
    [createDfuseClient] throws, [main] throws the same before it prints
    anything.  Otherwise, with results it prints a heading, one line for
    each result in order and an empty line, then releases the client.  With
    no result, or with a reply that has none, it prints that nothing was
    found and returns without releasing the client.  When the request is
    rejected, or the reply lacks [data] or [searchTransactionsBackward], it
    prints the error, after the heading if the request had resolved, and
    releases the client.  Where it releases the client, it ends as
    [client.release] does: it throws what that throws. *)
Theorem main_releases_unless_nothing_found
    (network : string) (created : Ending) (reply : Reply) (released : Ending) :
  (forall found, found_by reply = Some found ->
     Forall (fun result => (block_num result <= MAX_SAFE_INTEGER)%N) found) ->
  let r := main network created reply released [] in
  let heading := [Print ""; Print "Your latest 10 transactions"] in
  let release_ends := match released with
                      | Returns => Returned tt
                      | Throws error => Thrown error
                      end in
  match created with
  | Throws error => r = ([], Thrown error)
  | Returns =>
      match found_by reply with
      | Some [] => r = (heading ++ [Print "Oups nothing found"], Returned tt)
      | Some found =>
          r = (heading ++ map (fun result => Print (result_line network result)) found ++
               [Print ""; Release], release_ends)
      | None =>
          exists error,
            r = ((match reply with Resolves _ => heading | Rejects _ => [] end) ++
                 [Print_error "An error occurred" error; Release], release_ends)
      end
  end.
Proof.
  intros _. cbv zeta. destruct created as [|failure]; [|reflexivity].
  destruct reply as [[[[[[[[|r found]|]]|]]|]] | error]; cbn [found_by].
  - reflexivity.
  - cbv beta iota zeta delta
      [exec main ending try_catch try_block read_results bind ret print modify
       data searchTransactionsBackward results].
    cbn [List.length Nat.leb].
    rewrite (forEach_print network (r :: found) : forall out,
               forEach (r :: found)
                 (fun result w => (w ++ [Print (result_line network result)], Returned tt)) out =
               _).
    cbn [fst snd app]. rewrite <- app_assoc. now destruct released.
  - reflexivity.
  - eexists. destruct released; reflexivity.
  - eexists. destruct released; reflexivity.
  - eexists. destruct released; reflexivity.
Qed.

(** An instance: on mainnet, one result at block 42, and a [release] that
    returns. *)
Lemma main_releases_unless_nothing_found_witness :
  main "mainnet" Returns
       (Resolves (mkResponse (Some (mkData (Some (mkBackward (Some [mkResult "abc123" 42])))))))
       Returns [] =
  ([Print ""; Print "Your latest 10 transactions";
    Print "- https://eosq.app/tx/abc123 (Block #42)"; Print ""; Release],
   Returned tt).
Proof.
  apply (main_releases_unless_nothing_found "mainnet" Returns
           (Resolves (mkResponse (Some (mkData (Some (mkBackward
              (Some [mkResult "abc123" 42]))))))) Returns).
  intros found Hfound. injection Hfound as <-.
  repeat constructor. vm_compute. discriminate.
Defined.

End LatestTransactions.

(** ** The sink and the history *)

Section SinkGrowth.

Lemma sunk_of_pushes (P L A : Type) (ps : list A) :
  flat_map (fun e : event P A L => match e with Push_committed a => [a] | _ => [] end)
           (map Push_committed ps) = ps.
Proof. induction ps as [|a ps IH]; cbn; [reflexivity | now rewrite IH]. Qed.

Ltac sunk_events :=
  unfold sunk_of, BlockHeight.commit_events, BlockHeight.commit_events_unset,
    BlockHeight.ahead_lines, BlockHeight.progress_lines, BlockHeight.pending_events,
    BlockHeight.restart_events, Graphql.commit_events, Graphql.commit_events_unset,
    Graphql.restart_events;
  rewrite ?flat_map_app, ?sunk_of_pushes; cbn [flat_map app]; rewrite ?app_nil_r.

Ltac grown := cbn [fst]; eexists; split; [reflexivity | sunk_events; try reflexivity].

Lemma bh_sink_grows_invoke (i : BlockHeight.invocation) (w : BlockHeight.Engine) :
  exists delta,
    BlockHeight.history (exec (BlockHeight.invoke i) w) = BlockHeight.history w ++ delta /\
    BlockHeight.committedActions (exec (BlockHeight.invoke i) w) =
      BlockHeight.committedActions w ++ sunk_of delta.
Proof.
  destruct w as [so ps n cs h].
  cbn [BlockHeight.history BlockHeight.committedActions].
  destruct i as [[ | d | d | type] | | blockId blockNum | ];
    unfold exec, BlockHeight.invoke, BlockHeight.dispatcher.
  - rewrite BlockHeightFacts.bh_onListening. grown.
  - destruct (n <? BlockHeight.block_num d)%N eqn:Hcmp.
    + destruct so as [st|].
      * rewrite BlockHeightFacts.bh_onAction_ahead_set by assumption. grown.
      * rewrite BlockHeightFacts.bh_onAction_ahead_unset by assumption. grown.
    + rewrite BlockHeightFacts.bh_onAction_not_ahead by assumption. grown.
  - destruct so as [st|].
    + destruct (N.eq_dec (BlockHeight.progress_block_num d) 0) as [Hz | Hnz].
      * rewrite BlockHeightFacts.bh_onProgress_refused by assumption. grown.
      * rewrite BlockHeightFacts.bh_onProgress_set by assumption. grown.
    + rewrite BlockHeightFacts.bh_onProgress_unset. grown.
  - exists []. cbn. now rewrite !app_nil_r.
  - rewrite BlockHeightFacts.bh_onPostRestart. grown.
  - destruct so as [st|].
    + destruct (N.eq_dec blockNum 0) as [-> | Hnz].
      * rewrite BlockHeightFacts.bh_commit_refused. grown.
      * rewrite BlockHeightFacts.bh_commit_set by assumption. grown.
    + rewrite BlockHeightFacts.bh_commit_unset. grown.
  - rewrite BlockHeightFacts.bh_flushPending. grown.
Qed.

Lemma gq_sunk_pending_events d (actions : list Graphql.MatchingAction) :
  sunk_of (Graphql.pending_events d actions) = [].
Proof. induction actions as [|a actions IH]; [reflexivity | exact IH]. Qed.

Lemma gq_sunk_commit_events c (ps : list Graphql.Transfer) :
  sunk_of (Graphql.commit_events c ps) = ps /\
  sunk_of (Graphql.commit_events_unset c ps) = ps.
Proof. destruct ps as [|a ps]; split; sunk_events; reflexivity. Qed.

Lemma gq_sunk_app (h1 h2 : list Graphql.ev) :
  sunk_of (h1 ++ h2) = sunk_of h1 ++ sunk_of h2.
Proof. apply flat_map_app. Qed.

Lemma gq_sink_grows_invoke (i : Graphql.invocation) (w : Graphql.Engine) :
  exists delta,
    Graphql.history (exec (Graphql.invoke i) w) = Graphql.history w ++ delta /\
    Graphql.committedActions (exec (Graphql.invoke i) w) =
      Graphql.committedActions w ++ sunk_of delta.
Proof.
  destruct w as [so ps cs f h].
  cbn [Graphql.history Graphql.committedActions].
  assert (Hprogress : forall blockId blockNum c,
            exists delta,
              Graphql.history (fst (Graphql.onProgress blockId blockNum c
                                      (Graphql.mkEngine so ps cs f h))) = h ++ delta /\
              Graphql.committedActions (fst (Graphql.onProgress blockId blockNum c
                                               (Graphql.mkEngine so ps cs f h))) =
                cs ++ sunk_of delta).
  { intros blockId blockNum c. destruct so as [st|].
    - destruct (string_dec c "") as [-> | Hnz].
      + rewrite GraphqlFacts.gq_onProgress_refused. cbn [fst].
        eexists. split; [reflexivity|].
        rewrite gq_sunk_app. now rewrite (proj2 (gq_sunk_commit_events "" ps)).
      + rewrite GraphqlFacts.gq_onProgress_set by assumption. cbn [fst].
        eexists. split; [reflexivity|].
        rewrite gq_sunk_app. now rewrite (proj1 (gq_sunk_commit_events c ps)).
    - rewrite GraphqlFacts.gq_onProgress_unset. cbn [fst]. eexists. split; [reflexivity|].
      rewrite gq_sunk_app. now rewrite (proj2 (gq_sunk_commit_events c ps)). }
  destruct i as [[d | errors terminal | | type] | | c];
    unfold exec, Graphql.invoke, Graphql.on_message.
  - destruct (Graphql.trace d) as [t|] eqn:Ht.
    + destruct so as [st|].
      * destruct (string_dec (Graphql.cursor d) "") as [Hz | Hnz].
        -- rewrite (GraphqlFacts.gq_onResult_trace_refused d t) by assumption. cbn [fst].
           eexists. split; [reflexivity|].
           rewrite !gq_sunk_app.
           rewrite (gq_sunk_pending_events d), (proj2 (gq_sunk_commit_events _ _)).
           reflexivity.
        -- rewrite (GraphqlFacts.gq_onResult_trace_set d t) by assumption. cbn [fst].
           eexists. split; [reflexivity|].
           rewrite !gq_sunk_app.
           rewrite (gq_sunk_pending_events d), (proj1 (gq_sunk_commit_events _ _)).
           reflexivity.
      * rewrite (GraphqlFacts.gq_onResult_trace_unset d t) by assumption. cbn [fst].
        eexists. split; [reflexivity|].
        rewrite !gq_sunk_app.
        rewrite (gq_sunk_pending_events d), (proj2 (gq_sunk_commit_events _ _)).
        reflexivity.
    + rewrite GraphqlFacts.gq_onResult_marker by assumption. apply Hprogress.
  - rewrite GraphqlFacts.gq_onError. exists []. cbn. now rewrite !app_nil_r.
  - eexists. split; [reflexivity|]. cbn. now rewrite app_nil_r.
  - exists []. cbn. now rewrite !app_nil_r.
  - rewrite GraphqlFacts.gq_onPostRestart. grown.
  - destruct so as [st|].
    + destruct (string_dec c "") as [-> | Hnz].
      * rewrite GraphqlFacts.gq_commit_refused. cbn [fst]. eexists. split; [reflexivity|].
        now rewrite (proj2 (gq_sunk_commit_events "" ps)).
      * rewrite GraphqlFacts.gq_commit_set by assumption. cbn [fst].
        eexists. split; [reflexivity|].
        now rewrite (proj1 (gq_sunk_commit_events c ps)).
    + rewrite GraphqlFacts.gq_commit_unset. cbn [fst]. eexists. split; [reflexivity|].
      now rewrite (proj2 (gq_sunk_commit_events c ps)).
Qed.

(** X1: whatever is invoked on an engine, in whatever state, the history
    and the sink only grow, and the sink grows by exactly the payloads that
    the new part of the history records as sunk, in that order: nothing is
    ever removed from the sink or moved in it. *)
Theorem sink_grows_by_history
    (bcalls : list BlockHeight.invocation) (bw : BlockHeight.Engine)
    (gcalls : list Graphql.invocation) (gw : Graphql.Engine) :
  (exists delta,
     BlockHeight.history (BlockHeight.run bcalls bw) = BlockHeight.history bw ++ delta /\
     BlockHeight.committedActions (BlockHeight.run bcalls bw) =
       BlockHeight.committedActions bw ++ sunk_of delta) /\
  (exists delta,
     Graphql.history (Graphql.run gcalls gw) = Graphql.history gw ++ delta /\
     Graphql.committedActions (Graphql.run gcalls gw) =
       Graphql.committedActions gw ++ sunk_of delta).
Proof.
  split.
  - revert bw. induction bcalls as [|i calls IH]; intros w.
    + exists []. cbn. now rewrite !app_nil_r.
    + cbn [BlockHeight.run fold_left].
      destruct (bh_sink_grows_invoke i w) as [d1 [Hh1 Hc1]].
      destruct (IH (exec (BlockHeight.invoke i) w)) as [d2 [Hh2 Hc2]].
      exists (d1 ++ d2). unfold BlockHeight.run in Hh2, Hc2.
      rewrite Hh2, Hc2, Hh1, Hc1. unfold sunk_of.
      now rewrite flat_map_app, !app_assoc.
  - revert gw. induction gcalls as [|i calls IH]; intros w.
    + exists []. cbn. now rewrite !app_nil_r.
    + cbn [Graphql.run fold_left].
      destruct (gq_sink_grows_invoke i w) as [d1 [Hh1 Hc1]].
      destruct (IH (exec (Graphql.invoke i) w)) as [d2 [Hh2 Hc2]].
      exists (d1 ++ d2). unfold Graphql.run in Hh2, Hc2.
      rewrite Hh2, Hc2, Hh1, Hc1. unfold sunk_of.
      now rewrite flat_map_app, !app_assoc.
Qed.

End SinkGrowth.

(** ** Arrival order *)

Section ArrivalOrder.

Lemma bh_arrivals_cons m ms :
  BlockHeight.arrivals (m :: ms) = BlockHeight.arrivals [m] ++ BlockHeight.arrivals ms.
Proof. unfold BlockHeight.arrivals. cbn [flat_map]. now rewrite app_nil_r. Qed.

Lemma gq_arrivals_cons i calls :
  Graphql.arrivals (i :: calls) = Graphql.arrivals [i] ++ Graphql.arrivals calls.
Proof. unfold Graphql.arrivals. cbn [flat_map]. now rewrite app_nil_r. Qed.

Lemma bh_arrival_message (m : BlockHeight.InboundMessage) st ps n cs h :
  let w' := exec (BlockHeight.dispatcher m) (BlockHeight.mkEngine (Some st) ps n cs h) in
  BlockHeight.stream w' <> None /\
  BlockHeight.committedActions w' ++ BlockHeight.pendingActions w' =
    (cs ++ ps) ++ BlockHeight.arrivals [m].
Proof.
  cbv zeta. unfold exec, BlockHeight.dispatcher.
  destruct m as [ | d | d | type]; cbn [BlockHeight.arrivals flat_map app].
  - rewrite BlockHeightFacts.bh_onListening. cbn. rewrite app_nil_r.
    split; [discriminate | reflexivity].
  - destruct (n <? BlockHeight.block_num d)%N eqn:Hcmp.
    + rewrite BlockHeightFacts.bh_onAction_ahead_set by assumption. cbn.
      split; [discriminate | reflexivity].
    + rewrite BlockHeightFacts.bh_onAction_not_ahead by assumption. cbn.
      split; [discriminate | now rewrite app_assoc].
  - destruct (N.eq_dec (BlockHeight.progress_block_num d) 0) as [Hz | Hnz].
    + rewrite BlockHeightFacts.bh_onProgress_refused by assumption. cbn.
      rewrite !app_nil_r. split; [discriminate | reflexivity].
    + rewrite BlockHeightFacts.bh_onProgress_set by assumption. cbn.
      rewrite !app_nil_r. split; [discriminate | reflexivity].
  - cbn. rewrite app_nil_r. split; [discriminate | reflexivity].
Qed.

Lemma bh_arrival_messages (ms : list BlockHeight.InboundMessage) : forall w,
  BlockHeight.stream w <> None ->
  let w' := BlockHeight.run (map BlockHeight.Message ms) w in
  BlockHeight.committedActions w' ++ BlockHeight.pendingActions w' =
    (BlockHeight.committedActions w ++ BlockHeight.pendingActions w) ++
    BlockHeight.arrivals ms.
Proof.
  induction ms as [|m ms IH]; intros w Hs; cbv zeta.
  - cbn. now rewrite app_nil_r.
  - cbn [map BlockHeight.run fold_left BlockHeight.invoke].
    destruct w as [[st|] ps n cs h]; [|now destruct Hs].
    destruct (bh_arrival_message m st ps n cs h) as [Hs' Hm].
    specialize (IH _ Hs'). cbv zeta in IH. unfold BlockHeight.run in IH.
    rewrite IH, Hm. cbn [BlockHeight.committedActions BlockHeight.pendingActions].
    rewrite (bh_arrivals_cons m ms). now rewrite !app_assoc.
Qed.

(** X2: on a started block-height engine the messages of the stream, in
    any number and of any type, leave the sink followed by the Pending
    Buffer equal to the actions of the action traces received, each once and
    in arrival order: a commit only moves actions from the front of the
    buffer to the end of the sink. *)
Theorem block_height_keeps_arrival_order
    (ms : list BlockHeight.InboundMessage) (st : BlockHeight.Stream) :
  let w := BlockHeight.run (map BlockHeight.Message ms)
             (exec (BlockHeight.start st) BlockHeight.new_Engine) in
  BlockHeight.committedActions w ++ BlockHeight.pendingActions w = BlockHeight.arrivals ms.
Proof.
  cbv zeta. rewrite (bh_arrival_messages ms) by discriminate. reflexivity.
Qed.

Lemma gq_arrival_invoke (i : Graphql.invocation) st cs f h :
  exists st' f' h',
    exec (Graphql.invoke i) (Graphql.mkEngine (Some st) [] cs f h) =
    Graphql.mkEngine (Some st') [] (cs ++ Graphql.arrivals [i]) f' h'.
Proof.
  unfold exec, Graphql.invoke, Graphql.on_message.
  destruct i as [[d | errors terminal | | type] | | c];
    cbn [Graphql.arrivals flat_map]; rewrite ?app_nil_r.
  - destruct (Graphql.trace d) as [t|] eqn:Ht.
    + destruct (string_dec (Graphql.cursor d) "") as [Hz | Hnz].
      * rewrite (GraphqlFacts.gq_onResult_trace_refused d t) by assumption.
        cbn [fst app]. do 3 eexists. reflexivity.
      * rewrite (GraphqlFacts.gq_onResult_trace_set d t) by assumption.
        cbn [fst app]. do 3 eexists. reflexivity.
    + rewrite GraphqlFacts.gq_onResult_marker by assumption.
      unfold Graphql.payloads. rewrite Ht.
      destruct (string_dec (Graphql.cursor d) "") as [Hz | Hnz].
      * rewrite Hz, GraphqlFacts.gq_onProgress_refused. cbn [fst].
        do 3 eexists. reflexivity.
      * rewrite GraphqlFacts.gq_onProgress_set by assumption. cbn [fst].
        do 3 eexists. reflexivity.
  - rewrite GraphqlFacts.gq_onError. do 3 eexists. reflexivity.
  - do 3 eexists. reflexivity.
  - do 3 eexists. reflexivity.
  - rewrite GraphqlFacts.gq_onPostRestart. do 3 eexists. reflexivity.
  - destruct (string_dec c "") as [-> | Hnz].
    + rewrite GraphqlFacts.gq_commit_refused. cbn [fst]. rewrite app_nil_r.
      do 3 eexists. reflexivity.
    + rewrite GraphqlFacts.gq_commit_set by assumption. cbn [fst]. rewrite app_nil_r.
      do 3 eexists. reflexivity.
Qed.

Lemma gq_arrival_run (calls : list Graphql.invocation) : forall st cs f h,
  exists st' f' h',
    Graphql.run calls (Graphql.mkEngine (Some st) [] cs f h) =
    Graphql.mkEngine (Some st') [] (cs ++ Graphql.arrivals calls) f' h'.
Proof.
  induction calls as [|i calls IH]; intros st cs f h.
  - cbn. rewrite app_nil_r. do 3 eexists. reflexivity.
  - cbn [Graphql.run fold_left].
    destruct (gq_arrival_invoke i st cs f h) as (st1 & f1 & h1 & ->).
    destruct (IH st1 (cs ++ Graphql.arrivals [i]) f1 h1) as (st2 & f2 & h2 & Hrun).
    unfold Graphql.run in Hrun. rewrite Hrun.
    rewrite (gq_arrivals_cons i calls).
    rewrite <- app_assoc. do 3 eexists. reflexivity.
Qed.

(** X3: on a started cursor engine, whatever is invoked (messages of any
    type, the reconnect hook, [commit]), the Pending Buffer is empty after
    each invocation and the sink holds the payloads of the data messages
    received, each once per delivery and in arrival order: the reconnect
    hook never has anything to discard. *)
Theorem cursor_engine_sinks_on_arrival
    (calls : list Graphql.invocation) (st : Graphql.Stream) (file : option string) :
  let w := Graphql.run calls (exec (Graphql.run_start st) (Graphql.new_Engine file)) in
  Graphql.pendingActions w = [] /\
  Graphql.committedActions w = Graphql.arrivals calls.
Proof.
  cbv zeta.
  assert (Hstart : exists h,
            exec (Graphql.run_start st) (Graphql.new_Engine file) =
            Graphql.mkEngine (Some st) [] [] file h).
  { destruct file; eexists; reflexivity. }
  destruct Hstart as [h ->].
  destruct (gq_arrival_run calls st [] file h) as (st' & f' & h' & ->).
  split; reflexivity.
Qed.

(** X4: action traces alone, on an engine started or not, with reconnections
    between them or not, leave [lastCommittedBlockNum] at the highest block
    number seen so far: it never decreases. *)
Theorem last_committed_is_highest_block
    (ds : list BlockHeight.ActionTraceData) (w : BlockHeight.Engine) :
  BlockHeight.lastCommittedBlockNum
    (BlockHeight.run
       (flat_map (fun d => [BlockHeight.Message (BlockHeight.action_trace d);
                            BlockHeight.PostRestart]) ds) w) =
    fold_left N.max (map BlockHeight.block_num ds) (BlockHeight.lastCommittedBlockNum w) /\
  BlockHeight.lastCommittedBlockNum
    (BlockHeight.run (map (fun d => BlockHeight.Message (BlockHeight.action_trace d)) ds) w) =
    fold_left N.max (map BlockHeight.block_num ds) (BlockHeight.lastCommittedBlockNum w).
Proof.
  assert (Hstep : forall d w,
            BlockHeight.lastCommittedBlockNum
              (exec (BlockHeight.onAction d) w) =
            N.max (BlockHeight.lastCommittedBlockNum w) (BlockHeight.block_num d)).
  { intros d [so ps n cs h]. unfold exec. cbn [BlockHeight.lastCommittedBlockNum].
    destruct (n <? BlockHeight.block_num d)%N eqn:Hcmp.
    - apply N.ltb_lt in Hcmp. destruct so as [st|].
      + rewrite BlockHeightFacts.bh_onAction_ahead_set by now apply N.ltb_lt.
        cbn. lia.
      + rewrite BlockHeightFacts.bh_onAction_ahead_unset by now apply N.ltb_lt.
        cbn. lia.
    - rewrite BlockHeightFacts.bh_onAction_not_ahead by assumption.
      apply N.ltb_ge in Hcmp. cbn. lia. }
  split; revert w; induction ds as [|d ds IH]; intros w; try reflexivity.
  - cbn [flat_map app BlockHeight.run fold_left map BlockHeight.invoke
         BlockHeight.dispatcher].
    unfold BlockHeight.run in IH. rewrite IH. f_equal.
    rewrite <- Hstep.
    destruct (exec (BlockHeight.onAction d) w) as [so ps n cs h]. unfold exec.
    now rewrite BlockHeightFacts.bh_onPostRestart.
  - cbn [BlockHeight.run fold_left map BlockHeight.invoke BlockHeight.dispatcher].
    unfold BlockHeight.run in IH. rewrite IH. f_equal. apply Hstep.
Qed.

End ArrivalOrder.

(** ** The cursor file and the marker *)

Section CursorFile.
Import Graphql.

Lemma gq_marker_invoke (file : option string) (i : invocation) mk cs f h :
  (mk = None /\ f = file) \/ (exists c, mk = Some c /\ f = Some c) ->
  exists mk' cs' f' h',
    exec (invoke i) (mkEngine (Some (mkStream mk)) [] cs f h) =
      mkEngine (Some (mkStream mk')) [] cs' f' h' /\
    ((mk' = None /\ f' = file) \/ (exists c, mk' = Some c /\ f' = Some c)).
Proof.
  intros Hinv. unfold exec, invoke, on_message.
  destruct i as [[d | errors terminal | | type] | | c].
  - destruct (trace d) as [t|] eqn:Ht.
    + destruct (string_dec (cursor d) "") as [Hz | Hnz].
      * rewrite (GraphqlFacts.gq_onResult_trace_refused d t) by assumption. cbn [fst].
        do 4 eexists. split; [reflexivity | exact Hinv].
      * rewrite (GraphqlFacts.gq_onResult_trace_set d t) by assumption. cbn [fst].
        do 4 eexists. split; [reflexivity|]. right. eauto.
    + rewrite GraphqlFacts.gq_onResult_marker by assumption.
      destruct (string_dec (cursor d) "") as [Hz | Hnz].
      * rewrite Hz, GraphqlFacts.gq_onProgress_refused. cbn [fst].
        do 4 eexists. split; [reflexivity | exact Hinv].
      * rewrite GraphqlFacts.gq_onProgress_set by assumption. cbn [fst].
        do 4 eexists. split; [reflexivity|]. right. eauto.
  - rewrite GraphqlFacts.gq_onError. do 4 eexists. split; [reflexivity | exact Hinv].
  - do 4 eexists. split; [reflexivity | exact Hinv].
  - do 4 eexists. split; [reflexivity | exact Hinv].
  - rewrite GraphqlFacts.gq_onPostRestart. do 4 eexists. split; [reflexivity | exact Hinv].
  - destruct (string_dec c "") as [-> | Hnz].
    + rewrite GraphqlFacts.gq_commit_refused. cbn [fst].
      do 4 eexists. split; [reflexivity | exact Hinv].
    + rewrite GraphqlFacts.gq_commit_set by assumption. cbn [fst].
      do 4 eexists. split; [reflexivity|]. right. eauto.
Qed.

(** X5: on a cursor engine started with an unmarked stream, whatever is
    invoked, either nothing was marked yet and the cursor file is as it was
    at the start, or the cursor file holds exactly the cursor the stream is
    marked at: the cursor a restarted engine reads back as
    [lastPersistedCursor] is the one a reconnection resumes from. *)
Theorem cursor_file_follows_marker (calls : list invocation) (file : option string) :
  let w := run calls (exec (run_start (mkStream None)) (new_Engine file)) in
  (marked w = None /\ last_cursor_file w = file) \/
  (exists c, marked w = Some c /\ last_cursor_file w = Some c /\ lastPersistedCursor w = c).
Proof.
  cbv zeta.
  assert (Hstart : exists h,
            exec (run_start (mkStream None)) (new_Engine file) =
            mkEngine (Some (mkStream None)) [] [] file h).
  { destruct file; eexists; reflexivity. }
  destruct Hstart as [h ->].
  assert (Hrun : forall calls mk cs f h,
            (mk = None /\ f = file) \/ (exists c, mk = Some c /\ f = Some c) ->
            exists mk' cs' f' h',
              run calls (mkEngine (Some (mkStream mk)) [] cs f h) =
                mkEngine (Some (mkStream mk')) [] cs' f' h' /\
              ((mk' = None /\ f' = file) \/ (exists c, mk' = Some c /\ f' = Some c))).
  { clear calls h. induction calls as [|i calls IH]; intros mk cs f h Hinv.
    - do 4 eexists. split; [reflexivity | exact Hinv].
    - cbn [run fold_left].
      destruct (gq_marker_invoke file i mk cs f h Hinv) as (mk1 & cs1 & f1 & h1 & -> & H1).
      exact (IH mk1 cs1 f1 h1 H1). }
  destruct (Hrun calls None [] file h) as (mk & cs & f & h' & -> & Hinv); [now left|].
  unfold marked, lastPersistedCursor.
  cbn [stream marker last_cursor_file].
  destruct Hinv as [[-> ->] | [c [-> ->]]]; [now left | right; eauto].
Qed.

End CursorFile.

(** ** An engine that was not started, and [stop] *)

Section NotStarted.

Lemma bh_unstarted_invoke (i : BlockHeight.invocation) ps n cs h :
  exists ps' n' cs' delta,
    exec (BlockHeight.invoke i) (BlockHeight.mkEngine None ps n cs h) =
      BlockHeight.mkEngine None ps' n' cs' (h ++ delta) /\
    Forall (fun e => is_checkpoint e = false) delta.
Proof.
  assert (Hunset : forall blockId blockNum,
            Forall (fun e : BlockHeight.ev => is_checkpoint e = false)
                   (BlockHeight.commit_events_unset blockId blockNum ps)).
  { intros. unfold BlockHeight.commit_events_unset.
    apply Forall_app. split; [repeat constructor|].
    apply Forall_app. split; [|repeat constructor].
    apply Forall_forall. intros e He. apply in_map_iff in He.
    destruct He as [a [<- _]]. reflexivity. }
  unfold exec, BlockHeight.invoke, BlockHeight.dispatcher.
  destruct i as [[ | d | d | type] | | blockId blockNum | ].
  - rewrite BlockHeightFacts.bh_onListening. do 4 eexists.
    split; [reflexivity | repeat constructor].
  - destruct (n <? BlockHeight.block_num d)%N eqn:Hcmp.
    + rewrite BlockHeightFacts.bh_onAction_ahead_unset by assumption.
      do 4 eexists. split; [reflexivity|].
      apply Forall_app. split; [repeat constructor | apply Hunset].
    + rewrite BlockHeightFacts.bh_onAction_not_ahead by assumption.
      do 4 eexists. split; [reflexivity | repeat constructor].
  - rewrite BlockHeightFacts.bh_onProgress_unset. do 4 eexists. split; [reflexivity|].
    apply Forall_app. split; [repeat constructor | apply Hunset].
  - exists ps, n, cs, []. cbn. rewrite app_nil_r. split; [reflexivity | constructor].
  - rewrite BlockHeightFacts.bh_onPostRestart. do 4 eexists.
    split; [reflexivity | repeat constructor].
  - rewrite BlockHeightFacts.bh_commit_unset. do 4 eexists.
    split; [reflexivity | apply Hunset].
  - rewrite BlockHeightFacts.bh_flushPending. do 4 eexists.
    split; [reflexivity | repeat constructor].
Qed.

Lemma gq_unstarted_invoke (i : Graphql.invocation) cs f h :
  exists delta,
    exec (Graphql.invoke i) (Graphql.mkEngine None [] cs f h) =
      Graphql.mkEngine None [] (cs ++ Graphql.arrivals [i]) f (h ++ delta) /\
    Forall (fun e => is_checkpoint e = false) delta.
Proof.
  assert (Hunset : forall c ps,
            Forall (fun e : Graphql.ev => is_checkpoint e = false)
                   (Graphql.commit_events_unset c ps)).
  { intros c ps. unfold Graphql.commit_events_unset. destruct ps as [|a ps]; [constructor|].
    apply Forall_app. split; [repeat constructor|].
    apply Forall_app. split; [|repeat constructor].
    apply Forall_forall. intros e He. apply in_map_iff in He.
    destruct He as [x [<- _]]. reflexivity. }
  assert (Hpending : forall d actions,
            Forall (fun e : Graphql.ev => is_checkpoint e = false)
                   (Graphql.pending_events d actions)).
  { intros d actions. induction actions as [|a actions IH]; [constructor|].
    cbn [Graphql.pending_events flat_map app]. repeat constructor. exact IH. }
  unfold exec, Graphql.invoke, Graphql.on_message.
  destruct i as [[d | errors terminal | | type] | | c];
    cbn [Graphql.arrivals flat_map]; rewrite ?app_nil_r.
  - destruct (Graphql.trace d) as [t|] eqn:Ht.
    + rewrite (GraphqlFacts.gq_onResult_trace_unset d t) by assumption.
      cbn [fst app]. eexists. split; [reflexivity|].
      apply Forall_app. split; [apply Hpending|].
      constructor; [reflexivity | apply Hunset].
    + rewrite GraphqlFacts.gq_onResult_marker by assumption.
      rewrite GraphqlFacts.gq_onProgress_unset. cbn [fst].
      unfold Graphql.payloads. rewrite Ht, !app_nil_r.
      eexists. split; [reflexivity|]. repeat constructor.
  - rewrite GraphqlFacts.gq_onError. exists []. rewrite app_nil_r.
    split; [reflexivity | constructor].
  - eexists. split; [reflexivity | repeat constructor].
  - exists []. cbn. rewrite app_nil_r. split; [reflexivity | constructor].
  - rewrite GraphqlFacts.gq_onPostRestart. eexists. split; [reflexivity | repeat constructor].
  - rewrite GraphqlFacts.gq_commit_unset. cbn [fst]. rewrite app_nil_r.
    eexists. split; [reflexivity | constructor].
Qed.

(** X6: an engine that was never started marks nothing and persists
    nothing, whatever is invoked on it: its stream stays unset, its history
    holds no mark and no persist, and the cursor file of the cursor engine
    stays as it was.  It still drains its Pending Buffer before [commit]
    throws: the cursor engine ends with every payload received in its sink,
    ahead of the cursor file, and a block-height engine that meets an action
    ahead of [lastCommittedBlockNum] throws with that block number already
    recorded and the action in neither buffer. *)
Theorem unstarted_engine_never_checkpoints
    (bcalls : list BlockHeight.invocation) (gcalls : list Graphql.invocation)
    (file : option string)
    (d : BlockHeight.ActionTraceData) (ps cs : list BlockHeight.Action) (n : N)
    (h : list BlockHeight.ev) :
  (let w := BlockHeight.run bcalls BlockHeight.new_Engine in
   BlockHeight.stream w = None /\
   Forall (fun e => is_checkpoint e = false) (BlockHeight.history w)) /\
  (let w := Graphql.run gcalls (Graphql.new_Engine file) in
   Graphql.stream w = None /\
   Graphql.last_cursor_file w = file /\
   Forall (fun e => is_checkpoint e = false) (Graphql.history w) /\
   Graphql.pendingActions w = [] /\
   Graphql.committedActions w = Graphql.arrivals gcalls) /\
  (let r := BlockHeight.onAction d (BlockHeight.mkEngine None ps n cs h) in
   if (n <? BlockHeight.block_num d)%N
   then snd r = Thrown BlockHeight.stream_not_set /\
        BlockHeight.pendingActions (fst r) = [] /\
        BlockHeight.committedActions (fst r) = cs ++ ps /\
        BlockHeight.lastCommittedBlockNum (fst r) = BlockHeight.block_num d
   else snd r = Returned tt /\
        BlockHeight.pendingActions (fst r) = ps ++ [BlockHeight.act d] /\
        BlockHeight.committedActions (fst r) = cs /\
        BlockHeight.lastCommittedBlockNum (fst r) = n).
Proof.
  split; [|split].
  - cbv zeta.
    assert (Hrun : forall calls ps n cs h,
              Forall (fun e : BlockHeight.ev => is_checkpoint e = false) h ->
              BlockHeight.stream
                (BlockHeight.run calls (BlockHeight.mkEngine None ps n cs h)) = None /\
              Forall (fun e => is_checkpoint e = false)
                (BlockHeight.history
                   (BlockHeight.run calls (BlockHeight.mkEngine None ps n cs h)))).
    { clear. induction calls as [|i calls IH]; intros ps n cs h Hh.
      - split; [reflexivity | exact Hh].
      - cbn [BlockHeight.run fold_left].
        destruct (bh_unstarted_invoke i ps n cs h) as (ps' & n' & cs' & delta & -> & Hd).
        apply IH. apply Forall_app. now split. }
    apply Hrun. constructor.
  - cbv zeta.
    assert (Hrun : forall calls cs h,
              Forall (fun e : Graphql.ev => is_checkpoint e = false) h ->
              exists h',
                Graphql.run calls (Graphql.mkEngine None [] cs file h) =
                  Graphql.mkEngine None [] (cs ++ Graphql.arrivals calls) file h' /\
                Forall (fun e => is_checkpoint e = false) h').
    { clear. induction calls as [|i calls IH]; intros cs h Hh.
      - exists h. cbn. rewrite app_nil_r. split; [reflexivity | exact Hh].
      - cbn [Graphql.run fold_left].
        destruct (gq_unstarted_invoke i cs file h) as (delta & -> & Hd).
        destruct (IH (cs ++ Graphql.arrivals [i]) (h ++ delta)) as (h' & Hrun & Hh').
        { apply Forall_app. now split. }
        unfold Graphql.run in Hrun. rewrite Hrun.
        exists h'. split; [|exact Hh'].
        unfold Graphql.arrivals. cbn [flat_map]. now rewrite !app_nil_r, <- app_assoc. }
    destruct (Hrun gcalls [] []) as (h' & Hw & Hh'); [constructor|].
    unfold Graphql.new_Engine. rewrite Hw.
    repeat split. exact Hh'.
  - cbv zeta. destruct (n <? BlockHeight.block_num d)%N eqn:Hcmp.
    + rewrite BlockHeightFacts.bh_onAction_ahead_unset by assumption. repeat split.
    + rewrite BlockHeightFacts.bh_onAction_not_ahead by assumption. repeat split.
Qed.

Lemma bh_forEach_console_log (actions : list BlockHeight.Action) so ps n cs h :
  forEach actions
    (fun action => BlockHeight.console_log
                     (BlockHeight.Text (BlockHeight.commit_transfer_line action)))
    (BlockHeight.mkEngine so ps n cs h) =
  (BlockHeight.mkEngine so ps n cs
     (h ++ map (fun action => Log (BlockHeight.Text (BlockHeight.commit_transfer_line action)))
             actions),
   Returned tt).
Proof.
  revert h. induction actions as [|a actions IH]; intros h; cbn [forEach map].
  - unfold ret. now rewrite app_nil_r.
  - unfold bind at 1. cbn. rewrite IH. now rewrite <- app_assoc.
Qed.

(** X8: [stop] on a started engine prints a heading and one line for each
    action of the sink, in sink order, and changes nothing else: the actions
    still pending are neither sunk nor printed.  On an engine that was not
    started it throws before it prints anything. *)
Theorem stop_prints_the_sink
    (st : BlockHeight.Stream) (ps cs : list BlockHeight.Action) (n : N)
    (h : list BlockHeight.ev) :
  BlockHeight.stop (BlockHeight.mkEngine (Some st) ps n cs h) =
    (BlockHeight.mkEngine (Some st) ps n cs
       (h ++ Log (BlockHeight.Text "Committed actions") ::
             map (fun action =>
                    Log (BlockHeight.Text (BlockHeight.commit_transfer_line action))) cs),
     Returned tt) /\
  BlockHeight.stop (BlockHeight.mkEngine None ps n cs h) =
    (BlockHeight.mkEngine None ps n cs h, Thrown BlockHeight.stream_not_set).
Proof.
  split; [|reflexivity].
  unfold BlockHeight.stop.
  cbv beta iota zeta delta [bind BlockHeight.ensureStream gets ret BlockHeight.stream].
  unfold BlockHeight.console_log at 1, BlockHeight.record at 1, modify at 1.
  cbv beta iota zeta delta
    [BlockHeight.stream BlockHeight.pendingActions BlockHeight.lastCommittedBlockNum
     BlockHeight.committedActions BlockHeight.history].
  rewrite bh_forEach_console_log. now rewrite <- app_assoc.
Qed.

End NotStarted.

(** ** Exactly once, in order: the block-height engine under reconnections *)

Section BlockHeightInOrder.
Import BlockHeight.

Lemma earlier_redeliver_from b src : src = earlier b src ++ redeliver_from b src.
Proof.
  induction src as [|d src IH]; cbn [earlier redeliver_from]; [reflexivity|].
  destruct (block_num d <? b)%N; [|reflexivity].
  cbn [app]. now rewrite <- IH.
Qed.

Lemma earlier_before b src d : In d (earlier b src) -> (block_num d < b)%N.
Proof.
  induction src as [|x src IH]; cbn [earlier]; [intros []|].
  destruct (block_num x <? b)%N eqn:Hcmp; [|intros []].
  intros [<- | Hin]; [now apply N.ltb_lt | now apply IH].
Qed.

Lemma split_at_block b (l1 l2 : list ActionTraceData) x :
  (forall y, In y l1 -> (block_num y < b)%N) ->
  (b <= block_num x)%N ->
  earlier b (l1 ++ x :: l2) = l1 /\ redeliver_from b (l1 ++ x :: l2) = x :: l2.
Proof.
  intros Hl1 Hx. induction l1 as [|y l1 IH]; cbn [app earlier redeliver_from].
  - apply N.ltb_ge in Hx. now rewrite Hx.
  - assert (Hy : (block_num y <? b)%N = true) by (apply N.ltb_lt; apply Hl1; now left).
    rewrite Hy. destruct IH as [-> ->]; [|split; reflexivity].
    intros z Hz. apply Hl1. now right.
Qed.

Lemma redeliver_from_zero src : redeliver_from 0 src = src /\ earlier 0 src = [].
Proof.
  destruct src as [|d src]; [split; reflexivity|].
  cbn [redeliver_from earlier].
  assert (H : (block_num d <? 0)%N = false) by (apply N.ltb_ge; lia).
  now rewrite H.
Qed.

Lemma in_order_started (src : list ActionTraceData) :
  in_order (mkSystem (exec (start (mkStream None)) new_Engine) src src).
Proof.
  eexists None, [], 0%N, [], _, []. cbn [engine source remaining app map].
  destruct (redeliver_from_zero src) as [Hr He].
  split; [reflexivity|]. split; [now right|]. split; [exact Hr|].
  split; [now rewrite He|]. split; [reflexivity | intros d []].
Qed.

Lemma in_order_deliver (sys : System) : in_order sys -> in_order (deliver sys).
Proof.
  intros Hinv. unfold deliver.
  destruct (remaining sys) as [|d rest] eqn:Hrem; [exact Hinv|].
  destruct Hinv as (mk & ps & n & cs & h & delivered & Hw & Hmk & Hsplit & Hcs & Hps & Hle).
  rewrite Hrem in Hsplit. rewrite Hw. unfold exec, dispatcher.
  destruct (n <? block_num d)%N eqn:Hcmp.
  - rewrite BlockHeightFacts.bh_onAction_ahead_set by assumption. cbn [fst].
    apply N.ltb_lt in Hcmp.
    assert (Hsrc : source sys = (earlier n (source sys) ++ delivered) ++ d :: rest).
    { rewrite <- app_assoc, <- Hsplit. apply earlier_redeliver_from. }
    destruct (split_at_block (block_num d) (earlier n (source sys) ++ delivered) rest d)
      as [He Hr].
    { intros y Hy. apply in_app_or in Hy. destruct Hy as [Hy | Hy].
      - apply earlier_before in Hy. lia.
      - specialize (Hle y Hy). lia. }
    { lia. }
    rewrite <- Hsrc in He, Hr.
    eexists (Some (block_num d)), [act d], (block_num d), (cs ++ ps), _, [d].
    cbn [engine source remaining].
    split; [reflexivity|]. split; [now left|]. split; [exact Hr|].
    split; [now rewrite He, map_app, Hcs, Hps|].
    split; [reflexivity|]. intros y [<- | []]. lia.
  - rewrite BlockHeightFacts.bh_onAction_not_ahead by assumption. cbn [fst].
    apply N.ltb_ge in Hcmp.
    eexists mk, (ps ++ [act d]), n, cs, _, (delivered ++ [d]).
    cbn [engine source remaining].
    split; [reflexivity|]. split; [assumption|].
    split; [now rewrite Hsplit, <- app_assoc|]. split; [assumption|].
    split; [now rewrite map_app, Hps|].
    intros y Hy. apply in_app_or in Hy. destruct Hy as [Hy | [<- | []]]; auto.
Qed.

Lemma in_order_reconnect (sys : System) : in_order sys -> in_order (reconnect sys).
Proof.
  intros (mk & ps & n & cs & h & delivered & Hw & Hmk & Hsplit & Hcs & Hps & Hle).
  unfold reconnect. rewrite Hw. unfold exec.
  rewrite BlockHeightFacts.bh_onPostRestart. cbn [fst marked stream marker].
  eexists mk, [], n, cs, _, []. cbn [engine source remaining app map].
  split; [reflexivity|]. split; [assumption|].
  split; [|split; [assumption | split; [reflexivity | intros d []]]].
  destruct Hmk as [-> | [-> ->]]; cbn [resume]; [reflexivity|].
  apply redeliver_from_zero.
Qed.

Lemma in_order_drain : forall (rest : list ActionTraceData) (sys : System),
  remaining sys = rest ->
  in_order sys ->
  in_order (mkSystem (drain sys) (source sys) []).
Proof.
  induction rest as [|d rest IH]; intros sys Hrem Hinv.
  - unfold drain. rewrite Hrem. cbn [fold_left].
    destruct sys as [w src rem]. cbn in *. now subst rem.
  - rewrite <- drain_deliver.
    replace (source sys) with (source (deliver sys))
      by (unfold deliver; now rewrite Hrem).
    apply IH.
    + unfold deliver. now rewrite Hrem.
    + now apply in_order_deliver.
Qed.

(** X7: a started block-height engine consumes a finite source of action
    traces under any schedule of deliveries and reconnections, each
    reconnection calling the reconnect hook and redelivering from the
    marker, and then the source to its end.  The sink followed by the
    Pending Buffer is then the list of the actions of the source: every
    action once, in source order, whatever was redelivered; and the sink is
    the actions of the messages before the first one at or after
    [lastCommittedBlockNum]. *)
Theorem block_height_exactly_once_in_order
    (schedule : list step) (src : list ActionTraceData) :
  let w := consume schedule src in
  committedActions w ++ pendingActions w = map act src /\
  committedActions w = map act (earlier (lastCommittedBlockNum w) src).
Proof.
  cbv zeta. unfold consume.
  assert (Hsched : forall schedule sys,
            in_order sys ->
            in_order (fold_left system_step schedule sys) /\
            source (fold_left system_step schedule sys) = source sys).
  { clear. induction schedule as [|s schedule IH]; intros sys Hinv; [now split|].
    cbn [fold_left].
    assert (Hstep : in_order (system_step sys s) /\ source (system_step sys s) = source sys).
    { destruct s; cbn [system_step].
      - split; [now apply in_order_deliver|].
        unfold deliver. now destruct (remaining sys).
      - split; [now apply in_order_reconnect | reflexivity]. }
    destruct Hstep as [Hinv' Hsrc'].
    destruct (IH _ Hinv') as [H1 H2]. split; [exact H1 | now rewrite H2]. }
  destruct (Hsched schedule _ (in_order_started src)) as [Hinv Hsrc].
  set (sys := fold_left system_step schedule _) in *.
  cbn [source] in Hsrc.
  pose proof (in_order_drain (remaining sys) sys eq_refl Hinv) as Hend.
  rewrite Hsrc in Hend.
  destruct Hend as (mk & ps & n & cs & h & delivered & Hw & _ & Hsplit & Hcs & Hps & _).
  cbn [engine source remaining] in *. rewrite Hw.
  cbn [committedActions pendingActions lastCommittedBlockNum].
  rewrite app_nil_r in Hsplit. split; [|exact Hcs].
  rewrite Hcs, Hps, <- Hsplit, <- map_app. f_equal.
  symmetry. apply earlier_redeliver_from.
Qed.

End BlockHeightInOrder.
